(** * Emission Atlas: a shallow embedding of [emission_atlas.py] and
    [package_release.py], and the properties of the atlas layout, the UV
    remapping, the unpack path, the revert map and the packaging script.

    Conventions of the embedding.
    - Python [int] is [Z]. A Python [float] is a rational [Q]. The functions
      on pixel buffers, columns and clamps are first given with exact
      arithmetic ([/] is rational division, [//] the floor of the quotient,
      [int(.)] truncation toward zero); the module [Binary64] gives the UV
      arithmetic of [remap_uvs] and of the Unpack operator again with every
      operation rounded to the nearest binary64 number.
    - A raised exception is [None] in the [option] monad.
    - A [dict] is an insertion-ordered association list with unique keys.
    - Host datablocks (materials, images) are referred to by their name, which
      is the key of the host collections [bpy.data.materials] and
      [bpy.data.images]. The operators are first given on objects that own
      their mesh data, and Create Atlas and Revert again on objects that
      link to mesh datablocks, which several objects may share.
    - A text is the string of its UTF-8 bytes. *)

From Stdlib Require Import ZArith QArith Qround Qabs Qpower Lia Lqa Ascii.
From stdpp Require Import base option list strings pretty.

Local Open Scope Z_scope.

(** ** Python primitives *)

Module Py.

(** [range(n)] *)
Definition range (n : Z) : list Z := seqZ 0 n.

(** [enumerate(l)] *)
Definition enumerate {A} (l : list A) : list (Z * A) :=
  zip (seqZ 0 (Z.of_nat (length l))) l.

(** Index normalisation of a sequence of length [len]: negative indices count
    from the end, anything else out of range raises [IndexError]. *)
Definition norm_index (len k : Z) : option nat :=
  if decide (0 ≤ k < len) then Some (Z.to_nat k)
  else if decide (- len ≤ k < 0) then Some (Z.to_nat (k + len))
  else None.

(** [l[k]] *)
Definition getitem {A} (l : list A) (k : Z) : option A :=
  i ← norm_index (Z.of_nat (length l)) k; l !! i.

(** [l[k] = v] *)
Definition setitem {A} (l : list A) (k : Z) (v : A) : option (list A) :=
  i ← norm_index (Z.of_nat (length l)) k; Some (<[i := v]> l).

(** [[v] * n] *)
Definition repeat {A} (v : A) (n : Z) : list A := replicate (Z.to_nat n) v.

(** A [for] loop whose body threads a state and may raise. *)
Fixpoint for_each {X S} (xs : list X) (body : X → S → option S) (s : S)
  : option S :=
  match xs with
  | [] => Some s
  | x :: xs' => s' ← body x s; for_each xs' body s'
  end.

(** A [for] loop that also updates, in place, the element it visits. *)
Fixpoint map_for_each {X Y S} (body : X → S → option (Y * S)) (xs : list X)
    (s : S) : option (list Y * S) :=
  match xs with
  | [] => Some ([], s)
  | x :: xs' =>
      '(y, s1) ← body x s;
      '(ys, s2) ← map_for_each body xs' s1;
      Some (y :: ys, s2)
  end.

(** [int(x)] for a float [x]: truncation toward zero. *)
Definition int_of_float (x : Q) : Z := Z.quot (Qnum x) (Z.pos (Qden x)).

(** [float(a) / b], [a / b] on numbers: [ZeroDivisionError] when [b] is 0. *)
Definition truediv (a b : Q) : option Q :=
  if Qeq_bool b 0 then None else Some (a / b)%Q.

(** [a // b] on floats: the floor of the quotient, as a float. *)
Definition floordiv (a b : Q) : option Q :=
  if Qeq_bool b 0 then None else Some (inject_Z (Qfloor (a / b))).

(** [a < b] and [a >= b] on floats. *)
Definition lt (a b : Q) : bool := negb (Qle_bool b a).
Definition ge (a b : Q) : bool := Qle_bool b a.

(** The first element on which [f] answers, for loops that [break] on their
    first hit. *)
Fixpoint first_some {A B} (f : A → option B) (l : list A) : option B :=
  match l with
  | [] => None
  | a :: l' => match f a with Some b => Some b | None => first_some f l' end
  end.

(** Ordered dictionaries. *)
Section dict.
Context {V : Type}.

Definition dict := list (string * V).

Definition keys (d : dict) : list string := d.*1.

(** [d[k]] ([KeyError] is [None]) *)
Fixpoint get (d : dict) (k : string) : option V :=
  match d with
  | [] => None
  | (k', v) :: d' => if decide (k' = k) then Some v else get d' k
  end.

(** [d[k] = v]: overwrite in place, or append a new key at the end. *)
Fixpoint set (d : dict) (k : string) (v : V) : dict :=
  match d with
  | [] => [(k, v)]
  | (k', v') :: d' =>
      if decide (k' = k) then (k', v) :: d' else (k', v') :: set d' k v
  end.

(** [k in d] *)
Definition mem (d : dict) (k : string) : bool := bool_decide (k ∈ keys d).

(** [del d[k]] for a key that may be absent. *)
Definition remove (d : dict) (k : string) : dict :=
  @filter _ (list (string * V)) _ (λ kv, kv.1 ≠ k) _ d.
End dict.
Global Arguments dict : clear implicits.

End Py.

(** ** Colours, pixel buffers and images *)

Definition rgb : Type := Q * Q * Q.
Definition rgba : Type := Q * Q * Q * Q.

Definition red (c : rgb) : Q := c.1.1.
Definition green (c : rgb) : Q := c.1.2.
Definition blue (c : rgb) : Q := c.2.

Record image := mkImage {
  img_name : string;
  img_size : Z * Z;
  img_pixels : list Q;
  img_filepath_raw : string;
  img_file_format : string;
  img_props : Py.dict Z;
}.

(** [px_index = ((y * atlas_width) + (x_start + x)) * 4] *)
Definition px_index (atlas_width x_start x y : Z) : Z :=
  ((y * atlas_width) + (x_start + x)) * 4.

(** The four channel writes of the innermost loop body. *)
Definition fill_pixel (px : Z) (color : rgb) (pixels : list Q)
  : option (list Q) :=
  pixels ← Py.setitem pixels (px + 0) (red color);
  pixels ← Py.setitem pixels (px + 1) (green color);
  pixels ← Py.setitem pixels (px + 2) (blue color);
  Py.setitem pixels (px + 3) 1%Q.

(** [column_width = atlas_width // mat_count] *)
Definition column_width (atlas_width mat_count : Z) : Z :=
  atlas_width `div` mat_count.

(** The two inner loops: fill column [i] with [color]. *)
Definition fill_column (atlas_width atlas_height cw i : Z) (color : rgb)
    (pixels : list Q) : option (list Q) :=
  let x_start := i * cw in
  Py.for_each (Py.range cw) (λ x pixels,
    Py.for_each (Py.range atlas_height) (λ y pixels,
      fill_pixel (px_index atlas_width x_start x y) color pixels) pixels)
    pixels.

(** The pixel buffer built by [create_texture_atlas] (lines 57 to 71). *)
Definition atlas_pixels (material_colors : Py.dict rgb)
    (atlas_width atlas_height : Z) : option (list Q) :=
  let mat_list := Py.keys material_colors in
  let mat_count := Z.of_nat (length mat_list) in
  let cw := column_width atlas_width mat_count in
  let pixels := Py.repeat 0%Q (atlas_width * atlas_height * 4) in
  Py.for_each (Py.enumerate mat_list) (λ '(i, mat_name) pixels,
    color ← Py.get material_colors mat_name;
    fill_column atlas_width atlas_height cw i color pixels) pixels.

(** Reading back one pixel (all four channels) of a row-major RGBA buffer. *)
Definition pixel_at (pixels : list Q) (atlas_width x y : Z) : option rgba :=
  let px := px_index atlas_width 0 x y in
  r ← Py.getitem pixels (px + 0);
  g ← Py.getitem pixels (px + 1);
  b ← Py.getitem pixels (px + 2);
  a ← Py.getitem pixels (px + 3);
  Some (r, g, b, a).

(** ** The host's data model (the part of [bpy] the add-on touches) *)

(** A shader node: its [type], the default value of its ["Color"] input, the
    default value of its ["Strength"] input and, for image texture nodes, the
    image it refers to. *)
Record node := mkNode {
  node_type : string;
  node_color : rgba;
  node_strength : Q;
  node_image : option string;
}.

(** A link from output socket [link_from] of node number [link_from_node] to
    input socket [link_to] of node number [link_to_node]. *)
Record link := mkLink {
  link_from_node : nat;
  link_from : string;
  link_to_node : nat;
  link_to : string;
}.

Record material := mkMaterial {
  mat_name : string;
  use_nodes : bool;
  nodes : list node;
  links : list link;
}.

(** A mesh face: its material slot number and the UV of each of its loops on
    the active UV layer. *)
Record face := mkFace {
  material_index : Z;
  loops : list (Q * Q);
}.

(** An object as an operator sees it when it visits it: [material_slots] is
    the slot list that [obj.material_slots] reads and [obj.data.materials]
    edits (an empty slot is [None]), [faces] are the faces of [obj.data]. A
    list of such objects stands for a selection in which every object owns
    its mesh data; selections whose objects share a mesh datablock are
    modelled further down, with the datablocks in a store of their own. *)
Record object := mkObject {
  obj_name : string;
  obj_type : string;
  material_slots : list (option string);
  faces : list face;
}.

(** What an operator sees and changes: [bpy.data.materials],
    [bpy.data.images], the module global [ORIGINAL_MATERIALS] and
    [context.selected_objects]. *)
Record world := mkWorld {
  data_materials : list material;
  data_images : list image;
  ORIGINAL_MATERIALS : Py.dict (list (option string));
  selected_objects : list object;
}.

Inductive status := FINISHED | CANCELLED.

(** The host keeps datablock names unique: [new(name)] appends a numeric suffix
    when [name] is taken. *)
Definition name_candidates (base : string) (m : nat) : list string :=
  (λ k : nat, base +:+ "." +:+ pretty k) <$> seq 1 m.

Definition unique_name (base : string) (names : list string) : string :=
  if decide (base ∈ names) then
    default base
      (head (filter (λ c, c ∉ names)
               (name_candidates base (S (length names)))))
  else base.

Definition material_names (materials : list material) : list string :=
  mat_name <$> materials.

Definition image_names (images : list image) : list string :=
  img_name <$> images.

(** [bpy.data.materials[name]] *)
Definition find_material (materials : list material) (name : string)
  : option material :=
  snd <$> list_find (λ m, mat_name m = name) materials.

(** [bpy.data.images[name]], also how a node's [image] is dereferenced. *)
Definition find_image (images : list image) (name : string) : option image :=
  snd <$> list_find (λ im, img_name im = name) images.

(** ** [emission_atlas.py]: utility functions *)

(** The first node of type ['EMISSION'] (the inner loop with its [break]). *)
Definition first_emission_node (mat : material) : option node :=
  snd <$> list_find (λ nd, node_type nd = "EMISSION") (nodes mat).

(** [default_value[:3]] *)
Definition rgb_of (c : rgba) : rgb := (c.1.1.1, c.1.1.2, c.1.2).

Definition get_simple_emission_materials (materials : list material)
  : Py.dict rgb :=
  foldl (λ emission_materials mat,
    if use_nodes mat then
      match first_emission_node mat with
      | Some nd =>
          Py.set emission_materials (mat_name mat) (rgb_of (node_color nd))
      | None => emission_materials
      end
    else emission_materials) [] materials.

(** [create_texture_atlas]: [None] inside is Python's [None]; the image is
    returned together with the extended [bpy.data.images]. Saving the image to
    disk leaves the modelled state unchanged. *)
Definition create_texture_atlas (images : list image)
    (material_colors : Py.dict rgb) (atlas_width atlas_height : Z)
  : option (option image * list image) :=
  let mat_list := Py.keys material_colors in
  let mat_count := Z.of_nat (length mat_list) in
  if decide (mat_count = 0) then Some (None, images)
  else
    pixels ← atlas_pixels material_colors atlas_width atlas_height;
    let img := {|
      img_name := unique_name "Emission_Atlas" (image_names images);
      img_size := (atlas_width, atlas_height);
      img_pixels := pixels;
      img_filepath_raw := "//Emission_Atlas.png";
      img_file_format := "PNG";
      img_props := Py.set [] "atlas_columns" mat_count |} in
    Some (Some img, images ++ [img]).

(** A freshly added node of the given type, with the host's default input
    values. *)
Definition new_node (type : string) : node :=
  {| node_type := type; node_color := (1, 1, 1, 1)%Q; node_strength := 1%Q;
     node_image := None |}.

(** [create_atlas_material]: returns the new material's name and the extended
    [bpy.data.materials]. *)
Definition create_atlas_material (materials : list material) (texture : image)
  : string * list material :=
  let name := unique_name "AtlasMaterial" (material_names materials) in
  let tex_node :=
    {| node_type := "TEX_IMAGE"; node_color := (1, 1, 1, 1)%Q;
       node_strength := 1%Q; node_image := Some (img_name texture) |} in
  let emission := new_node "EMISSION" in
  let output := new_node "OUTPUT_MATERIAL" in
  let mat := {|
    mat_name := name; use_nodes := true;
    nodes := [tex_node; emission; output];
    links := [mkLink 0 "Color" 1 "Color"; mkLink 1 "Emission" 2 "Surface"]
  |} in
  (name, materials ++ [mat]).

(** The body of the face loop of [remap_uvs]. *)
Definition remap_face (slots : list (option string))
    (mat_index_map : Py.dict Z) (atlas_width : Z) (column_width : Q)
    (f : face) : option face :=
  if decide (material_index f < Z.of_nat (length slots)) then
    mat ← Py.getitem slots (material_index f);
    match mat with
    | Some name =>
        match Py.get mat_index_map name with
        | Some i =>
            u_min ← Py.truediv (inject_Z i * column_width)
                       (inject_Z atlas_width);
            u_max ← Py.truediv (inject_Z (i + 1) * column_width)
                       (inject_Z atlas_width);
            let u_center := ((u_min + u_max) * (1 # 2))%Q in
            let v_center := (1 # 2)%Q in
            Some {| material_index := material_index f;
                    loops := (λ _, (u_center, v_center)) <$> loops f |}
        | None => Some f
        end
    | None => Some f
    end
  else Some f.

Definition remap_uvs (obj : object) (mat_index_map : Py.dict Z)
    (atlas_width atlas_height : Z) : option object :=
  let mat_count := Z.of_nat (length mat_index_map) in
  if decide (mat_count = 0) then Some obj
  else
    column_width ← Py.truediv (inject_Z atlas_width) (inject_Z mat_count);
    faces' ← mapM (remap_face (material_slots obj) mat_index_map atlas_width
                     column_width) (faces obj);
    Some {| obj_name := obj_name obj; obj_type := obj_type obj;
            material_slots := material_slots obj; faces := faces' |}.

(** ** [ConvertToEmissionAtlas.execute] *)

(** Step 2: each material name gets the position of its key. *)
Definition build_index_map (materials : Py.dict rgb) : Py.dict Z :=
  foldl (λ mat_index_map '(idx, mat_name), Py.set mat_index_map mat_name idx)
    [] (Py.enumerate (Py.keys materials)).

(** Step 6, the body of the loop over the selected objects. *)
Definition convert_object (atlas_mat : string) (mat_index_map : Py.dict Z)
    (atlas : image) (obj : object)
    (originals : Py.dict (list (option string)))
  : option (object * Py.dict (list (option string))) :=
  if decide (obj_type obj = "MESH") then
    let originals := Py.set originals (obj_name obj) (material_slots obj) in
    obj ← remap_uvs obj mat_index_map (img_size atlas).1 (img_size atlas).2;
    Some ({| obj_name := obj_name obj; obj_type := obj_type obj;
             material_slots := [] ++ [Some atlas_mat];
             faces := faces obj |}, originals)
  else Some (obj, originals).

Definition ConvertToEmissionAtlas_execute (w : world)
  : option (status * world) :=
  let materials := get_simple_emission_materials (data_materials w) in
  if decide (materials = []) then Some (CANCELLED, w)
  else
    let mat_index_map := build_index_map materials in
    '(atlas, images) ← create_texture_atlas (data_images w) materials 1024 256;
    match atlas with
    | None =>
        Some (CANCELLED,
              {| data_materials := data_materials w; data_images := images;
                 ORIGINAL_MATERIALS := ORIGINAL_MATERIALS w;
                 selected_objects := selected_objects w |})
    | Some atlas =>
        let '(atlas_mat, mats) :=
          create_atlas_material (data_materials w) atlas in
        let originals := [] in
        '(objs, originals) ←
          Py.map_for_each (convert_object atlas_mat mat_index_map atlas)
            (selected_objects w) originals;
        Some (FINISHED,
              {| data_materials := mats; data_images := images;
                 ORIGINAL_MATERIALS := originals;
                 selected_objects := objs |})
    end.

(** ** [RevertEmissionAtlas.execute] *)

(** The slots re-added from a remembered list: each non-empty entry whose name
    is still a key of [bpy.data.materials]. *)
Definition restore_slots (materials : list material)
    (mat_list : list (option string)) : list (option string) :=
  foldl (λ slots mat,
    match mat with
    | Some name =>
        if decide (name ∈ material_names materials) then slots ++ [Some name]
        else slots
    | None => slots
    end) [] mat_list.

Definition revert_object (materials : list material)
    (originals : Py.dict (list (option string))) (obj : object) : object :=
  match Py.get originals (obj_name obj) with
  | Some mat_list =>
      if decide (obj_type obj = "MESH") then
        {| obj_name := obj_name obj; obj_type := obj_type obj;
           material_slots := restore_slots materials mat_list;
           faces := faces obj |}
      else obj
  | None => obj
  end.

Definition RevertEmissionAtlas_execute (w : world) : status * world :=
  if decide (ORIGINAL_MATERIALS w = []) then (CANCELLED, w)
  else
    (FINISHED,
     {| data_materials := data_materials w; data_images := data_images w;
        ORIGINAL_MATERIALS := ORIGINAL_MATERIALS w;
        selected_objects :=
          revert_object (data_materials w) (ORIGINAL_MATERIALS w)
            <$> selected_objects w |}).

(** ** Objects that share mesh data

    In the host an object refers to its datablock [obj.data], and several
    objects may refer to the same mesh. [obj.material_slots] then reads, and
    [obj.data.materials] edits, the slot list of that mesh, so what an
    operator does to one object is seen through every object linked to the
    same mesh. *)

(** A mesh datablock: its slot list and its faces. *)
Record mesh := mkMesh {
  mesh_materials : list (option string);
  mesh_faces : list face;
}.

(** An object of the selection: its name, its type, and the name of its
    datablock. *)
Record linked := mkLinked {
  lk_name : string;
  lk_type : string;
  lk_data : string;
}.

(** The state with the mesh datablocks in a store: [bpy.data.materials],
    [bpy.data.images], [bpy.data.meshes], [ORIGINAL_MATERIALS] and the
    selection. *)
Record scene := mkScene {
  sc_materials : list material;
  sc_images : list image;
  sc_meshes : Py.dict mesh;
  sc_originals : Py.dict (list (option string));
  sc_selected : list linked;
}.

(** The object as the operator sees it through [obj.material_slots] and
    [obj.data], and the update of its datablock. *)
Definition view (meshes : Py.dict mesh) (o : linked) : option object :=
  m ← Py.get meshes (lk_data o);
  Some {| obj_name := lk_name o; obj_type := lk_type o;
          material_slots := mesh_materials m; faces := mesh_faces m |}.

Definition write_back (meshes : Py.dict mesh) (o : linked) (obj : object)
  : Py.dict mesh :=
  Py.set meshes (lk_data o)
    {| mesh_materials := material_slots obj; mesh_faces := faces obj |}.

(** Step 6 of [ConvertToEmissionAtlas.execute], the body of the loop, on the
    store. *)
Definition convert_linked (atlas_mat : string) (mat_index_map : Py.dict Z)
    (atlas : image) (o : linked)
    (st : Py.dict mesh * Py.dict (list (option string)))
  : option (Py.dict mesh * Py.dict (list (option string))) :=
  if decide (lk_type o = "MESH") then
    obj ← view st.1 o;
    '(obj, originals) ←
      convert_object atlas_mat mat_index_map atlas obj st.2;
    Some (write_back st.1 o obj, originals)
  else Some st.

Definition ConvertToEmissionAtlas_linked (s : scene)
  : option (status * scene) :=
  let materials := get_simple_emission_materials (sc_materials s) in
  if decide (materials = []) then Some (CANCELLED, s)
  else
    let mat_index_map := build_index_map materials in
    '(atlas, images) ← create_texture_atlas (sc_images s) materials 1024 256;
    match atlas with
    | None =>
        Some (CANCELLED,
              {| sc_materials := sc_materials s; sc_images := images;
                 sc_meshes := sc_meshes s; sc_originals := sc_originals s;
                 sc_selected := sc_selected s |})
    | Some atlas =>
        let '(atlas_mat, mats) :=
          create_atlas_material (sc_materials s) atlas in
        '(meshes, originals) ←
          Py.for_each (sc_selected s)
            (convert_linked atlas_mat mat_index_map atlas)
            (sc_meshes s, []);
        Some (FINISHED,
              {| sc_materials := mats; sc_images := images;
                 sc_meshes := meshes; sc_originals := originals;
                 sc_selected := sc_selected s |})
    end.

(** The body of the loop of [RevertEmissionAtlas.execute], on the store. *)
Definition revert_linked (materials : list material)
    (originals : Py.dict (list (option string))) (o : linked)
    (meshes : Py.dict mesh) : option (Py.dict mesh) :=
  match Py.get originals (lk_name o) with
  | Some mat_list =>
      if decide (lk_type o = "MESH") then
        obj ← view meshes o;
        Some (write_back meshes o (revert_object materials originals obj))
      else Some meshes
  | None => Some meshes
  end.

Definition RevertEmissionAtlas_linked (s : scene) : option (status * scene) :=
  if decide (sc_originals s = []) then Some (CANCELLED, s)
  else
    meshes ← Py.for_each (sc_selected s)
                (revert_linked (sc_materials s) (sc_originals s))
                (sc_meshes s);
    Some (FINISHED,
          {| sc_materials := sc_materials s; sc_images := sc_images s;
             sc_meshes := meshes; sc_originals := sc_originals s;
             sc_selected := sc_selected s |}).

(** The slot list that [obj.material_slots] shows for [o]. *)
Definition slots_of (meshes : Py.dict mesh) (o : linked)
  : list (option string) :=
  default [] (mesh_materials <$> Py.get meshes (lk_data o)).

(** The selected meshes. *)
Definition selected_meshes (objs : list linked) : list linked :=
  filter (λ o, lk_type o = "MESH") objs.

(** ** [create_single_color_emission_material] *)

Definition create_single_color_emission_material (materials : list material)
    (name : string) (color : rgb) : string * list material :=
  let name := unique_name name (material_names materials) in
  let emission_node :=
    {| node_type := "EMISSION";
       node_color := (red color, green color, blue color, 1%Q);
       node_strength := 1%Q; node_image := None |} in
  let output_node := new_node "OUTPUT_MATERIAL" in
  let mat := {|
    mat_name := name; use_nodes := true;
    nodes := [emission_node; output_node];
    links := [mkLink 0 "Emission" 1 "Surface"] |} in
  (name, materials ++ [mat]).

(** ** [UnpackEmissionAtlas.execute] *)

(** The atlas image a node refers to, if it is an image texture node whose
    image carries the ["atlas_columns"] property. *)
Definition node_atlas_image (images : list image) (nd : node) : option image :=
  if decide (node_type nd = "TEX_IMAGE") then
    name ← node_image nd;
    img ← find_image images name;
    if Py.mem (img_props img) "atlas_columns" then Some img else None
  else None.

(** Step 1: the atlas image of the first slot whose material references one. *)
Definition find_atlas_image (materials : list material) (images : list image)
    (slots : list (option string)) : option image :=
  Py.first_some (λ slot : option string,
    name ← slot;
    mat ← find_material materials name;
    if use_nodes mat then Py.first_some (node_atlas_image images) (nodes mat)
    else None) slots.

(** [columns = int(atlas_image.get("atlas_columns", 1))], at least 1. *)
Definition atlas_columns (atlas_image : image) : Z :=
  let columns := default 1 (Py.get (img_props atlas_image) "atlas_columns") in
  if decide (columns < 1) then 1 else columns.

(** [center_x = int((i + 0.5) * column_width)] *)
Definition center_x (i column_width : Z) : Z :=
  Py.int_of_float ((inject_Z i + (1 # 2)) * inject_Z column_width)%Q.

(** The three channel reads at [px_index]. *)
Definition sample_rgb (pixels : list Q) (px : Z) : option rgb :=
  r ← Py.getitem pixels (px + 0);
  g ← Py.getitem pixels (px + 1);
  b ← Py.getitem pixels (px + 2);
  Some (r, g, b).

(** [f"UnpackedAtlasColor_{i}"] *)
Definition unpacked_name (i : Z) : string := "UnpackedAtlasColor_" +:+ pretty i.

(** Step 2, the loop that samples each column and makes (or reuses) its
    material: returns [new_mats] and the extended [bpy.data.materials]. *)
Definition regenerate_materials (materials : list material)
    (atlas_image : image) (columns : Z)
  : option (list string * list material) :=
  let atlas_width := (img_size atlas_image).1 in
  let atlas_height := (img_size atlas_image).2 in
  let pixels := img_pixels atlas_image in
  let column_width := atlas_width `div` columns in
  Py.for_each (Py.range columns) (λ i '(new_mats, materials),
    let cx := center_x i column_width in
    let center_y := atlas_height `div` 2 in
    let px := ((center_y * atlas_width) + cx) * 4 in
    color ← sample_rgb pixels px;
    let mat_name := unpacked_name i in
    if decide (mat_name ∈ material_names materials) then
      Some (new_mats ++ [mat_name], materials)
    else
      let '(new_mat, materials) :=
        create_single_color_emission_material materials mat_name color in
      Some (new_mats ++ [new_mat], materials)) ([], materials).

(** Step 4, the body of the face loop: which column the first loop's UV
    falls in. *)
Definition face_column (u : Q) (atlas_width columns : Z)
    (column_width_float : Q) : option Z :=
  let x_pix := (u * inject_Z atlas_width)%Q in
  let x_pix :=
    if Py.lt x_pix 0 then 0%Q
    else if Py.ge x_pix (inject_Z atlas_width) then inject_Z (atlas_width - 1)
    else x_pix in
  q ← Py.floordiv x_pix column_width_float;
  let col_index := Py.int_of_float q in
  Some (if decide (col_index < 0) then 0
        else if decide (col_index >= columns) then columns - 1
        else col_index).

Definition unpack_face (atlas_width columns : Z) (column_width_float : Q)
    (f : face) : option face :=
  match loops f with
  | [] => Some f
  | uv :: _ =>
      col_index ← face_column uv.1 atlas_width columns column_width_float;
      Some {| material_index := col_index; loops := loops f |}
  end.

(** The state threaded through the loop over the selected objects:
    [bpy.data.materials] and the local [created_material_sets]. *)
Definition unpack_state : Type := list material * Py.dict (list string).

(** The body of the loop over the selected objects. *)
Definition unpack_object (images : list image) (obj : object)
    (st : unpack_state) : option (object * unpack_state) :=
  let '(materials, created_material_sets) := st in
  if decide (obj_type obj ≠ "MESH") then Some (obj, st)
  else
    match find_atlas_image materials images (material_slots obj) with
    | None => Some (obj, st)
    | Some atlas_image =>
        let atlas_width := (img_size atlas_image).1 in
        let columns := atlas_columns atlas_image in
        '(materials, created_material_sets) ←
          (if Py.mem created_material_sets (img_name atlas_image)
           then Some (materials, created_material_sets)
           else
             '(new_mats, materials) ←
               regenerate_materials materials atlas_image columns;
             Some (materials,
                   Py.set created_material_sets (img_name atlas_image)
                     new_mats));
        new_materials ← Py.get created_material_sets (img_name atlas_image);
        let slots := [] ++ (Some <$> new_materials) in
        column_width_float ←
          Py.truediv (inject_Z atlas_width) (inject_Z columns);
        faces' ← mapM (unpack_face atlas_width columns column_width_float)
                   (faces obj);
        Some ({| obj_name := obj_name obj; obj_type := obj_type obj;
                 material_slots := slots; faces := faces' |},
              (materials, created_material_sets))
    end.

Definition UnpackEmissionAtlas_execute (w : world) : option (status * world) :=
  '(objs, (materials, _)) ←
    Py.map_for_each (unpack_object (data_images w)) (selected_objects w)
      (data_materials w, []);
  Some (FINISHED,
        {| data_materials := materials; data_images := data_images w;
           ORIGINAL_MATERIALS := ORIGINAL_MATERIALS w;
           selected_objects := objs |}).

(** The texel column a UV coordinate addresses, [x_pix = uv.x * atlas_width],
    and the texel row likewise. *)
Definition uv_pixel (uv : Q * Q) (atlas_width atlas_height : Z) : Z * Z :=
  (Qfloor (uv.1 * inject_Z atlas_width), Qfloor (uv.2 * inject_Z atlas_height)).

(** ** The UV arithmetic in binary64

    Every operation on floats gives the binary64 number nearest to the exact
    result, a tie going to the even significand. The conversion of an [int]
    raises [OverflowError] when the result would have magnitude [2^1024] or
    more. Infinities and NaN are not modelled: a product of that magnitude
    is kept as the large number it is, which the clamp of the Unpack
    operator treats as it treats an infinity. *)

Module Binary64.

Definition pow2 (e : Z) : Q := (2 ^ e)%Q.

(** [floor (log2 x)] of a positive [x]. *)
Definition exponent (x : Q) : Z :=
  let e := Z.log2 (Qnum x) - Z.log2 (Z.pos (Qden x)) in
  if Qle_bool (pow2 e) x then e else e - 1.

(** The nearest integer, a tie going to the even one. *)
Definition nearest_even (s : Q) : Z :=
  let f := Qfloor s in
  match (s - inject_Z f ?= 1 # 2)%Q with
  | Lt => f
  | Gt => f + 1
  | Eq => if Z.even f then f else f + 1
  end.

(** The nearest number [m * 2^e] with [|m| <= 2^p] and [e >= emin]: [p]
    significant bits, and gradual underflow at [emin]. *)
Definition round (p emin : Z) (x : Q) : Q :=
  if Qeq_bool x 0 then 0%Q
  else
    let e := Z.max (exponent (Qabs x) - (p - 1)) emin in
    (inject_Z (nearest_even (x / pow2 e)) * pow2 e)%Q.

(** Double precision, the [float] of Python, and single precision. *)
Definition double : Q → Q := round 53 (-1074).
Definition single : Q → Q := round 24 (-149).

(** The largest float. *)
Definition largest : Q := inject_Z (2 ^ 1024 - 2 ^ 971).

(** The conversion of an [int] operand: [OverflowError] when it is too
    large. *)
Definition float_of_int (k : Z) : option Q :=
  let x := double (inject_Z k) in
  if Qle_bool (Qabs x) largest then Some x else None.

(** [a / b] on two [int]: the float nearest to the quotient. *)
Definition truediv_int (a b : Z) : option Q :=
  if decide (b = 0) then None
  else
    let x := double (inject_Z a / inject_Z b) in
    if Qle_bool (Qabs x) largest then Some x else None.

(** [x * y] and [x + y] on floats. *)
Definition mul (x y : Q) : Q := double (x * y).
Definition add (x y : Q) : Q := double (x + y).

(** [k * x] and [x * k] for an [int] [k] and a float [x]. *)
Definition mul_int (k : Z) (x : Q) : option Q :=
  fk ← float_of_int k; Some (mul fk x).

(** [x / k] for a float [x] and an [int] [k]. *)
Definition div_int (x : Q) (k : Z) : option Q :=
  fk ← float_of_int k;
  if Qeq_bool fk 0 then None else Some (double (x / fk)).

(** [vx // wx] on floats, as the interpreter computes it: the exact
    remainder of [fmod], the rounded quotient of what is left, a step down
    when the remainder and the divisor differ in sign, and a snap to the
    nearest integer. *)
Definition floordiv (vx wx : Q) : option Q :=
  if Qeq_bool wx 0 then None
  else
    let rest := (vx - inject_Z (Py.int_of_float (vx / wx)) * wx)%Q in
    let div := double (double (vx - rest) / wx) in
    let div :=
      if negb (Qeq_bool rest 0) && xorb (Py.lt wx 0) (Py.lt rest 0)
      then double (div - 1) else div in
    if Qeq_bool div 0 then Some 0%Q
    else
      let floordiv := inject_Z (Qfloor div) in
      Some (if Py.lt (1 # 2) (div - floordiv) then (floordiv + 1)%Q
            else floordiv).

(** [column_width = atlas_width / mat_count] of [remap_uvs]. *)
Definition column_width (atlas_width mat_count : Z) : option Q :=
  truediv_int atlas_width mat_count.

(** [u_min], [u_max] and [u_center] of [remap_uvs]. *)
Definition u_center (i atlas_width : Z) (column_width : Q) : option Q :=
  u_min ← (p ← mul_int i column_width; div_int p atlas_width);
  u_max ← (p ← mul_int (i + 1) column_width; div_int p atlas_width);
  Some (mul (add u_min u_max) (1 # 2)).

(** The body of the face loop of [remap_uvs]. *)
Definition remap_face (slots : list (option string))
    (mat_index_map : Py.dict Z) (atlas_width : Z) (column_width : Q)
    (f : face) : option face :=
  if decide (material_index f < Z.of_nat (length slots)) then
    mat ← Py.getitem slots (material_index f);
    match mat with
    | Some name =>
        match Py.get mat_index_map name with
        | Some i =>
            u_center ← u_center i atlas_width column_width;
            let v_center := (1 # 2)%Q in
            Some {| material_index := material_index f;
                    loops := (λ _, (u_center, v_center)) <$> loops f |}
        | None => Some f
        end
    | None => Some f
    end
  else Some f.

(** [column_width_float = float(atlas_width) / columns] of the Unpack
    operator. *)
Definition column_width_float (atlas_width columns : Z) : option Q :=
  fw ← float_of_int atlas_width; div_int fw columns.

(** Step 4 of the Unpack operator, the body of the face loop. *)
Definition face_column (u : Q) (atlas_width columns : Z)
    (column_width_float : Q) : option Z :=
  x_pix ← mul_int atlas_width u;
  x_pix ←
    (if Py.lt x_pix 0 then Some 0%Q
     else if Py.ge x_pix (inject_Z atlas_width)
          then float_of_int (atlas_width - 1)
          else Some x_pix);
  q ← floordiv x_pix column_width_float;
  let col_index := Py.int_of_float q in
  Some (if decide (col_index < 0) then 0
        else if decide (col_index >= columns) then columns - 1
        else col_index).

Definition unpack_face (atlas_width columns : Z) (column_width_float : Q)
    (f : face) : option face :=
  match loops f with
  | [] => Some f
  | uv :: _ =>
      col_index ← face_column uv.1 atlas_width columns column_width_float;
      Some {| material_index := col_index; loops := loops f |}
  end.

(** A coordinate as a mesh can hold it: a number, an infinity or NaN. *)
Inductive float :=
  | Num (x : Q)
  | Inf (negative : bool)
  | NaN.

(** The body of the face loop on any coordinate. The product of an infinity
    and the width is an infinity, which the clamp replaces by [0] or by
    [atlas_width - 1], or NaN when the width is 0. NaN passes both
    comparisons of the clamp, [nan // column_width_float] is NaN (or raises
    [ZeroDivisionError]), and [int] raises [ValueError] on it. *)
Definition face_column_float (u : float) (atlas_width columns : Z)
    (column_width_float : Q) : option Z :=
  match u with
  | Num x => face_column x atlas_width columns column_width_float
  | Inf negative =>
      fw ← float_of_int atlas_width;
      if Qeq_bool fw 0 then None
      else
        x_pix ←
          (if xorb negative (Py.lt fw 0) then Some 0%Q
           else float_of_int (atlas_width - 1));
        q ← floordiv x_pix column_width_float;
        let col_index := Py.int_of_float q in
        Some (if decide (col_index < 0) then 0
              else if decide (col_index >= columns) then columns - 1
              else col_index)
  | NaN => None
  end.

End Binary64.

(** A face whose UV coordinates have gone through the host's storage. *)
Definition store_face (store : Q → Q) (f : face) : face :=
  {| material_index := material_index f;
     loops := (λ uv : Q * Q, (store uv.1, store uv.2)) <$> loops f |}.

(** *** Vocabulary of the error analysis *)

(** [x] and [y] are not negative and each is at most [k] times the other. *)
Definition within (k x y : Q) : Prop :=
  (0 <= x)%Q ∧ (0 <= y)%Q ∧ (x <= k * y)%Q ∧ (y <= k * x)%Q.

(** The factor of one rounding to double precision, [1 / (1 - 2^-53)], and
    of one rounding to single precision. *)
Definition rho : Q := 9007199254740992 # 9007199254740991.
Definition sigma : Q := 16777216 # 16777215.

(** A bound, [2^-100], far above the smallest normal double. *)
Definition tiny : Q := 1 # 1267650600228229401496703205376.

(** [1 + j * 2^-52], which bounds the factor of [j] roundings. *)
Definition eps (j : Z) : Q := 1 + inject_Z j * (1 # 4503599627370496).

Definition kappa : Q := sigma * eps 10.

(** ** Specification vocabulary for the pixel buffer *)

(** Channel [c] of an opaque pixel of colour [col]. *)
Definition channel (col : rgb) (c : Z) : Q :=
  if decide (c = 0) then red col
  else if decide (c = 1) then green col
  else if decide (c = 2) then blue col
  else 1%Q.

(** [buf_ok W H f buf]: [buf] is a [W] x [H] RGBA buffer whose channel [c] of
    pixel [(x, y)] is [f x y c]. *)
Definition buf_ok (W H : Z) (f : Z → Z → Z → Q) (buf : list Q) : Prop :=
  Z.of_nat (length buf) = W * H * 4 ∧
  ∀ x y c, 0 ≤ x < W → 0 ≤ y < H → 0 ≤ c < 4 →
    buf !! Z.to_nat (px_index W 0 x y + c) = Some (f x y c).

(** Colour of the [j]-th material of the dictionary, in key order. *)
Definition nth_color (material_colors : Py.dict rgb) (j : Z) : option rgb :=
  if decide (0 ≤ j) then
    name ← Py.keys material_colors !! Z.to_nat j;
    Py.get material_colors name
  else None.

(** Closed form of the atlas buffer: pixel [(x, y)] lies in column
    [x / column_width] when [x] is left of the last column's end, and is
    left at zero otherwise. *)
Definition atlas_layout (material_colors : Py.dict rgb) (W : Z)
    (x y c : Z) : Q :=
  let n := Z.of_nat (length (Py.keys material_colors)) in
  let cw := column_width W n in
  if decide (x < n * cw) then
    channel (default (0, 0, 0)%Q (nth_color material_colors (x `div` cw))) c
  else 0%Q.


(** A slot that [RevertEmissionAtlas.execute] re-adds: non-empty, and its name
    still a key of [bpy.data.materials]. *)
Definition slot_restorable (materials : list material) (slot : option string)
  : Prop :=
  match slot with
  | Some name => name ∈ material_names materials
  | None => False
  end.

Global Instance slot_restorable_dec materials slot :
  Decision (slot_restorable materials slot).
Proof. destruct slot; simpl; apply _. Defined.

(** The material built by [create_atlas_material] for the image [texture]. *)
Definition is_atlas_material (texture : string) (mat : material) : Prop :=
  use_nodes mat = true ∧
  (node_type <$> nodes mat) = ["TEX_IMAGE"; "EMISSION"; "OUTPUT_MATERIAL"] ∧
  (node_image <$> nodes mat) !! 0%nat = Some (Some texture).

(** What [RevertEmissionAtlas.execute] does to one selected object, read off
    the remembered map [originals] alone. *)
Definition reverted_from (materials : list material)
    (originals : Py.dict (list (option string))) (obj obj' : object) : Prop :=
  match Py.get originals (obj_name obj) with
  | Some mat_list =>
      if decide (obj_type obj = "MESH") then
        material_slots obj' = filter (slot_restorable materials) mat_list ∧
        obj_name obj' = obj_name obj ∧ obj_type obj' = obj_type obj ∧
        faces obj' = faces obj
      else obj' = obj
  | None => obj' = obj
  end.

(** A host image in memory: positive size and four floats per pixel. *)
Definition img_wf (img : image) : Prop :=
  0 < (img_size img).1 ∧ 0 < (img_size img).2 ∧
  Z.of_nat (length (img_pixels img))
    = (img_size img).1 * (img_size img).2 * 4.

(** The flat colour of a material, as [get_simple_emission_materials] reads
    it: the RGB default of the ["Color"] input of its first emission node. *)
Definition emission_color (mat : material) : option rgb :=
  (λ nd, rgb_of (node_color nd)) <$> first_emission_node mat.

(** The pixel that step 2 of the Unpack operator samples for column [i] of
    [columns]. *)
Definition column_sample (atlas_image : image) (columns i : Z) : option rgb :=
  let atlas_width := (img_size atlas_image).1 in
  let atlas_height := (img_size atlas_image).2 in
  sample_rgb (img_pixels atlas_image)
    (px_index atlas_width 0
       (center_x i (atlas_width `div` columns)) (atlas_height `div` 2)).

(** [created_material_sets] remembers, per atlas image name, one material per
    column of that image. *)
Definition sets_match_columns (images : list image)
    (created_material_sets : Py.dict (list string)) : Prop :=
  ∀ name mats img,
    Py.get created_material_sets name = Some mats →
    find_image images name = Some img →
    Z.of_nat (length mats) = atlas_columns img.

(** What the Unpack operator does to one selected object, when
    [bpy.data.materials] is [materials] at the time the object is visited. *)
Definition unpacked_from (materials : list material) (images : list image)
    (obj obj' : object) : Prop :=
  if decide (obj_type obj = "MESH") then
    match find_atlas_image materials images (material_slots obj) with
    | Some atlas_image =>
        let n := atlas_columns atlas_image in
        1 ≤ n ∧
        Z.of_nat (length (material_slots obj')) = n ∧
        Forall2 (λ f f',
          loops f' = loops f ∧
          (loops f = [] → f' = f) ∧
          (loops f ≠ [] → 0 ≤ material_index f' < n)) (faces obj) (faces obj')
    | None => obj' = obj
    end
  else obj' = obj.

(** The invariant of the column loop of step 2, after [k] columns. *)
Definition regenerated (materials : list material) (atlas_image : image)
    (columns : Z) (k : Z) (st : list string * list material) : Prop :=
  st.1 = unpacked_name <$> Py.range k ∧
  (∀ name m, find_material materials name = Some m →
     find_material st.2 name = Some m) ∧
  (∀ name, name ∈ material_names st.2 →
     name ∈ material_names materials ∨ ∃ j, 0 ≤ j < k ∧ name = unpacked_name j) ∧
  (∀ j, 0 ≤ j < k → unpacked_name j ∉ material_names materials →
     ∃ m color,
       find_material st.2 (unpacked_name j) = Some m ∧
       emission_color m = Some color ∧
       column_sample atlas_image columns j = Some color).

(** A material that [get_simple_emission_materials] takes: it uses nodes and
    one of its nodes has the type ['EMISSION']. *)
Definition has_emission (mat : material) : Prop :=
  use_nodes mat = true ∧ is_Some (first_emission_node mat).

Global Instance has_emission_dec mat : Decision (has_emission mat).
Proof. unfold has_emission. apply _. Defined.

(** The dictionary entry of a material that is taken. *)
Definition emission_entry (mat : material) : option (string * rgb) :=
  if use_nodes mat then (λ c, (mat_name mat, c)) <$> emission_color mat
  else None.

(** ** Example scenes *)

Definition flat_emission (name : string) (color : rgb) : material :=
  {| mat_name := name; use_nodes := true;
     nodes := [ {| node_type := "EMISSION";
                   node_color := (red color, green color, blue color, 1%Q);
                   node_strength := 1%Q; node_image := None |};
                new_node "OUTPUT_MATERIAL" ];
     links := [mkLink 0 "Emission" 1 "Surface"] |}.

Definition triangle (slot : Z) : face :=
  {| material_index := slot; loops := [(0, 0)%Q; (1, 0)%Q; (0, 1)%Q] |}.

(** Two emission materials on a cube, and a selected lamp. *)
Definition two_color_scene : world :=
  {| data_materials :=
       [flat_emission "Red" (1, 0, 0)%Q; flat_emission "Green" (0, 1, 0)%Q];
     data_images := [];
     ORIGINAL_MATERIALS := [("Stale", [Some "Red"])];
     selected_objects :=
       [ {| obj_name := "Cube"; obj_type := "MESH";
            material_slots := [Some "Red"; Some "Green"];
            faces := [triangle 0; triangle 1] |};
         {| obj_name := "Lamp"; obj_type := "LIGHT";
            material_slots := []; faces := [] |} ] |}.

(** A two-column atlas image (red, green), two pixels wide and one high. *)
Definition two_column_atlas : image :=
  {| img_name := "Emission_Atlas"; img_size := (2, 1);
     img_pixels := [1; 0; 0; 1; 0; 1; 0; 1]%Q;
     img_filepath_raw := "//Emission_Atlas.png"; img_file_format := "PNG";
     img_props := [("atlas_columns", 2)] |}.

(** A cube that carries the atlas material, in a file where a material named
    [UnpackedAtlasColor_0] already exists and is blue. *)
Definition stale_unpack_scene : world :=
  {| data_materials :=
       (create_atlas_material [] two_column_atlas).2
       ++ [flat_emission "UnpackedAtlasColor_0" (0, 0, 1)%Q];
     data_images := [two_column_atlas];
     ORIGINAL_MATERIALS := [];
     selected_objects :=
       [ {| obj_name := "Cube"; obj_type := "MESH";
            material_slots := [Some "AtlasMaterial"];
            faces := [ {| material_index := 0;
                          loops := [(1 # 4, 1 # 2)%Q; (1 # 4, 1 # 2)%Q;
                                    (1 # 4, 1 # 2)%Q] |} ] |} ] |}.

(** The cube and the lamp of [two_color_scene] with the cube's mesh in the
    store, and the same with a second cube linked to the same mesh. *)
Definition cube_mesh : mesh :=
  {| mesh_materials := [Some "Red"; Some "Green"]%string;
     mesh_faces := [triangle 0; triangle 1] |}.

Definition linked_scene : scene :=
  {| sc_materials :=
       [flat_emission "Red" (1, 0, 0)%Q; flat_emission "Green" (0, 1, 0)%Q];
     sc_images := [];
     sc_meshes := [("Cube"%string, cube_mesh)];
     sc_originals := [("Stale"%string, [Some "Red"%string])];
     sc_selected :=
       [ mkLinked "Cube" "MESH" "Cube"; mkLinked "Lamp" "LIGHT" "Lamp" ] |}.


(** Twenty-five emission materials of distinct colours on one strip, whose
    single face uses material number 21. The names, [Shade00] to [Shade24],
    are in alphabetical order. *)
Definition shade (k : Z) : rgb := (k # 32, 0, 0)%Q.

Definition shade_name (k : Z) : string :=
  "Shade" +:+ (if decide (k < 10) then "0" else "") +:+ pretty k.

Definition shades_scene : world :=
  {| data_materials := (λ k, flat_emission (shade_name k) (shade k)) <$> seqZ 0 25;
     data_images := [];
     ORIGINAL_MATERIALS := [];
     selected_objects :=
       [ {| obj_name := "Strip"; obj_type := "MESH";
            material_slots := (λ k, Some (shade_name k)) <$> seqZ 0 25;
            faces := [triangle 21] |} ] |}.

(** A file with a second emission material that no object uses. *)
Definition spare_material_scene : world :=
  {| data_materials :=
       [flat_emission "Red" (1, 0, 0)%Q; flat_emission "Spare" (0, 0, 1)%Q];
     data_images := [];
     ORIGINAL_MATERIALS := [];
     selected_objects :=
       [ {| obj_name := "Cube"; obj_type := "MESH";
            material_slots := [Some "Red"];
            faces := [triangle 0] |} ] |}.

(** Three materials on an atlas that is only two pixels wide. *)
Definition three_colors : Py.dict rgb :=
  [("Red"%string, (1, 0, 0)%Q); ("Green"%string, (0, 1, 0)%Q);
   ("Blue"%string, (0, 0, 1)%Q)].

(** ** [package_release.py] *)

Module Release.

Definition SCRIPT_FILE : string := "emission_atlas.py".
Definition OUTPUT_FOLDER : string := "emission_atlas".

(** *** Strings *)

(** [s.split(sep)] for a one-character separator. *)
Fixpoint split (sep : ascii) (s : string) : list string :=
  match s with
  | EmptyString => [EmptyString]
  | String c s' =>
      if decide (c = sep) then EmptyString :: split sep s'
      else match split sep s' with
           | [] => [String c EmptyString]
           | part :: parts => String c part :: parts
           end
  end.

(** The rest of [s] after the prefix [p]; [s.startswith(p)] is whether there
    is one. *)
Fixpoint strip_prefix (p s : string) : option string :=
  match p, s with
  | EmptyString, _ => Some s
  | String a p', String b s' =>
      if decide (a = b) then strip_prefix p' s' else None
  | String _ _, EmptyString => None
  end.

Definition startswith (s p : string) : bool :=
  match strip_prefix p s with Some _ => true | None => false end.

(** *** The regular expression of the [bl_info] search: the word [bl_info],
    an equals sign and an opening brace with optional white space between
    them, then group 1, the text up to the first closing brace.

    A text is the string of its UTF-8 bytes. An ASCII character is one byte
    and no byte of a longer character is an ASCII byte, so looking for ASCII
    characters in the bytes is looking for them in the text. *)

(** The white space of a [str] pattern below U+0080: tab to carriage return,
    the four separators U+001C to U+001F, and the space. *)
Definition is_space (c : ascii) : bool :=
  bool_decide (c ∈ [" "; "009"; "010"; "011"; "012"; "013";
                     "028"; "029"; "030"; "031"]%char).

(** The white space of two bytes: U+0085 and U+00A0. *)
Definition is_space2 (c1 c2 : ascii) : bool :=
  bool_decide (c1 = "194"%char ∧ c2 ∈ ["133"; "160"]%char).

(** The white space of three bytes: U+1680, U+2000 to U+200A, U+2028,
    U+2029, U+202F, U+205F and U+3000. *)
Definition is_space3 (c1 c2 c3 : ascii) : bool :=
  bool_decide
    ((c1 = "225" ∧ c2 = "154" ∧ c3 = "128")%char ∨
     (c1 = "226" ∧ c2 = "128" ∧
      c3 ∈ ["128"; "129"; "130"; "131"; "132"; "133"; "134"; "135"; "136";
            "137"; "138"; "168"; "169"; "175"])%char ∨
     (c1 = "226" ∧ c2 = "129" ∧ c3 = "159")%char ∨
     (c1 = "227" ∧ c2 = "128" ∧ c3 = "128")%char).

(** The text after its leading white space. *)
Fixpoint skip_spaces (s : string) : string :=
  match s with
  | EmptyString => s
  | String c1 s1 =>
      if is_space c1 then skip_spaces s1
      else
        match s1 with
        | EmptyString => s
        | String c2 s2 =>
            if is_space2 c1 c2 then skip_spaces s2
            else
              match s2 with
              | EmptyString => s
              | String c3 s3 =>
                  if is_space3 c1 c2 c3 then skip_spaces s3 else s
              end
        end
  end.

(** Group 1 and the brace that ends it: the text before the first closing
    brace. *)
Fixpoint until_brace (s : string) : option string :=
  match s with
  | EmptyString => None
  | String c s' =>
      if decide (c = "}"%char) then Some EmptyString
      else String c <$> until_brace s'
  end.

(** A match that starts at the head of [s]; group 1 is returned. *)
Definition match_here (s : string) : option string :=
  s ← strip_prefix "bl_info" s;
  s ← strip_prefix "=" (skip_spaces s);
  s ← strip_prefix "{" (skip_spaces s);
  until_brace s.

(** [re.search]: the leftmost position with a match. *)
Fixpoint bl_info_search (s : string) : option string :=
  match match_here s with
  | Some group => Some group
  | None =>
      match s with
      | EmptyString => None
      | String _ s' => bl_info_search s'
      end
  end.

(** *** The file system: the working directory *)

(** A regular file with its text, a zip archive with its members (archive
    name and file), or a directory with its entries. *)
#[local] Set Warnings "-register-all".
Inductive entry :=
  | File (content : string)
  | Archive (members : list (string * entry))
  | Dir (children : list (string * entry)).
#[local] Set Warnings "register-all".

Definition is_dir (e : entry) : bool :=
  match e with Dir _ => true | _ => false end.

(** [os.path.exists(name)] *)
Definition exists_ (fs : Py.dict entry) (name : string) : bool :=
  Py.mem fs name.

(** Decoding a file opened with [encoding='utf-8']. *)
Definition octet (c : ascii) : N := N_of_ascii c.

Definition continuation (b : N) : bool := ((128 <=? b) && (b <=? 191))%N.

Definition head3_ok (b1 b2 : N) : bool :=
  ((b1 =? 224) && (160 <=? b2) && (b2 <=? 191)
   || (225 <=? b1) && (b1 <=? 236) && continuation b2
   || (b1 =? 237) && (128 <=? b2) && (b2 <=? 159)
   || (238 <=? b1) && (b1 <=? 239) && continuation b2)%N.

Definition head4_ok (b1 b2 : N) : bool :=
  ((b1 =? 240) && (144 <=? b2) && (b2 <=? 191)
   || (241 <=? b1) && (b1 <=? 243) && continuation b2
   || (b1 =? 244) && (128 <=? b2) && (b2 <=? 143))%N.

(** Well-formed UTF-8: no stray or missing continuation byte, no overlong
    form, no surrogate, nothing above U+10FFFF. *)
Fixpoint utf8_valid (s : string) : bool :=
  match s with
  | EmptyString => true
  | String c1 s1 =>
      if (octet c1 <? 128)%N then utf8_valid s1
      else
        match s1 with
        | EmptyString => false
        | String c2 s2 =>
            if ((194 <=? octet c1) && (octet c1 <=? 223))%N then
              continuation (octet c2) && utf8_valid s2
            else
              match s2 with
              | EmptyString => false
              | String c3 s3 =>
                  if head3_ok (octet c1) (octet c2) then
                    continuation (octet c3) && utf8_valid s3
                  else
                    match s3 with
                    | EmptyString => false
                    | String c4 s4 =>
                        head4_ok (octet c1) (octet c2)
                        && continuation (octet c3) && continuation (octet c4)
                        && utf8_valid s4
                    end
              end
        end
  end.

(** Text mode reads every line ending, [\r\n] or [\r], as [\n]. *)
Fixpoint universal_newlines (s : string) : string :=
  match s with
  | EmptyString => EmptyString
  | String c1 s1 =>
      if decide (c1 = "013"%char) then
        match s1 with
        | String c2 s2 =>
            if decide (c2 = "010"%char)
            then String "010" (universal_newlines s2)
            else String "010" (universal_newlines s1)
        | EmptyString => String "010" EmptyString
        end
      else String c1 (universal_newlines s1)
  end.

(** [open(name, 'r', encoding='utf-8').read()]: the file must be there, be a
    regular file, and hold well-formed UTF-8 ([UnicodeDecodeError]
    otherwise). *)
Definition read (fs : Py.dict entry) (name : string) : option string :=
  match Py.get fs name with
  | Some (File content) =>
      if utf8_valid content then Some (universal_newlines content) else None
  | _ => None
  end.

(** [shutil.rmtree(name)]: [name] must be a directory. *)
Definition rmtree (fs : Py.dict entry) (name : string)
  : option (Py.dict entry) :=
  match Py.get fs name with
  | Some (Dir _) => Some (Py.remove fs name)
  | _ => None
  end.

(** [os.mkdir(name)]: [name] must not exist. *)
Definition mkdir (fs : Py.dict entry) (name : string)
  : option (Py.dict entry) :=
  if exists_ fs name then None else Some (Py.set fs name (Dir [])).

(** [shutil.copy(src, dst)]: [src] must be a file; when [dst] is a directory
    the copy is placed inside it under the same name, otherwise it becomes
    the file [dst]. *)
Definition copy (fs : Py.dict entry) (src dst : string)
  : option (Py.dict entry) :=
  e ← Py.get fs src;
  if is_dir e then None
  else
    match Py.get fs dst with
    | Some (Dir children) =>
        match Py.get children src with
        | Some (Dir _) => None
        | _ => Some (Py.set fs dst (Dir (Py.set children src e)))
        end
    | _ => Some (Py.set fs dst e)
    end.

(** [os.path.join(root, name)] relative to the walked folder. *)
Definition join_path (rel name : string) : string :=
  if decide (rel = "") then name else rel +:+ "/" +:+ name.

(** The files that the loops over [os.walk(folder)] visit, top down, each with
    its path relative to [folder]. *)
Fixpoint walk (rel : string) (e : entry) : list (string * entry) :=
  match e with
  | Dir children =>
      omap (λ '(name, e'),
              if is_dir e' then None else Some (join_path rel name, e'))
           children
      ++ (fix subfolders (l : list (string * entry)) : list (string * entry) :=
            match l with
            | [] => []
            | (name, e') :: l' =>
                match e' with
                | Dir _ => walk (join_path rel name) e'
                | _ => []
                end ++ subfolders l'
            end) children
  | _ => []
  end.

(** Creating the file at [path] (its components, split at ["/"]) with the
    content [new]: the folders on the way must exist, and the last component
    must not be a directory. *)
Fixpoint write_at (path : list string) (new : entry) (fs : Py.dict entry)
  : option (Py.dict entry) :=
  match path with
  | [] => None
  | [name] =>
      match Py.get fs name with
      | Some (Dir _) => None
      | _ => Some (Py.set fs name new)
      end
  | folder :: rest =>
      match Py.get fs folder with
      | Some (Dir children) =>
          children ← write_at rest new children;
          Some (Py.set fs folder (Dir children))
      | _ => None
      end
  end.

(** The [with zipfile.ZipFile(name, 'w')] block of [main]. *)
Definition write_zip (fs : Py.dict entry) (zip_file_name folder : string)
  : option (Py.dict entry) :=
  e ← Py.get fs folder;
  write_at (split "/" zip_file_name) (Archive (walk "" e)) fs.

(** What the script can see of the value that [ast.literal_eval] builds from
    a display in braces. Its only use of the value is
    [".".join(map(str, value.get(key, (0, 0, 0))))], so a dict is known by
    its entries with a [str] key, and an entry by what [map(str, .)] makes of
    it: [None] when the entry is not iterable ([TypeError]), and otherwise
    the [str] of each of its items (for a string, its characters). A display
    in braces that is not a dict is a set, which has no [get]. *)
Inductive literal :=
  | Dict (entries : Py.dict (option (list string)))
  | NotDict.

(** How a call of [ast.literal_eval] ends: with [SyntaxError] or
    [ValueError], which the script catches; with another exception, which it
    does not; or with a value. *)
Inductive evaluation :=
  | Caught
  | Raised
  | Value (v : literal).

Section script.

(** [ast.literal_eval] on the text of a display. *)
Variable literal_eval : string → evaluation.

(** [int(s)] on a string: [None] when it raises [ValueError]. *)
Variable py_int : string → option Z.

(** The shared body of [get_blender_version] and [get_version]; the outer
    [None] is an exception that leaves the function, the inner one the
    returned [None]. *)
Definition get_bl_info (key : string) (fs : Py.dict entry)
    (file_path : string) : option (option string) :=
  content ← read fs file_path;
  match bl_info_search content with
  | Some group =>
      match literal_eval ("{" +:+ group +:+ "}") with
      | Value (Dict bl_info_dict) =>
          items ← default (Some ["0"; "0"; "0"]%string)
                    (Py.get bl_info_dict key);
          Some (Some (String.concat "." items))
      | Value NotDict => None
      | Raised => None
      | Caught => Some None
      end
  | None => Some None
  end.

Definition get_blender_version := get_bl_info "blender".
Definition get_version := get_bl_info "version".

Definition increment_version (version : option string) : option string :=
  match version with
  | None => Some "0.0.1"%string
  | Some version =>
      let parts := split "." version in
      last ← Py.getitem parts (-1);
      n ← py_int last;
      parts ← Py.setitem parts (-1) (pretty (n + 1));
      Some (String.concat "." parts)
  end.

(** The parsed command line: [as_zip], [target_blender], [version]. *)
Definition parse_args (argv : list string)
  : option (bool * option string * option string) :=
  Py.for_each argv (λ arg '(as_zip, target_blender, version),
    if decide (arg = "--as-zip") then Some (true, target_blender, version)
    else if startswith arg "--target-blender=" then
      v ← Py.getitem (split "=" arg) 1; Some (as_zip, Some v, version)
    else if startswith arg "--version=" then
      v ← Py.getitem (split "=" arg) 1; Some (as_zip, target_blender, Some v)
    else Some (as_zip, target_blender, version))
    (false, None, None).

Definition zip_file_name (version target_blender : string) : string :=
  "emission_atlas_" +:+ version +:+ "_blender_" +:+ target_blender +:+ ".zip".

(** The staging folder with the copied files (lines 88 to 99). *)
Definition stage (fs : Py.dict entry) : option (Py.dict entry) :=
  fs ← (if exists_ fs OUTPUT_FOLDER then rmtree fs OUTPUT_FOLDER else Some fs);
  fs ← mkdir fs OUTPUT_FOLDER;
  fs ← copy fs SCRIPT_FILE OUTPUT_FOLDER;
  fs ← (if exists_ fs "LICENSE" then copy fs "LICENSE" OUTPUT_FOLDER
        else Some fs);
  if exists_ fs "README.md" then copy fs "README.md" OUTPUT_FOLDER
  else Some fs.

(** [main()], on the arguments [sys.argv[1:]]: the new working directory and
    the printed lines. *)
Definition main (argv : list string) (fs : Py.dict entry)
  : option (Py.dict entry * list string) :=
  '(as_zip, target_blender, version) ← parse_args argv;
  target_blender ←
    match target_blender with
    | Some t => Some (Some t)
    | None => get_blender_version fs SCRIPT_FILE
    end;
  match target_blender with
  | None =>
      Some (fs, ["Error: Could not determine target Blender version from emission_atlas.py"%string])
  | Some target_blender =>
      version ←
        match version with
        | Some v => Some v
        | None => v ← get_version fs SCRIPT_FILE; increment_version v
        end;
      let zip_file_name := zip_file_name version target_blender in
      fs ← stage fs;
      if (as_zip : bool) then
        fs ← write_zip fs zip_file_name OUTPUT_FOLDER;
        fs ← rmtree fs OUTPUT_FOLDER;
        Some (fs, ["✅ Build complete: " +:+ zip_file_name])
      else
        Some (fs, ["✅ Build complete: Folder '" +:+ OUTPUT_FOLDER
                   +:+ "' created"])
  end.

(** The version and target that a run settles on, when it gets that far
    (lines 66 to 83). *)
Definition settled (argv : list string) (fs : Py.dict entry)
  : option (string * string) :=
  '(as_zip, target_blender, version) ← parse_args argv;
  target_blender ←
    match target_blender with
    | Some t => Some (Some t)
    | None => get_blender_version fs SCRIPT_FILE
    end;
  target_blender ← target_blender;
  version ←
    match version with
    | Some v => Some v
    | None => v ← get_version fs SCRIPT_FILE; increment_version v
    end;
  Some (version, target_blender).

End script.

(** A decimal reading of [int(s)], for examples. *)
Definition digit_value (c : ascii) : option Z :=
  let n := Z.of_nat (nat_of_ascii c) in
  if decide (48 ≤ n ≤ 57) then Some (n - 48) else None.

Fixpoint decimal (acc : Z) (s : string) : option Z :=
  match s with
  | EmptyString => Some acc
  | String c s' => d ← digit_value c; decimal (acc * 10 + d) s'
  end.

Definition int_of_digits (s : string) : option Z :=
  if decide (s = "") then None else decimal 0 s.

(** [ast.literal_eval] on texts that are not Python expressions: every call
    ends in [SyntaxError]. For add-ons without [bl_info], on which it is
    never called, and for displays that do not parse. *)
Definition no_literal (s : string) : evaluation := Caught.

(** Every character of [s] satisfies [p]. *)
Fixpoint all_chars (p : ascii → bool) (s : string) : bool :=
  match s with
  | EmptyString => true
  | String c s' => p c && all_chars p s'
  end.

(** A text that is white space and nothing else. *)
Definition white_space (ws : string) : Prop := skip_spaces ws = EmptyString.

(** A name without path separator, a file of the working directory. *)
Definition plain_name (name : string) : Prop := split "/" name = [name].

(** A name that is free or bound to a file, and one that is free or bound to
    a directory. *)
Definition file_or_absent (fs : Py.dict entry) (name : string) : Prop :=
  match Py.get fs name with Some e => is_dir e = false | None => True end.

Definition folder_or_absent (fs : Py.dict entry) (name : string) : Prop :=
  match Py.get fs name with Some e => is_dir e = true | None => True end.

(** The file bound to [name], if there is one. *)
Definition file_at (fs : Py.dict entry) (name : string)
  : list (string * entry) :=
  match Py.get fs name with
  | Some e => if is_dir e then [] else [(name, e)]
  | None => []
  end.

(** Two working directories that agree everywhere but at [names]. *)
Definition same_but (names : list string) (fs fs' : Py.dict entry) : Prop :=
  ∀ k, k ∉ names → Py.get fs' k = Py.get fs k.

(** A project folder: the add-on with its [bl_info], a licence, and a stale
    staging folder left by an earlier build. *)
Definition addon_text : string :=
  "bl_info = { 'blender': (4, 1, 1), 'version': (1, 3), }".

Definition project : Py.dict entry :=
  [ ("emission_atlas.py"%string, File addon_text);
    ("LICENSE"%string, File "MIT");
    ("emission_atlas"%string, Dir [("stale.txt"%string, File "old")]) ].

(** The reading of [addon_text]'s dict display. *)
Definition addon_literal (s : string) : evaluation :=
  if decide (s = "{ 'blender': (4, 1, 1), 'version': (1, 3), }")
  then Value (Dict [("blender"%string, Some ["4"; "1"; "1"]%string);
                    ("version"%string, Some ["1"; "3"]%string)])
  else Caught.

(** A project folder whose add-on has no [bl_info] at all. *)
Definition plain_project : Py.dict entry :=
  [ ("emission_atlas.py"%string, File "import bpy");
    ("LICENSE"%string, File "MIT") ].

(** An add-on whose [bl_info] display does not parse ([SyntaxError]). *)
Definition broken_project : Py.dict entry :=
  [ ("emission_atlas.py"%string, File "bl_info = { 'blender': }") ].

(** An add-on whose [bl_info] names the target but no version, one whose
    version is the empty tuple, and their reader. *)
Definition bare_text : string := "bl_info = { 'blender': (4, 1, 1), }".

Definition empty_version_text : string :=
  "bl_info = { 'blender': (4, 1, 1), 'version': (), }".

Definition bare_literal (s : string) : evaluation :=
  if decide (s = "{ 'blender': (4, 1, 1), }")
  then Value (Dict [("blender"%string, Some ["4"; "1"; "1"]%string)])
  else if decide (s = "{ 'blender': (4, 1, 1), 'version': (), }")
  then Value (Dict [("blender"%string, Some ["4"; "1"; "1"]%string);
                    ("version"%string, Some [])])
  else Caught.

Definition bare_project : Py.dict entry :=
  [ ("emission_atlas.py"%string, File bare_text) ].

Definition empty_version_project : Py.dict entry :=
  [ ("emission_atlas.py"%string, File empty_version_text) ].

End Release.

(** * Properties of the add-on and of the packaging script *)

(** ** Loop invariants for the pixel buffer *)

Section for_each.
Context {X S : Type}.

Lemma for_each_inv (P : nat → S → Prop) (xs : list X)
    (body : X → S → option S) (s : S) :
  P 0%nat s →
  (∀ k x s, xs !! k = Some x → P k s →
     ∃ s', body x s = Some s' ∧ P (Datatypes.S k) s') →
  ∃ s', Py.for_each xs body s = Some s' ∧ P (length xs) s'.
Proof.
  revert P s. induction xs as [|x xs IH]; intros P s H0 Hstep; simpl.
  - eauto.
  - destruct (Hstep 0%nat x s eq_refl H0) as (s1 & -> & H1). simpl.
    apply (IH (λ k, P (Datatypes.S k))); [done|].
    intros k y s2 Hk HP. apply (Hstep (Datatypes.S k)); done.
Qed.

Lemma for_each_post (P : nat → S → Prop) (xs : list X)
    (body : X → S → option S) (s s' : S) :
  P 0%nat s →
  (∀ k x s s1, xs !! k = Some x → P k s → body x s = Some s1 →
     P (Datatypes.S k) s1) →
  Py.for_each xs body s = Some s' → P (length xs) s'.
Proof.
  revert P s. induction xs as [|x xs IH]; intros P s H0 Hstep; simpl.
  - by intros [= <-].
  - destruct (body x s) as [s1|] eqn:Hbody; [|done]. simpl. intros Hrest.
    apply (IH (λ k, P (Datatypes.S k)) s1); [by eapply Hstep| |done].
    intros k y s2 s3 Hk HP Hy. by apply (Hstep (Datatypes.S k) y s2).
Qed.
End for_each.

Lemma norm_index_nonneg (len k : Z) :
  0 ≤ k < len → Py.norm_index len k = Some (Z.to_nat k).
Proof. intros. unfold Py.norm_index. by rewrite decide_True. Qed.

Lemma getitem_nonneg {A} (l : list A) (k : Z) :
  0 ≤ k < Z.of_nat (length l) → Py.getitem l k = l !! Z.to_nat k.
Proof. intros. unfold Py.getitem. by rewrite norm_index_nonneg. Qed.

Lemma setitem_nonneg {A} (l : list A) (k : Z) (v : A) :
  0 ≤ k < Z.of_nat (length l) →
  Py.setitem l k v = Some (<[Z.to_nat k := v]> l).
Proof. intros. unfold Py.setitem. by rewrite norm_index_nonneg. Qed.

Lemma px_index_inj (W x y c x' y' c' : Z) :
  0 ≤ x < W → 0 ≤ x' < W → 0 ≤ y → 0 ≤ y' → 0 ≤ c < 4 → 0 ≤ c' < 4 →
  px_index W 0 x y + c = px_index W 0 x' y' + c' →
  x = x' ∧ y = y' ∧ c = c'.
Proof.
  unfold px_index. intros Hx Hx' Hy Hy' Hc Hc' Heq.
  assert (c = c') as -> by lia.
  assert (y * W + x = y' * W + x') as Hxy by lia.
  assert (y = y') as -> by nia.
  lia.
Qed.

Lemma px_index_bound (W H x y c : Z) :
  0 ≤ x < W → 0 ≤ y < H → 0 ≤ c < 4 →
  0 ≤ px_index W 0 x y + c < W * H * 4.
Proof. unfold px_index. intros. nia. Qed.

Lemma buf_ok_ext (W H : Z) (f g : Z → Z → Z → Q) (buf : list Q) :
  (∀ x y c, 0 ≤ x < W → 0 ≤ y < H → 0 ≤ c < 4 → f x y c = g x y c) →
  buf_ok W H f buf → buf_ok W H g buf.
Proof.
  intros Hfg [Hlen Hf]. split; [done|]. intros x y c ???.
  rewrite Hf by done. f_equal. by apply Hfg.
Qed.

Lemma setitem_ok (W H : Z) f buf (x0 y0 c0 : Z) (v : Q) :
  buf_ok W H f buf → 0 ≤ x0 < W → 0 ≤ y0 < H → 0 ≤ c0 < 4 →
  ∃ buf', Py.setitem buf (px_index W 0 x0 y0 + c0) v = Some buf' ∧
    buf_ok W H (λ x y c,
      if decide (x = x0 ∧ y = y0 ∧ c = c0) then v else f x y c) buf'.
Proof.
  intros [Hlen Hf] Hx0 Hy0 Hc0.
  pose proof (px_index_bound W H x0 y0 c0 Hx0 Hy0 Hc0) as Hb.
  eexists. split; [apply setitem_nonneg; lia|].
  split; [by rewrite length_insert|].
  intros x y c Hx Hy Hc. case_decide as Hd.
  - destruct Hd as (-> & -> & ->). apply list_lookup_insert_eq. lia.
  - rewrite list_lookup_insert_ne; [by apply Hf|].
    intros Heq. apply Hd.
    pose proof (px_index_bound W H x y c Hx Hy Hc).
    destruct (px_index_inj W x0 y0 c0 x y c) as (? & ? & ?); [lia..|done].
Qed.

Lemma fill_pixel_ok (W H : Z) f buf (x0 y0 : Z) (color : rgb) :
  buf_ok W H f buf → 0 ≤ x0 < W → 0 ≤ y0 < H →
  ∃ buf', fill_pixel (px_index W 0 x0 y0) color buf = Some buf' ∧
    buf_ok W H (λ x y c,
      if decide (x = x0 ∧ y = y0) then channel color c else f x y c) buf'.
Proof.
  intros Hok Hx0 Hy0. unfold fill_pixel.
  destruct (setitem_ok W H _ _ x0 y0 0 (red color) Hok) as (b1 & -> & H1);
    [lia..|]. simpl.
  destruct (setitem_ok W H _ _ x0 y0 1 (green color) H1) as (b2 & -> & H2);
    [lia..|]. simpl.
  destruct (setitem_ok W H _ _ x0 y0 2 (blue color) H2) as (b3 & -> & H3);
    [lia..|]. simpl.
  destruct (setitem_ok W H _ _ x0 y0 3 1%Q H3) as (b4 & -> & H4); [lia..|].
  eexists. split; [done|]. eapply buf_ok_ext; [|exact H4].
  intros x y c Hx Hy Hc. simpl. unfold channel.
  repeat case_decide; try done; try lia; naive_solver lia.
Qed.

Lemma range_lookup (n : Z) (k : nat) (x : Z) :
  Py.range n !! k = Some x → x = Z.of_nat k ∧ Z.of_nat k < n.
Proof. unfold Py.range. rewrite lookup_seqZ. lia. Qed.

Lemma range_length (n : Z) : length (Py.range n) = Z.to_nat n.
Proof. apply length_seqZ. Qed.

Lemma enumerate_lookup {A} (l : list A) (k : nat) (i : Z) (a : A) :
  Py.enumerate l !! k = Some (i, a) → i = Z.of_nat k ∧ l !! k = Some a.
Proof.
  unfold Py.enumerate. rewrite lookup_zip_with.
  destruct (seqZ _ _ !! k) as [j|] eqn:Hj; [|done].
  destruct (l !! k) as [b|] eqn:Hb; [|done]. simpl.
  intros [= <- <-]. apply lookup_seqZ in Hj. split; [lia|done].
Qed.

Lemma enumerate_length {A} (l : list A) :
  length (Py.enumerate l) = length l.
Proof.
  unfold Py.enumerate. rewrite length_zip_with, length_seqZ. lia.
Qed.

Lemma dict_get_key {V} (d : Py.dict V) (k : nat) (name : string) :
  Py.keys d !! k = Some name → is_Some (Py.get d name).
Proof.
  unfold Py.keys. revert k. induction d as [|[k' v] d IH]; intros k; [done|].
  simpl. case_decide; [eauto|]. destruct k as [|k]; simpl.
  - intros [= ?]. done.
  - apply IH.
Qed.

(** Filling column [i] of width [cw], on a buffer described by [f]. *)
Lemma fill_column_ok (W H cw i : Z) (color : rgb) f buf :
  buf_ok W H f buf → 0 ≤ i → 0 ≤ H → (i + 1) * cw ≤ W →
  ∃ buf', fill_column W H cw i color buf = Some buf' ∧
    buf_ok W H (λ x y c,
      if decide (i * cw ≤ x < (i + 1) * cw) then channel color c
      else f x y c) buf'.
Proof.
  intros Hok Hi HH Hcw. unfold fill_column.
  destruct (for_each_inv
    (λ k, buf_ok W H (λ x y c,
       if decide (i * cw ≤ x < i * cw + Z.of_nat k) then channel color c
       else f x y c))
    (Py.range cw)
    (λ x pixels, Py.for_each (Py.range H) (λ y pixels,
       fill_pixel (px_index W (i * cw) x y) color pixels) pixels) buf)
    as (buf' & Hrun & Hpost).
  - eapply buf_ok_ext; [|exact Hok]. intros. by rewrite decide_False by lia.
  - intros k x s Hk Hs. apply range_lookup in Hk as [-> Hk].
    destruct (for_each_inv
      (λ j, buf_ok W H (λ x y c,
         if decide (i * cw ≤ x < i * cw + Z.of_nat k ∨
                    (x = i * cw + Z.of_nat k ∧ y < Z.of_nat j))
         then channel color c else f x y c))
      (Py.range H)
      (λ y pixels,
         fill_pixel (px_index W (i * cw) (Z.of_nat k) y) color pixels) s)
      as (s' & Hrun' & Hpost').
    + eapply buf_ok_ext; [|exact Hs]. intros. simpl.
      repeat case_decide; try done; lia.
    + intros j y s1 Hj Hs1. apply range_lookup in Hj as [-> Hj].
      destruct (fill_pixel_ok W H _ s1 (i * cw + Z.of_nat k) (Z.of_nat j)
        color Hs1) as (s2 & Hs2 & Hok2); [nia|lia|].
      exists s2. split; [exact Hs2|].
      eapply buf_ok_ext; [|exact Hok2]. intros. simpl.
      repeat case_decide; try done; lia.
    + exists s'. split; [exact Hrun'|].
      eapply buf_ok_ext; [|exact Hpost']. intros x y c Hx Hy Hc. simpl.
      rewrite range_length. repeat case_decide; try done; lia.
  - exists buf'. split; [exact Hrun|].
    eapply buf_ok_ext; [|exact Hpost]. intros x y c Hx Hy Hc. simpl.
    rewrite range_length. repeat case_decide; try done; nia.
Qed.

Lemma fill_column_noop (W H cw i : Z) (color : rgb) (buf : list Q) :
  cw ≤ 0 ∨ H ≤ 0 → fill_column W H cw i color buf = Some buf.
Proof.
  intros Hempty. unfold fill_column.
  destruct (for_each_inv (λ _ s, s = buf) (Py.range cw)
    (λ x pixels, Py.for_each (Py.range H) (λ y pixels,
       fill_pixel (px_index W (i * cw) x y) color pixels) pixels) buf)
    as (buf' & -> & ->); [done| |done].
  intros k x s Hk ->. apply range_lookup in Hk as [-> Hk].
  destruct Hempty as [?|HH]; [lia|].
  exists buf. split; [|done].
  destruct (Py.range H) as [|y ys] eqn:Hr; [done|].
  pose proof (range_length H) as Hlen. rewrite Hr in Hlen. simpl in Hlen. lia.
Qed.

Lemma atlas_pixels_ok (material_colors : Py.dict rgb) (W H : Z) :
  0 < column_width W (Z.of_nat (length (Py.keys material_colors))) →
  0 < H →
  ∃ buf, atlas_pixels material_colors W H = Some buf ∧
    buf_ok W H (atlas_layout material_colors W) buf.
Proof.
  intros Hcw HH. unfold atlas_pixels.
  set (n := Z.of_nat (length (Py.keys material_colors))) in *.
  set (cw := column_width W n) in *.
  assert (0 < n) as Hn.
  { unfold cw, column_width in Hcw. destruct (decide (n = 0)) as [Hz|]; [|lia].
    rewrite Hz, Z.div_0_r in Hcw. lia. }
  assert (n * cw ≤ W) as HW by (apply Z.mul_div_le; lia).
  destruct (for_each_inv
    (λ k, buf_ok W H (λ x y c,
       if decide (x < Z.of_nat k * cw) then
         channel (default (0, 0, 0)%Q (nth_color material_colors (x `div` cw))) c
       else 0%Q))
    (Py.enumerate (Py.keys material_colors))
    (λ '(i, mat_name) pixels,
       color ← Py.get material_colors mat_name;
       fill_column W H cw i color pixels)
    (Py.repeat 0%Q (W * H * 4)))
    as (buf & Hrun & Hpost).
  - split.
    + unfold Py.repeat. rewrite length_replicate. nia.
    + intros x y c Hx Hy Hc. rewrite decide_False by lia.
      unfold Py.repeat. apply lookup_replicate_2.
      pose proof (px_index_bound W H x y c Hx Hy Hc). lia.
  - intros k [i name] s Hk Hs. apply enumerate_lookup in Hk as [-> Hk].
    destruct (dict_get_key _ _ _ Hk) as [color Hcolor]. rewrite Hcolor. simpl.
    assert (Z.of_nat k < n) as Hkn.
    { apply lookup_lt_Some in Hk. unfold n. lia. }
    destruct (fill_column_ok W H cw (Z.of_nat k) color _ s Hs)
      as (s' & Hs' & Hok'); [lia|lia|nia|].
    exists s'. split; [exact Hs'|].
    eapply buf_ok_ext; [|exact Hok']. intros x y c Hx Hy Hc. simpl.
    destruct (decide (Z.of_nat k * cw ≤ x < (Z.of_nat k + 1) * cw)) as [Hin|Hout].
    + rewrite decide_True by lia.
      assert (x `div` cw = Z.of_nat k) as ->.
      { symmetry. apply Z.div_unique with (x - Z.of_nat k * cw); lia. }
      unfold nth_color. rewrite decide_True by lia.
      rewrite Nat2Z.id, Hk. simpl. by rewrite Hcolor.
    + repeat case_decide; try done; lia.
  - exists buf. split; [exact Hrun|].
    eapply buf_ok_ext; [|exact Hpost]. intros x y c Hx Hy Hc. simpl.
    rewrite enumerate_length. unfold atlas_layout. fold n. fold cw. done.
Qed.

Lemma atlas_pixels_noop (material_colors : Py.dict rgb) (W H : Z) :
  column_width W (Z.of_nat (length (Py.keys material_colors))) ≤ 0 ∨ H ≤ 0 →
  atlas_pixels material_colors W H = Some (Py.repeat 0%Q (W * H * 4)).
Proof.
  intros Hempty. unfold atlas_pixels.
  destruct (for_each_inv (λ _ s, s = Py.repeat 0%Q (W * H * 4))
    (Py.enumerate (Py.keys material_colors))
    (λ '(i, mat_name) pixels,
       color ← Py.get material_colors mat_name;
       fill_column W H
         (column_width W (Z.of_nat (length (Py.keys material_colors))))
         i color pixels)
    (Py.repeat 0%Q (W * H * 4)))
    as (buf & -> & ->); [done| |done].
  intros k [i name] s Hk ->. apply enumerate_lookup in Hk as [-> Hk].
  destruct (dict_get_key _ _ _ Hk) as [color ->]. simpl.
  rewrite fill_column_noop by done. eauto.
Qed.

Lemma buf_ok_pixel_at (W H : Z) f buf (x y : Z) :
  buf_ok W H f buf → 0 ≤ x < W → 0 ≤ y < H →
  pixel_at buf W x y = Some (f x y 0, f x y 1, f x y 2, f x y 3).
Proof.
  intros [Hlen Hf] Hx Hy. unfold pixel_at.
  rewrite !getitem_nonneg
    by (rewrite Hlen; apply px_index_bound; lia).
  rewrite !Hf by lia. done.
Qed.

(** ** Names and the host collections *)

Lemma name_candidates_NoDup (base : string) (m : nat) :
  NoDup (name_candidates base m).
Proof.
  unfold name_candidates. apply NoDup_fmap_2_strong; [|apply NoDup_seq].
  intros k1 k2 _ _ Heq.
  apply (inj (String.app base)) in Heq.
  apply (inj (String.app ".")) in Heq.
  by apply (inj pretty) in Heq.
Qed.

Lemma unique_name_fresh (base : string) (names : list string) :
  unique_name base names ∉ names.
Proof.
  unfold unique_name. case_decide as Hin; [|done].
  destruct (head _) as [c|] eqn:Hhead; simpl.
  - apply head_Some_elem_of, list_elem_of_filter in Hhead. tauto.
  - exfalso. apply head_None in Hhead.
    assert (∀ c, c ∈ name_candidates base (S (length names)) → c ∈ names)
      as Hall.
    { intros c Hc. destruct (decide (c ∈ names)) as [|Hn]; [done|].
      assert (c ∈ filter (λ c, c ∉ names)
                (name_candidates base (S (length names)))) as Hf
        by (apply list_elem_of_filter; done).
      rewrite Hhead in Hf. by apply elem_of_nil in Hf. }
    apply NoDup_submseteq in Hall; [|apply name_candidates_NoDup].
    apply submseteq_length in Hall.
    unfold name_candidates in Hall.
    rewrite length_fmap, length_seq in Hall. lia.
Qed.

Lemma unique_name_free (base : string) (names : list string) :
  base ∉ names → unique_name base names = base.
Proof. intros. unfold unique_name. by rewrite decide_False. Qed.

Lemma find_material_app_new (materials : list material) (mat : material) :
  mat_name mat ∉ material_names materials →
  find_material (materials ++ [mat]) (mat_name mat) = Some mat.
Proof.
  intros Hfresh. unfold find_material.
  rewrite list_find_app_r.
  - simpl. by rewrite decide_True.
  - apply list_find_None, Forall_forall. intros m Hm Heq. apply Hfresh.
    unfold material_names. apply list_elem_of_fmap. eauto.
Qed.

Lemma find_material_app_old (materials extra : list material) (name : string)
    (mat : material) :
  find_material materials name = Some mat →
  find_material (materials ++ extra) name = Some mat.
Proof.
  unfold find_material. intros Hfind.
  destruct (list_find _ materials) as [[i m]|] eqn:E; [|done].
  simpl in Hfind. injection Hfind as ->.
  by rewrite (list_find_app_l _ _ _ _ _ E).
Qed.

Lemma find_material_name (materials : list material) (name : string)
    (mat : material) :
  find_material materials name = Some mat →
  mat_name mat = name ∧ mat ∈ materials.
Proof.
  unfold find_material. intros Hfind.
  destruct (list_find _ materials) as [[i m]|] eqn:E; [|done].
  simpl in Hfind. injection Hfind as ->.
  apply list_find_Some in E as (Hi & Hn & _).
  split; [done|]. by eapply list_elem_of_lookup_2.
Qed.

(** ** Ordered dictionaries *)

Lemma dict_set_new {V} (d : Py.dict V) (k : string) (v : V) :
  k ∉ Py.keys d → Py.set d k v = d ++ [(k, v)].
Proof.
  unfold Py.keys. induction d as [|[k' v'] d IH]; intros Hk; [done|].
  simpl in *. apply not_elem_of_cons in Hk as [Hne Hk].
  rewrite decide_False by done. by rewrite IH.
Qed.

Lemma dict_get_app_l {V} (d d' : Py.dict V) (k : string) (v : V) :
  Py.get d k = Some v → Py.get (d ++ d') k = Some v.
Proof.
  induction d as [|[k' v'] d IH]; [done|]. simpl.
  case_decide; [done|]. apply IH.
Qed.

Lemma dict_get_app_r {V} (d d' : Py.dict V) (k : string) :
  k ∉ Py.keys d → Py.get (d ++ d') k = Py.get d' k.
Proof.
  unfold Py.keys. induction d as [|[k' v'] d IH]; intros Hk; [done|].
  simpl in *. apply not_elem_of_cons in Hk as [Hne Hk].
  rewrite decide_False by done. by apply IH.
Qed.

Lemma dict_get_None {V} (d : Py.dict V) (k : string) :
  Py.get d k = None ↔ k ∉ Py.keys d.
Proof.
  unfold Py.keys. induction d as [|[k' v'] d IH]; simpl.
  - split; [intros _; apply not_elem_of_nil|done].
  - case_decide as Hd.
    + subst. split; [done|]. intros Hk. exfalso. apply Hk. left.
    + rewrite IH, not_elem_of_cons.
      split; [intros; split; [congruence|done]|tauto].
Qed.

Lemma dict_get_set_eq {V} (d : Py.dict V) (k : string) (v : V) :
  Py.get (Py.set d k v) k = Some v.
Proof.
  induction d as [|[k' v'] d IH]; simpl.
  - by rewrite decide_True.
  - case_decide as Hd; simpl.
    + by rewrite decide_True.
    + by rewrite decide_False.
Qed.

Lemma dict_get_set_ne {V} (d : Py.dict V) (k k' : string) (v : V) :
  k ≠ k' → Py.get (Py.set d k v) k' = Py.get d k'.
Proof.
  intros Hne. induction d as [|[k0 v0] d IH]; simpl.
  - by rewrite decide_False.
  - case_decide as Hd; simpl.
    + subst k0. by rewrite !decide_False.
    + case_decide; [done|exact IH].
Qed.

(** ** The atlas layout *)

Lemma column_width_fits (W n : Z) : 0 < n → n * column_width W n ≤ W.
Proof. intros. unfold column_width. apply Z.mul_div_le. lia. Qed.

(** C9. In [create_texture_atlas], every pixel-buffer index written is in
    bounds: for a column [i] of the [n] materials, [x] inside the column width
    and [y] inside the height, [px_index + 3] is below
    [atlas_width * atlas_height * 4], the length of the buffer, because
    [n * (atlas_width // n) <= atlas_width]. *)
Theorem px_index_in_bounds (material_colors : Py.dict rgb) (W H i x y : Z) :
  let n := Z.of_nat (length (Py.keys material_colors)) in
  let cw := column_width W n in
  0 ≤ i < n → 0 ≤ x < cw → 0 ≤ y < H →
  n * cw ≤ W ∧
  0 ≤ px_index W (i * cw) x y ∧
  px_index W (i * cw) x y + 3 < W * H * 4 ∧
  px_index W (i * cw) x y + 3
    < Z.of_nat (length (Py.repeat 0%Q (W * H * 4))).
Proof.
  intros n cw Hi Hx Hy.
  assert (n * cw ≤ W) as HW by (apply column_width_fits; lia).
  assert (0 ≤ i * cw + x < W) as Hcol by nia.
  pose proof (px_index_bound W H (i * cw + x) y 3 Hcol Hy) as Hb.
  unfold px_index in *. unfold Py.repeat. rewrite length_replicate.
  repeat split; [done|nia|lia|lia].
Qed.

Lemma px_index_in_bounds_witness :
  let mc : Py.dict rgb := [("Red"%string, (1, 0, 0)%Q); ("Blue"%string, (0, 0, 1)%Q)] in
  2 * column_width 9 2 ≤ 9 ∧
  0 ≤ px_index 9 (1 * column_width 9 2) 3 2 ∧
  px_index 9 (1 * column_width 9 2) 3 2 + 3 < 9 * 3 * 4 ∧
  px_index 9 (1 * column_width 9 2) 3 2 + 3
    < Z.of_nat (length (Py.repeat 0%Q (9 * 3 * 4))).
Proof.
  intros mc. apply (px_index_in_bounds mc 9 3 1 3 2); vm_compute; split; congruence.
Defined.

(** A non-empty dictionary always yields an image. *)
Lemma create_texture_atlas_returns (images : list image)
    (material_colors : Py.dict rgb) (W H : Z) :
  1 ≤ Z.of_nat (length (Py.keys material_colors)) →
  ∃ img,
    create_texture_atlas images material_colors W H
      = Some (Some img, images ++ [img]).
Proof.
  intros Hn. unfold create_texture_atlas. rewrite decide_False by lia.
  destruct (decide
    (0 < column_width W (Z.of_nat (length (Py.keys material_colors)))
     ∧ 0 < H)) as [[Hcw HH]|Hempty].
  - destruct (atlas_pixels_ok material_colors W H Hcw HH) as (buf & -> & _).
    simpl. eauto.
  - rewrite atlas_pixels_noop by lia. simpl. eauto.
Qed.

Lemma create_texture_atlas_name images material_colors (W H : Z)
    (atlas : image) (images' : list image) :
  create_texture_atlas images material_colors W H = Some (Some atlas, images') →
  (img_name atlas ∉ image_names images) ∧
  Py.get (img_props atlas) "atlas_columns"
    = Some (Z.of_nat (length (Py.keys material_colors))) ∧
  img_size atlas = (W, H).
Proof.
  unfold create_texture_atlas. case_decide; [done|].
  destruct (atlas_pixels _ _ _) as [pixels|]; [|done].
  cbn [mbind option_bind]. intros [= <- _]. simpl.
  split; [apply unique_name_fresh|done].
Qed.

Lemma create_texture_atlas_pixels images material_colors (W H : Z)
    (atlas : image) (images' : list image) :
  create_texture_atlas images material_colors W H = Some (Some atlas, images') →
  0 < column_width W (Z.of_nat (length (Py.keys material_colors))) → 0 < H →
  buf_ok W H (atlas_layout material_colors W) (img_pixels atlas).
Proof.
  unfold create_texture_atlas. intros Hcreate Hcw HH.
  case_decide; [done|].
  destruct (atlas_pixels_ok material_colors W H Hcw HH) as (buf & Hbuf & Hok).
  rewrite Hbuf in Hcreate. cbn [mbind option_bind] in Hcreate.
  injection Hcreate as <- _. exact Hok.
Qed.

(** Inside column [i] the closed form is the colour of material [i]. *)
Lemma atlas_layout_in_column (material_colors : Py.dict rgb) (W : Z)
    (i : Z) (name : string) (color : rgb) (x y c : Z) :
  let n := Z.of_nat (length (Py.keys material_colors)) in
  0 ≤ i → Py.keys material_colors !! Z.to_nat i = Some name →
  Py.get material_colors name = Some color →
  i * column_width W n ≤ x < (i + 1) * column_width W n →
  atlas_layout material_colors W x y c = channel color c.
Proof.
  intros n Hi Hname Hcolor Hx.
  assert (i < n) as Hin.
  { apply lookup_lt_Some in Hname. unfold n. lia. }
  assert (x `div` column_width W n = i) as Hdiv.
  { symmetry. apply Z.div_unique with (x - i * column_width W n); lia. }
  unfold atlas_layout. fold n. rewrite decide_True by nia.
  rewrite Hdiv. unfold nth_color. rewrite decide_True by done.
  rewrite Hname. simpl. by rewrite Hcolor.
Qed.

(** The pixels of column [i] of a created atlas. *)
Lemma atlas_pixel_in_column (images images' : list image)
    (material_colors : Py.dict rgb) (W H : Z) (atlas : image)
    (i : Z) (name : string) (color : rgb) (x y : Z) :
  let n := Z.of_nat (length (Py.keys material_colors)) in
  create_texture_atlas images material_colors W H
    = Some (Some atlas, images') →
  0 ≤ i → Py.keys material_colors !! Z.to_nat i = Some name →
  Py.get material_colors name = Some color →
  i * (W `div` n) ≤ x < (i + 1) * (W `div` n) → 0 ≤ y < H →
  pixel_at (img_pixels atlas) W x y
    = Some (red color, green color, blue color, 1%Q).
Proof.
  intros n Hcreate Hi Hname Hcolor Hx Hy. fold (column_width W n) in Hx.
  assert (i < n) as Hin.
  { apply lookup_lt_Some in Hname. unfold n. lia. }
  assert (0 < column_width W n) as Hcw by nia.
  pose proof (column_width_fits W n ltac:(lia)) as HW.
  apply create_texture_atlas_pixels in Hcreate; [|exact Hcw|lia].
  rewrite (buf_ok_pixel_at W H _ _ x y Hcreate) by nia.
  by rewrite !(atlas_layout_in_column material_colors W i name color).
Qed.

(** C4. For [n >= 1] materials the atlas is one row of columns: the call
    returns an image that records [n] under ["atlas_columns"], and every pixel
    with [x] in [[i * (atlas_width // n), (i + 1) * (atlas_width // n))] and
    [y] a row of the image holds the RGB of material [i] with alpha 1. *)
Theorem create_texture_atlas_layout (images : list image)
    (material_colors : Py.dict rgb) (W H : Z) :
  let n := Z.of_nat (length (Py.keys material_colors)) in
  1 ≤ n →
  ∃ img,
    create_texture_atlas images material_colors W H
      = Some (Some img, images ++ [img]) ∧
    Py.get (img_props img) "atlas_columns" = Some n ∧
    img_size img = (W, H) ∧
    ∀ i name color x y,
      0 ≤ i → Py.keys material_colors !! Z.to_nat i = Some name →
      Py.get material_colors name = Some color →
      i * (W `div` n) ≤ x < (i + 1) * (W `div` n) → 0 ≤ y < H →
      pixel_at (img_pixels img) W x y
        = Some (red color, green color, blue color, 1%Q).
Proof.
  intros n Hn.
  destruct (create_texture_atlas_returns images material_colors W H Hn)
    as [img Hrun].
  pose proof (create_texture_atlas_name _ _ _ _ _ _ Hrun)
    as (_ & Hcols & Hsize).
  exists img. split; [exact Hrun|]. split; [exact Hcols|].
  split; [exact Hsize|].
  intros i name color x y Hi Hname Hcolor Hx Hy.
  by eapply atlas_pixel_in_column.
Qed.

Lemma create_texture_atlas_layout_witness :
  ∃ img,
    create_texture_atlas []
      [("Red"%string, (1, 0, 0)%Q); ("Blue"%string, (0, 0, 1)%Q)] 4 2
      = Some (Some img, [] ++ [img]) ∧
    pixel_at (img_pixels img) 4 3 1 = Some (0, 0, 1, 1)%Q.
Proof.
  destruct (create_texture_atlas_layout []
    [("Red"%string, (1, 0, 0)%Q); ("Blue"%string, (0, 0, 1)%Q)] 4 2)
    as (img & Hrun & _ & _ & Hpx); [simpl; lia|].
  exists img. split; [exact Hrun|].
  apply (Hpx 1 "Blue"%string (0, 0, 1)%Q 3 1); [lia|reflexivity|reflexivity| |lia].
  vm_compute. split; congruence.
Defined.

(** ** Rational arithmetic of the column mapping *)

Lemma truediv_Some (a b : Q) :
  ¬ (b == 0)%Q → Py.truediv a b = Some (a / b)%Q.
Proof.
  intros Hb. unfold Py.truediv.
  destruct (Qeq_bool b 0) eqn:E; [|done].
  apply Qeq_bool_eq in E. contradiction.
Qed.

Lemma floordiv_Some (a b : Q) :
  ¬ (b == 0)%Q → Py.floordiv a b = Some (inject_Z (Qfloor (a / b))).
Proof.
  intros Hb. unfold Py.floordiv.
  destruct (Qeq_bool b 0) eqn:E; [|done].
  apply Qeq_bool_eq in E. contradiction.
Qed.

Lemma inject_Z_pos (z : Z) : 0 < z → (0 < inject_Z z)%Q.
Proof. intros. change 0%Q with (inject_Z 0). by rewrite <- Zlt_Qlt. Qed.

Lemma inject_Z_nonneg (z : Z) : 0 ≤ z → (0 <= inject_Z z)%Q.
Proof. intros. change 0%Q with (inject_Z 0). by rewrite <- Zle_Qle. Qed.

Lemma inject_Z_succ (z : Z) : (inject_Z (z + 1) == inject_Z z + 1)%Q.
Proof. by rewrite inject_Z_plus. Qed.

Lemma floor_unique (q : Q) (i : Z) :
  (inject_Z i <= q)%Q → (q < inject_Z (i + 1))%Q → Qfloor q = i.
Proof.
  intros Hle Hlt.
  apply Qfloor_resp_le in Hle. rewrite Qfloor_Z in Hle.
  pose proof (Qfloor_le q) as Hfl.
  assert (inject_Z (Qfloor q) < inject_Z (i + 1))%Q as Hlt'
    by (eapply Qle_lt_trans; eauto).
  rewrite <- Zlt_Qlt in Hlt'. lia.
Qed.

Lemma int_of_float_inject (z : Z) : Py.int_of_float (inject_Z z) = z.
Proof. unfold Py.int_of_float. simpl. apply Z.quot_1_r. Qed.

Lemma lt_false (a b : Q) : (b <= a)%Q → Py.lt a b = false.
Proof. intros H. unfold Py.lt. apply Qle_bool_iff in H. by rewrite H. Qed.

Lemma ge_false (a b : Q) : (a < b)%Q → Py.ge a b = false.
Proof.
  intros H. unfold Py.ge. destruct (Qle_bool b a) eqn:E; [|done].
  apply Qle_bool_iff in E. by apply Qlt_not_le in H.
Qed.

(** A UV anywhere inside the [i]-th of [n] equal slices of the unit interval
    is classified as column [i]. *)
Lemma face_column_in_column (W n i : Z) (u cw : Q) :
  1 ≤ n → 0 ≤ i < n → 0 < W →
  (cw == inject_Z W / inject_Z n)%Q →
  (inject_Z i / inject_Z n <= u)%Q →
  (u < inject_Z (i + 1) / inject_Z n)%Q →
  face_column u W n cw = Some i.
Proof.
  intros Hn Hi HW Hcw Hlo Hhi.
  pose proof (inject_Z_pos W HW) as HWq.
  pose proof (inject_Z_pos n ltac:(lia)) as Hnq.
  pose proof (inject_Z_nonneg i ltac:(lia)) as Hiq.
  assert (inject_Z i + 1 <= inject_Z n)%Q as Hin.
  { rewrite <- inject_Z_succ, <- Zle_Qle. lia. }
  rewrite inject_Z_succ in Hhi.
  assert (inject_Z i <= u * inject_Z n)%Q as Hlo'.
  { apply Qmult_le_compat_r with (z := inject_Z n) in Hlo; [|lra].
    assert (inject_Z i / inject_Z n * inject_Z n == inject_Z i)%Q as E
      by (field; lra).
    by rewrite E in Hlo. }
  assert (u * inject_Z n < inject_Z i + 1)%Q as Hhi'.
  { apply Qmult_lt_compat_r with (z := inject_Z n) in Hhi; [|lra].
    assert ((inject_Z i + 1) / inject_Z n * inject_Z n == inject_Z i + 1)%Q
      as E by (field; lra).
    by rewrite E in Hhi. }
  assert (0 <= u * inject_Z W)%Q as Hx0 by nra.
  assert (u * inject_Z W < inject_Z W)%Q as Hx1 by nra.
  assert (¬ (cw == 0)%Q) as Hcw0.
  { rewrite Hcw. intros Hz.
    assert (inject_Z W / inject_Z n * inject_Z n == inject_Z W)%Q as Hm
      by (field; lra).
    rewrite Hz in Hm. lra. }
  unfold face_column.
  rewrite lt_false by exact Hx0. rewrite ge_false by exact Hx1.
  rewrite floordiv_Some by exact Hcw0. cbn [mbind option_bind].
  rewrite int_of_float_inject.
  assert (Qfloor (u * inject_Z W / cw) = i) as ->.
  { assert (u * inject_Z W / cw == u * inject_Z n)%Q as Hq.
    { rewrite Hcw. field. split; lra. }
    apply floor_unique; rewrite Hq; [exact Hlo'|].
    rewrite inject_Z_succ. exact Hhi'. }
  rewrite decide_False by lia. rewrite decide_False by lia. done.
Qed.

(** The U coordinate written by [remap_face] for column [i] of [n]. *)
Lemma column_center_eq (W n i : Z) (cw : Q) :
  1 ≤ n → 0 < W → (cw == inject_Z W / inject_Z n)%Q →
  ((inject_Z i * cw / inject_Z W + inject_Z (i + 1) * cw / inject_Z W)
     * (1 # 2)
   == (inject_Z i + (1 # 2)) / inject_Z n)%Q.
Proof.
  intros Hn HW Hcw.
  pose proof (inject_Z_pos W HW). pose proof (inject_Z_pos n ltac:(lia)).
  rewrite Hcw, inject_Z_succ. field. split; lra.
Qed.

Lemma Qdiv_le_compat_r (a b c : Q) :
  (0 < c)%Q → (a <= b)%Q → (a / c <= b / c)%Q.
Proof.
  intros Hc Hab. unfold Qdiv. apply Qmult_le_compat_r; [done|].
  apply Qlt_le_weak, Qinv_lt_0_compat, Hc.
Qed.

Lemma Qdiv_lt_compat_r (a b c : Q) :
  (0 < c)%Q → (a < b)%Q → (a / c < b / c)%Q.
Proof.
  intros Hc Hab. unfold Qdiv. apply Qmult_lt_compat_r; [|done].
  apply Qinv_lt_0_compat, Hc.
Qed.

(** ** Rounding to binary64 *)

Lemma pow2_pos e : (0 < Binary64.pow2 e)%Q.
Proof. apply Qpower_0_lt. reflexivity. Qed.

Lemma pow2_plus a b : (Binary64.pow2 (a + b) == Binary64.pow2 a * Binary64.pow2 b)%Q.
Proof. apply Qpower_plus. discriminate. Qed.

Lemma pow2_le a b : a ≤ b → (Binary64.pow2 a <= Binary64.pow2 b)%Q.
Proof. intros. apply Qpower_le_compat_l; [done|]. discriminate. Qed.

Lemma pow2_lt a b : a < b → (Binary64.pow2 a < Binary64.pow2 b)%Q.
Proof. intros. apply Qpower_lt_compat_l; [done|]. reflexivity. Qed.

Lemma pow2_lt_inv a b : (Binary64.pow2 a < Binary64.pow2 b)%Q → a < b.
Proof.
  intros H. destruct (Z_lt_le_dec a b); [done|].
  apply pow2_le in l. apply Qle_not_lt in l. done.
Qed.

Lemma pow2_nonneg_Z e : 0 ≤ e → (Binary64.pow2 e == inject_Z (2 ^ e))%Q.
Proof. intros. unfold Binary64.pow2. rewrite Zpower_Qpower by done. reflexivity. Qed.


Lemma pow2_inject (e : Z) :
  0 ≤ e → (Binary64.pow2 e == inject_Z (2 ^ e))%Q.
Proof. apply pow2_nonneg_Z. Qed.

Lemma pow2_minus a b : (Binary64.pow2 (a - b) == Binary64.pow2 a / Binary64.pow2 b)%Q.
Proof. apply Qpower_minus. discriminate. Qed.

(** [x] as a quotient of integers. *)
Lemma Q_as_div (x : Q) :
  (x == inject_Z (Qnum x) / inject_Z (Z.pos (Qden x)))%Q.
Proof. destruct x as [a b]. simpl. apply Qmake_Qdiv. Qed.

Lemma exponent_spec (x : Q) :
  (0 < x)%Q → (Binary64.pow2 (Binary64.exponent x) <= x)%Q ∧ (x < Binary64.pow2 (Binary64.exponent x + 1))%Q.
Proof.
  intros Hx. unfold Binary64.exponent.
  set (a := Qnum x). set (b := Z.pos (Qden x)).
  assert (0 < a) as Ha.
  { destruct x as [n d]. unfold Qlt in Hx. simpl in *. lia. }
  assert (0 < b) as Hb by (unfold b; lia).
  pose proof (Z.log2_spec a Ha) as [Ha1 Ha2].
  pose proof (Z.log2_spec b Hb) as [Hb1 Hb2].
  pose proof (Z.log2_nonneg a) as Hla. pose proof (Z.log2_nonneg b) as Hlb.
  set (la := Z.log2 a) in *. set (lb := Z.log2 b) in *.
  pose proof (Q_as_div x) as Hq. fold a b in Hq.
  assert (0 < inject_Z b)%Q as HbQ.
  { change 0%Q with (inject_Z 0). rewrite <- Zlt_Qlt. done. }
  assert (x * inject_Z b == inject_Z a)%Q as Hxb.
  { rewrite Hq. field. intros H0. rewrite H0 in HbQ. by apply Qlt_irrefl in HbQ. }
  (* bounds in Q *)
  assert (inject_Z (2 ^ la) <= inject_Z a)%Q as A1 by (by rewrite <- Zle_Qle).
  assert (inject_Z a < inject_Z (2 ^ (la + 1)))%Q as A2
    by (rewrite <- Zlt_Qlt; unfold Z.succ in Ha2; done).
  assert (inject_Z (2 ^ lb) <= inject_Z b)%Q as B1 by (by rewrite <- Zle_Qle).
  assert (inject_Z b < inject_Z (2 ^ (lb + 1)))%Q as B2
    by (rewrite <- Zlt_Qlt; unfold Z.succ in Hb2; done).
  rewrite <- !pow2_inject in A1, A2, B1, B2 by lia.
  assert (∀ e, Binary64.pow2 (e + 1) == 2 * Binary64.pow2 e)%Q as Hsucc.
  { intros e. rewrite pow2_plus. change (Binary64.pow2 1) with 2%Q. ring. }
  assert (Binary64.pow2 (la - lb) * Binary64.pow2 lb == Binary64.pow2 la)%Q as Hprod.
  { rewrite <- pow2_plus. by replace (la - lb + lb) with la by lia. }
  pose proof (pow2_pos la) as Pla. pose proof (pow2_pos lb) as Plb.
  pose proof (pow2_pos (la - lb)) as Pe.
  rewrite Hsucc in A2, B2.
  destruct (Qle_bool (Binary64.pow2 (la - lb)) x) eqn:Htest.
  - apply Qle_bool_iff in Htest. split; [done|].
    rewrite Hsucc. nra.
  - assert (x < Binary64.pow2 (la - lb))%Q as Hlt.
    { apply Qnot_le_lt. intros Hle. apply Qle_bool_iff in Hle. congruence. }
    replace (la - lb - 1 + 1) with (la - lb) by lia. split; [|done].
    assert (Binary64.pow2 (la - lb) == 2 * Binary64.pow2 (la - lb - 1))%Q as Hhalf.
    { rewrite <- Hsucc. by replace (la - lb - 1 + 1) with (la - lb) by lia. }
    pose proof (pow2_pos (la - lb - 1)) as Pe1.
    nra.
Qed.

Lemma exponent_unique (x : Q) (e : Z) :
  (Binary64.pow2 e <= x)%Q → (x < Binary64.pow2 (e + 1))%Q → Binary64.exponent x = e.
Proof.
  intros Hlo Hhi.
  assert (0 < x)%Q as Hx by (pose proof (pow2_pos e); lra).
  destruct (exponent_spec x Hx) as [Hlo' Hhi'].
  assert (Binary64.pow2 e < Binary64.pow2 (Binary64.exponent x + 1))%Q as H1 by lra.
  assert (Binary64.pow2 (Binary64.exponent x) < Binary64.pow2 (e + 1))%Q as H2 by lra.
  apply pow2_lt_inv in H1, H2. lia.
Qed.

Lemma exponent_comp (x y : Q) :
  (0 < x)%Q → (x == y)%Q → Binary64.exponent x = Binary64.exponent y.
Proof.
  intros Hx Hxy. symmetry. apply exponent_unique.
  - rewrite <- Hxy. by apply exponent_spec.
  - rewrite <- Hxy. by apply exponent_spec.
Qed.

Lemma nearest_even_spec (s : Q) :
  (s - (1 # 2) <= inject_Z (Binary64.nearest_even s))%Q ∧
  (inject_Z (Binary64.nearest_even s) <= s + (1 # 2))%Q.
Proof.
  unfold Binary64.nearest_even.
  pose proof (Qfloor_le s) as Hlo. pose proof (Qlt_floor s) as Hhi.
  set (f := Qfloor s) in *.
  rewrite inject_Z_plus in Hhi. change (inject_Z 1) with 1%Q in Hhi.
  destruct (s - inject_Z f ?= 1 # 2)%Q eqn:Hc.
  - apply Qeq_alt in Hc. destruct (Z.even f).
    + lra.
    + rewrite inject_Z_plus. change (inject_Z 1) with 1%Q. lra.
  - apply Qlt_alt in Hc. lra.
  - apply Qgt_alt in Hc. rewrite inject_Z_plus. change (inject_Z 1) with 1%Q.
    lra.
Qed.

Lemma nearest_even_comp (s t : Q) :
  (s == t)%Q → Binary64.nearest_even s = Binary64.nearest_even t.
Proof.
  intros Hst. unfold Binary64.nearest_even.
  rewrite (Qfloor_comp s t Hst).
  assert ((s - inject_Z (Qfloor t) ?= 1 # 2)%Q
          = (t - inject_Z (Qfloor t) ?= 1 # 2)%Q) as ->; [|done].
  apply Qcompare_comp; [by rewrite Hst|reflexivity].
Qed.

Lemma Qabs_pos_nonzero (x : Q) : ¬ (x == 0)%Q → (0 < Qabs x)%Q.
Proof.
  intros Hx. destruct (Qlt_le_dec 0 (Qabs x)) as [|Hle]; [done|].
  apply Qabs_Qle_condition in Hle as [H1 H2]. exfalso. apply Hx. lra.
Qed.

Lemma round_comp (p emin : Z) (x y : Q) :
  (x == y)%Q → Binary64.round p emin x = Binary64.round p emin y.
Proof.
  intros Hxy. unfold Binary64.round.
  destruct (Qeq_bool x 0) eqn:Hx.
  - apply Qeq_bool_iff in Hx.
    assert (Qeq_bool y 0 = true) as ->; [|done].
    apply Qeq_bool_iff. by rewrite <- Hxy.
  - assert (Qeq_bool y 0 = false) as ->.
    { apply not_true_is_false. intros Hy. apply Qeq_bool_iff in Hy.
      rewrite <- Hxy in Hy. apply Qeq_bool_iff in Hy. congruence. }
    assert (Binary64.exponent (Qabs x) = Binary64.exponent (Qabs y)) as ->.
    { apply exponent_comp; [|by rewrite Hxy].
      apply Qabs_pos_nonzero. by apply Qeq_bool_neq. }
    cbv zeta. erewrite nearest_even_comp; [done|]. by rewrite Hxy.
Qed.

Lemma round_zero (p emin : Z) (x : Q) : (x == 0)%Q → Binary64.round p emin x = 0%Q.
Proof. intros Hx. unfold Binary64.round. by apply Qeq_bool_iff in Hx as ->. Qed.

(** The relative error of rounding a positive number of the normal range. *)
Lemma round_error (p emin : Z) (x : Q) :
  1 ≤ p → (Binary64.pow2 (emin + p - 1) <= x)%Q →
  (x * (1 - Binary64.pow2 (- p)) <= Binary64.round p emin x)%Q ∧
  (Binary64.round p emin x <= x * (1 + Binary64.pow2 (- p)))%Q.
Proof.
  intros Hp Hnormal.
  assert (0 < x)%Q as Hx by (pose proof (pow2_pos (emin + p - 1)); lra).
  unfold Binary64.round.
  assert (Qeq_bool x 0 = false) as ->.
  { apply not_true_is_false. intros H0. apply Qeq_bool_iff in H0. lra. }
  rewrite (exponent_comp (Qabs x) x); [| |by apply Qabs_pos; lra].
  2:{ rewrite Qabs_pos; lra. }
  destruct (exponent_spec x Hx) as [Hlo Hhi].
  set (ex := Binary64.exponent x) in *.
  assert (emin + p - 1 < ex + 1) as Hex.
  { apply pow2_lt_inv. lra. }
  rewrite Z.max_l by lia.
  set (e := ex - (p - 1)).
  pose proof (pow2_pos e) as Pe.
  pose proof (nearest_even_spec (x / Binary64.pow2 e)) as [Hm1 Hm2].
  set (m := inject_Z (Binary64.nearest_even (x / Binary64.pow2 e))) in *.
  assert (x / Binary64.pow2 e * Binary64.pow2 e == x)%Q as Hs by (field; lra).
  set (s := (x / Binary64.pow2 e)%Q) in *.
  assert (Binary64.pow2 e == Binary64.pow2 ex * (2 * Binary64.pow2 (- p)))%Q as He.
  { unfold e. replace (ex - (p - 1)) with (ex + (1 + - p)) by lia.
    rewrite !pow2_plus. change (Binary64.pow2 1) with 2%Q. ring. }
  pose proof (pow2_pos (- p)) as Pp. pose proof (pow2_pos ex) as Pex.
  split; nra.
Qed.

Lemma Qmult_le_nonneg_l (k x y : Q) : (0 <= k)%Q → (x <= y)%Q → (k * x <= k * y)%Q.
Proof. intros. nra. Qed.

Lemma within_comp (k x y y' : Q) : (y == y')%Q → within k x y → within k x y'.
Proof. intros E (? & ? & ? & ?). unfold within. rewrite <- E. done. Qed.

Lemma within_weaken (k k' x y : Q) :
  (k <= k')%Q → within k x y → within k' x y.
Proof. intros Hk (? & ? & ? & ?). unfold within. repeat split; try done; nra. Qed.

Lemma within_mul (k1 k2 a b c d : Q) :
  (0 <= k1)%Q → (0 <= k2)%Q →
  within k1 a b → within k2 c d → within (k1 * k2) (a * c) (b * d).
Proof.
  intros ? ? (? & ? & ? & ?) (? & ? & ? & ?). unfold within.
  repeat split; try nra.
Qed.

Lemma within_add (k a b c d : Q) :
  within k a b → within k c d → within k (a + c) (b + d).
Proof.
  intros (? & ? & ? & ?) (? & ? & ? & ?). unfold within.
  repeat split; try nra.
Qed.

Lemma within_div (k1 k2 a b c d : Q) :
  (0 <= k1)%Q → (0 <= k2)%Q → (0 < c)%Q → (0 < d)%Q →
  within k1 a b → within k2 c d → within (k1 * k2) (a / c) (b / d).
Proof.
  intros ? ? Hc Hd (? & ? & ? & ?) (? & ? & ? & ?). unfold within.
  assert (a / c * c == a)%Q as Ea by (field; lra).
  assert (b / d * d == b)%Q as Eb by (field; lra).
  assert (0 <= a / c)%Q as Hp by (apply Qle_shift_div_l; lra).
  assert (0 <= b / d)%Q as Hq by (apply Qle_shift_div_l; lra).
  set (p := (a / c)%Q) in *. set (q := (b / d)%Q) in *.
  assert (0 <= k1 * q)%Q as Hkq by nra.
  assert (0 <= k1 * p)%Q as Hkp by nra.
  repeat split; try done.
  - apply (Qmult_le_r _ _ c); [done|]. rewrite Ea.
    apply Qle_trans with (k1 * b)%Q; [done|]. rewrite <- Eb.
    assert (k1 * k2 * q * c == k1 * q * (k2 * c))%Q as -> by ring.
    assert (k1 * (q * d) == k1 * q * d)%Q as -> by ring.
    apply Qmult_le_nonneg_l; done.
  - apply (Qmult_le_r _ _ d); [done|]. rewrite Eb.
    apply Qle_trans with (k1 * a)%Q; [done|]. rewrite <- Ea.
    assert (k1 * k2 * p * d == k1 * p * (k2 * d))%Q as -> by ring.
    assert (k1 * (p * c) == k1 * p * c)%Q as -> by ring.
    apply Qmult_le_nonneg_l; done.
Qed.

Lemma double_exact_zero (x : Q) : (x == 0)%Q → Binary64.double x = 0%Q.
Proof. apply round_zero. Qed.

Lemma double_normal (x : Q) :
  (Binary64.pow2 (-1022) <= x)%Q → within rho (Binary64.double x) x.
Proof.
  intros Hx.
  destruct (round_error 53 (-1074) x ltac:(lia) Hx) as [Hlo Hhi].
  fold (Binary64.double x) in Hlo, Hhi.
  assert (Binary64.pow2 (-53) == 1 # 9007199254740992)%Q as E by reflexivity.
  rewrite E in Hlo, Hhi.
  pose proof (pow2_pos (-1022)).
  unfold within, rho. repeat split; lra.
Qed.

Lemma tiny_normal : (Binary64.pow2 (-1022) <= tiny * (1 # 2))%Q.
Proof. apply Qle_bool_iff. vm_compute. reflexivity. Qed.

(** One rounding step *)
Lemma double_step (k x y : Q) :
  (1 <= k)%Q → (k <= 2)%Q → within k x y → (y == 0 ∨ tiny <= y)%Q →
  within (k * rho) (Binary64.double x) y.
Proof.
  intros Hk1 Hk2 (Hx & Hy & Hxy & Hyx) [H0|Hn].
  - assert (x == 0)%Q as Hx0 by nra.
    rewrite (double_exact_zero x Hx0). unfold within. rewrite H0.
    repeat split; lra.
  - pose proof tiny_normal as Ht.
    assert (Binary64.pow2 (-1022) <= x)%Q as Hnorm.
    { unfold tiny in *. nra. }
    destruct (double_normal x Hnorm) as (D1 & D2 & D3 & D4).
    unfold within, rho in *. repeat split; try done; nra.
Qed.

Lemma within_trans (k1 k2 a b c : Q) :
  (0 <= k1)%Q → (0 <= k2)%Q →
  within k1 a b → within k2 b c → within (k1 * k2) a c.
Proof.
  intros ? ? (? & ? & ? & ?) (? & ? & ? & ?). unfold within.
  repeat split; try done; nra.
Qed.

Lemma within_refl (x : Q) : (0 <= x)%Q → within 1 x x.
Proof. intros. unfold within. repeat split; lra. Qed.

Ltac closed_le := apply Qle_bool_iff; vm_compute; reflexivity.

Lemma eps_nonneg j : 0 ≤ j → (1 <= eps j)%Q.
Proof.
  intros Hj. unfold eps. apply (inject_Z_nonneg) in Hj. nra.
Qed.

Lemma double_eps (j : Z) (x y : Q) :
  0 ≤ j ≤ 1000 → within (eps j) x y → (y == 0 ∨ tiny <= y)%Q →
  within (eps (j + 1)) (Binary64.double x) y.
Proof.
  intros Hj Hw Hy.
  assert (0 <= inject_Z j)%Q as Hj0 by (apply inject_Z_nonneg; lia).
  assert (inject_Z j <= 1000)%Q as Hj1.
  { change 1000%Q with (inject_Z 1000). rewrite <- Zle_Qle. lia. }
  apply (within_weaken (eps j * rho)).
  - unfold eps, rho. rewrite inject_Z_plus. change (inject_Z 1) with 1%Q. lra.
  - apply double_step; [unfold eps; lra|unfold eps; lra|done|done].
Qed.

Lemma float_of_int_small (k : Z) :
  0 ≤ k ≤ 2 ^ 30 →
  ∃ fk, Binary64.float_of_int k = Some fk ∧ within (eps 1) fk (inject_Z k).
Proof.
  intros Hk.
  assert (0 <= inject_Z k)%Q as Hk0 by (apply inject_Z_nonneg; lia).
  assert (inject_Z k <= inject_Z (2 ^ 30))%Q as Hk1
    by (rewrite <- Zle_Qle; lia).
  assert (within (eps 1) (Binary64.double (inject_Z k)) (inject_Z k)) as Hw.
  { apply (double_eps 0); [lia| |].
    - apply (within_weaken 1); [closed_le|]. by apply within_refl.
    - destruct (decide (k = 0)) as [->|Hne]; [by left|right].
      assert (inject_Z 1 <= inject_Z k)%Q by (rewrite <- Zle_Qle; lia).
      apply Qle_trans with (inject_Z 1); [closed_le|done]. }
  exists (Binary64.double (inject_Z k)). split; [|done].
  unfold Binary64.float_of_int. cbv zeta.
  assert (Qle_bool (Qabs (Binary64.double (inject_Z k))) Binary64.largest = true) as ->;
    [|done].
  apply Qle_bool_iff. destruct Hw as (H1 & H2 & H3 & H4).
  rewrite Qabs_pos by done.
  apply Qle_trans with (eps 1 * inject_Z (2 ^ 30))%Q.
  - apply Qle_trans with (eps 1 * inject_Z k)%Q; [done|].
    apply Qmult_le_nonneg_l; [|done]. closed_le.
  - closed_le.
Qed.

Lemma eps_mul (a b : Z) :
  0 ≤ a ≤ 1000 → 0 ≤ b ≤ 1000 → (eps a * eps b <= eps (a + b + 1))%Q.
Proof.
  intros Ha Hb. unfold eps. rewrite !inject_Z_plus.
  change (inject_Z 1) with 1%Q.
  assert (0 <= inject_Z a)%Q by (apply inject_Z_nonneg; lia).
  assert (0 <= inject_Z b)%Q by (apply inject_Z_nonneg; lia).
  assert (inject_Z a <= 1000)%Q.
  { change 1000%Q with (inject_Z 1000). rewrite <- Zle_Qle. lia. }
  assert (inject_Z b <= 1000)%Q.
  { change 1000%Q with (inject_Z 1000). rewrite <- Zle_Qle. lia. }
  set (x := inject_Z a) in *. set (y := inject_Z b) in *.
  assert (x * y <= 1000000)%Q by nra.
  nra.
Qed.

Lemma within_mul_eps (a b : Z) (x y z w : Q) :
  0 ≤ a ≤ 1000 → 0 ≤ b ≤ 1000 →
  within (eps a) x y → within (eps b) z w →
  within (eps (a + b + 1)) (x * z) (y * w).
Proof.
  intros Ha Hb H1 H2.
  pose proof (eps_nonneg a ltac:(lia)). pose proof (eps_nonneg b ltac:(lia)).
  apply (within_weaken (eps a * eps b)); [by apply eps_mul|].
  apply within_mul; [lra|lra|done|done].
Qed.

Lemma within_div_eps (a b : Z) (x y z w : Q) :
  0 ≤ a ≤ 1000 → 0 ≤ b ≤ 1000 → (0 < z)%Q → (0 < w)%Q →
  within (eps a) x y → within (eps b) z w →
  within (eps (a + b + 1)) (x / z) (y / w).
Proof.
  intros Ha Hb Hz Hw H1 H2.
  pose proof (eps_nonneg a ltac:(lia)). pose proof (eps_nonneg b ltac:(lia)).
  apply (within_weaken (eps a * eps b)); [by apply eps_mul|].
  apply within_div; [lra|lra|done|done|done|done].
Qed.

Lemma eps_mono (a b : Z) : a ≤ b → (eps a <= eps b)%Q.
Proof.
  intros Hab. unfold eps.
  assert (inject_Z a <= inject_Z b)%Q as Hq by (by rewrite <- Zle_Qle).
  set (x := inject_Z a) in *. set (y := inject_Z b) in *. lra.
Qed.

Lemma within_pos (k x y : Q) : within k x y → (0 < y)%Q → (0 < x)%Q.
Proof.
  intros (H1 & H2 & H3 & H4) Hy.
  destruct (Qlt_le_dec 0 x) as [|Hle]; [done|].
  assert (x == 0)%Q as E by lra. rewrite E in H4. lra.
Qed.

(** [k * x] for an [int] [k] and a float [x]. *)
Lemma mul_int_spec (j k : Z) (x y : Q) :
  0 ≤ j ≤ 100 → 0 ≤ k ≤ 2 ^ 30 → within (eps j) x y →
  (inject_Z k * y == 0 ∨ tiny <= inject_Z k * y)%Q →
  ∃ p, Binary64.mul_int k x = Some p ∧ within (eps (j + 3)) p (inject_Z k * y).
Proof.
  intros Hj Hk Hx Hn.
  destruct (float_of_int_small k Hk) as (fk & Hfk & Hwk).
  exists (Binary64.double (fk * x)). split.
  - unfold Binary64.mul_int. rewrite Hfk. done.
  - replace (j + 3) with ((1 + j + 1) + 1) by lia.
    apply double_eps; [lia| |done].
    apply within_mul_eps; [lia|lia|done|done].
Qed.

(** [x / k] for a float [x] and an [int] [k]. *)
Lemma div_int_spec (j k : Z) (x y : Q) :
  0 ≤ j ≤ 100 → 1 ≤ k ≤ 2 ^ 30 → within (eps j) x y →
  (y / inject_Z k == 0 ∨ tiny <= y / inject_Z k)%Q →
  ∃ q, Binary64.div_int x k = Some q ∧ within (eps (j + 3)) q (y / inject_Z k).
Proof.
  intros Hj Hk Hx Hn.
  destruct (float_of_int_small k ltac:(lia)) as (fk & Hfk & Hwk).
  assert (0 < inject_Z k)%Q as Hkq.
  { change 0%Q with (inject_Z 0). rewrite <- Zlt_Qlt. lia. }
  pose proof (within_pos _ _ _ Hwk Hkq) as Hfk0.
  exists (Binary64.double (x / fk)). split.
  - unfold Binary64.div_int. rewrite Hfk. cbn [mbind option_bind].
    assert (Qeq_bool fk 0 = false) as ->; [|done].
    apply not_true_is_false. intros E. apply Qeq_bool_iff in E. lra.
  - replace (j + 3) with ((j + 1 + 1) + 1) by lia.
    apply double_eps; [lia| |done].
    apply within_div_eps; [lia|lia|done|done|done|done].
Qed.

Lemma ratio_normal (a b : Z) (y : Q) :
  0 ≤ a → 0 < b ≤ 2 ^ 80 → (y == inject_Z a / inject_Z b)%Q →
  (y == 0 ∨ tiny <= y)%Q.
Proof.
  intros Ha Hb Hy.
  assert (0 < inject_Z b)%Q as Hbq.
  { change 0%Q with (inject_Z 0). rewrite <- Zlt_Qlt. lia. }
  destruct (decide (a = 0)) as [->|Hne].
  - left. rewrite Hy. field. lra.
  - right. rewrite Hy. apply Qle_shift_div_l; [done|].
    assert (inject_Z b <= inject_Z (2 ^ 80))%Q as Hb' by (rewrite <- Zle_Qle; lia).
    assert (inject_Z 1 <= inject_Z a)%Q as Ha' by (rewrite <- Zle_Qle; lia).
    apply Qle_trans with (tiny * inject_Z (2 ^ 80))%Q.
    + apply Qmult_le_nonneg_l; [closed_le|done].
    + apply Qle_trans with (inject_Z 1); [closed_le|done].
Qed.

Section round_trip.
Variables W n i : Z.
Hypothesis HW : 1 ≤ W ≤ 2 ^ 20.
Hypothesis Hn : 1 ≤ n ≤ 2 ^ 20.
Hypothesis Hi : 0 ≤ i < n.

Let Wq := inject_Z W.
Let nq := inject_Z n.
Let iq := inject_Z i.

Lemma Wq_pos : (0 < Wq)%Q.
Proof. unfold Wq. change 0%Q with (inject_Z 0). rewrite <- Zlt_Qlt. lia. Qed.

Lemma nq_pos : (0 < nq)%Q.
Proof. unfold nq. change 0%Q with (inject_Z 0). rewrite <- Zlt_Qlt. lia. Qed.

Lemma iq_nonneg : (0 <= iq)%Q.
Proof. apply inject_Z_nonneg. lia. Qed.

Lemma column_width_spec :
  ∃ cw, Binary64.column_width W n = Some cw ∧ within (eps 1) cw (Wq / nq).
Proof.
  pose proof Wq_pos. pose proof nq_pos.
  assert (within (eps 1) (Binary64.double (Wq / nq)) (Wq / nq)) as Hw.
  { apply (double_eps 0); [lia| |].
    - apply (within_weaken 1); [closed_le|]. apply within_refl.
      apply Qle_shift_div_l; lra.
    - apply (ratio_normal W n); [lia|lia|done]. }
  exists (Binary64.double (Wq / nq)). split; [|done].
  unfold Binary64.column_width, Binary64.truediv_int. rewrite decide_False by lia.
  cbv zeta. fold Wq nq.
  assert (Qle_bool (Qabs (Binary64.double (Wq / nq))) Binary64.largest = true) as ->; [|done].
  apply Qle_bool_iff. destruct Hw as (H1 & H2 & H3 & H4).
  rewrite Qabs_pos by done.
  assert (Wq / nq <= inject_Z (2 ^ 20))%Q as Hle.
  { apply Qle_shift_div_r; [done|].
    assert (Wq <= inject_Z (2 ^ 20))%Q by (unfold Wq; rewrite <- Zle_Qle; lia).
    assert (inject_Z 1 <= nq)%Q by (unfold nq; rewrite <- Zle_Qle; lia).
    change (inject_Z 1) with 1%Q in *.
    assert (0 <= inject_Z (2 ^ 20))%Q by closed_le.
    nra. }
  apply Qle_trans with (eps 1 * inject_Z (2 ^ 20))%Q; [|closed_le].
  apply Qle_trans with (eps 1 * (Wq / nq))%Q; [done|].
  apply Qmult_le_nonneg_l; [closed_le|done].
Qed.

Lemma u_center_spec (cw : Q) :
  within (eps 1) cw (Wq / nq) →
  ∃ u, Binary64.u_center i W cw = Some u ∧
       within (eps 10) u ((iq + (1 # 2)) / nq).
Proof.
  intros Hcw. pose proof Wq_pos. pose proof nq_pos. pose proof iq_nonneg.
  assert (2 ^ 20 * 2 ^ 20 = 2 ^ 40) as Hpow by reflexivity.
  destruct (mul_int_spec 1 i cw (Wq / nq)) as (p1 & Hp1 & Hw1);
    [lia|lia|done| |].
  { apply (ratio_normal (i * W) n); [nia|lia|].
    rewrite inject_Z_mult. fold iq Wq nq. field. lra. }
  destruct (div_int_spec 4 W p1 (iq * (Wq / nq))) as (um & Hum & Hwm);
    [lia|lia|done| |].
  { apply (ratio_normal (i * W) (n * W)); [nia|nia|].
    rewrite !inject_Z_mult. fold iq Wq nq. field. split; lra. }
  destruct (mul_int_spec 1 (i + 1) cw (Wq / nq)) as (p2 & Hp2 & Hw2);
    [lia|lia|done| |].
  { apply (ratio_normal ((i + 1) * W) n); [nia|lia|].
    rewrite inject_Z_mult. fold Wq nq. field. lra. }
  destruct (div_int_spec 4 W p2 (inject_Z (i + 1) * (Wq / nq)))
    as (uM & HuM & HwM); [lia|lia|done| |].
  { apply (ratio_normal ((i + 1) * W) (n * W)); [nia|nia|].
    rewrite !inject_Z_mult. fold Wq nq. field. split; lra. }
  fold Wq in Hwm, HwM.
  exists (Binary64.mul (Binary64.add um uM) (1 # 2)). split.
  - unfold Binary64.u_center. rewrite Hp1. cbn [mbind option_bind]. rewrite Hum.
    cbn [mbind option_bind]. rewrite Hp2. cbn [mbind option_bind].
    rewrite HuM. done.
  - unfold Binary64.mul, Binary64.add.
    assert (inject_Z (i + 1) == iq + 1)%Q as Ei by (rewrite inject_Z_plus; reflexivity).
    assert ((iq * (Wq / nq) / Wq + inject_Z (i + 1) * (Wq / nq) / Wq)
            * (1 # 2) == (iq + (1 # 2)) / nq)%Q as Eexact.
    { rewrite Ei. field. split; lra. }
    apply (within_comp _ _ _ _ Eexact).
    apply (double_eps 9); [lia| |].
    2:{ apply (ratio_normal ((2 * i + 1) * W) (2 * n * W)); [nia|nia|].
        rewrite Ei, !inject_Z_mult, inject_Z_plus, inject_Z_mult.
        fold iq Wq nq. change (inject_Z 2) with 2%Q.
        change (inject_Z 1) with 1%Q. field. split; lra. }
    apply (within_mul_eps 8 0); [lia|lia| |].
    2:{ apply (within_weaken 1); [closed_le|]. apply within_refl. lra. }
    apply (double_eps 7); [lia| |].
    2:{ apply (ratio_normal ((2 * i + 1) * W) (n * W)); [nia|nia|].
        rewrite Ei, !inject_Z_mult, inject_Z_plus, inject_Z_mult.
        fold iq Wq nq. change (inject_Z 2) with 2%Q.
        change (inject_Z 1) with 1%Q. field. split; lra. }
    by apply within_add.
Qed.

Lemma int_of_float_floor (x : Q) : (0 <= x)%Q → Py.int_of_float x = Qfloor x.
Proof.
  intros Hx. destruct x as [a b]. unfold Py.int_of_float, Qfloor. simpl.
  apply Z.quot_div_nonneg; [|lia]. unfold Qle in Hx. simpl in Hx. lia.
Qed.

Lemma floor_unique_succ (q : Q) (k : Z) :
  (inject_Z k <= q)%Q → (q < inject_Z k + 1)%Q → Qfloor q = k.
Proof.
  intros Hle Hlt.
  apply Qfloor_resp_le in Hle. rewrite Qfloor_Z in Hle.
  pose proof (Qfloor_le q) as Hfl.
  assert (inject_Z (Qfloor q) < inject_Z (k + 1))%Q as Hlt'.
  { rewrite inject_Z_plus. change (inject_Z 1) with 1%Q. lra. }
  rewrite <- Zlt_Qlt in Hlt'. lia.
Qed.

Lemma column_width_float_spec :
  ∃ cwf, Binary64.column_width_float W n = Some cwf ∧ within (eps 4) cwf (Wq / nq).
Proof.
  pose proof Wq_pos. pose proof nq_pos.
  destruct (float_of_int_small W ltac:(lia)) as (fw & Hfw & Hww).
  destruct (div_int_spec 1 n fw Wq) as (cwf & Hcwf & Hw);
    [lia|lia|done| |].
  { apply (ratio_normal W n); [lia|lia|done]. }
  exists cwf. split; [|done].
  unfold Binary64.column_width_float. rewrite Hfw. done.
Qed.

(** A coordinate close to the centre of column [i] is classified as [i]. *)
Lemma face_column_near (u cwf : Q) :
  within kappa u ((iq + (1 # 2)) / nq) →
  Binary64.column_width_float W n = Some cwf →
  Binary64.face_column u W n cwf = Some i.
Proof.
  intros Hu Hcwf. pose proof Wq_pos as HWq. pose proof nq_pos as Hnq.
  pose proof iq_nonneg as Hiq.
  destruct column_width_float_spec as (cwf' & Hcwf' & Hwc).
  rewrite Hcwf in Hcwf'. injection Hcwf' as <-.
  assert (iq + 1 <= nq)%Q as Hin.
  { unfold iq, nq. change 1%Q with (inject_Z 1).
    rewrite <- (inject_Z_plus i 1), <- Zle_Qle. lia. }
  assert (nq <= inject_Z (2 ^ 20))%Q as Hn20
    by (unfold nq; rewrite <- Zle_Qle; lia).
  assert (inject_Z (2 ^ 20) == 1048576)%Q as E20 by reflexivity.
  rewrite E20 in Hn20.
  set (centre := ((iq + (1 # 2)) / nq)%Q) in *.
  assert (centre * nq == iq + (1 # 2))%Q as Ecentre
    by (unfold centre; field; lra).
  assert (0 < centre)%Q as Hc0 by (apply Qlt_shift_div_l; lra).
  assert (centre <= 1 - (1 # 2097152))%Q as Hc1
    by (apply Qle_shift_div_r; lra).
  (* the pixel coordinate *)
  destruct (float_of_int_small W ltac:(lia)) as (fw & Hfw & Hww).
  fold Wq in Hww.
  set (xp := Binary64.double (fw * u)).
  set (K := (eps 1 * kappa * rho)%Q).
  assert (within K xp (Wq * centre)) as Hxp.
  { apply double_step; [closed_le|closed_le| |].
    - apply within_mul; [closed_le|closed_le|done|done].
    - apply (ratio_normal ((2 * i + 1) * W) (2 * n)); [nia|lia|].
      unfold centre. rewrite !inject_Z_mult, inject_Z_plus, inject_Z_mult.
      fold iq Wq nq. change (inject_Z 2) with 2%Q.
      change (inject_Z 1) with 1%Q. field. lra. }
  assert (K <= 1 + (1 # 8388608))%Q as HK by closed_le.
  assert (0 < xp)%Q as Hxp0.
  { apply (within_pos _ _ _ Hxp). nra. }
  assert (xp < Wq)%Q as Hxp1.
  { destruct Hxp as (_ & _ & Hle & _).
    assert (Wq * centre <= Wq * (1 - (1 # 2097152)))%Q
      by (apply Qmult_le_nonneg_l; lra).
    assert (0 <= Wq * centre)%Q by nra.
    assert (K * (Wq * centre)
            <= (1 + (1 # 8388608)) * (Wq * (1 - (1 # 2097152))))%Q by nra.
    nra. }
  (* the quotient *)
  assert (0 < Wq / nq)%Q as Hcw0 by (apply Qlt_shift_div_l; lra).
  pose proof (within_pos _ _ _ Hwc Hcw0) as Hcwf0.
  assert (within (K * eps 4) (xp / cwf) (iq + (1 # 2))) as Hq.
  { assert (Wq * centre / (Wq / nq) == iq + (1 # 2))%Q as E
      by (unfold centre; field; split; lra).
    apply (within_comp _ _ _ _ E).
    apply within_div; [closed_le|closed_le|done|done|done|done]. }
  assert (K * eps 4 <= 1 + (1 # 4194304))%Q as HK4 by closed_le.
  destruct Hq as (Hq0 & _ & Hq1 & Hq2).
  assert (iq <= 1048576)%Q as Hi20 by lra.
  assert (inject_Z i <= xp / cwf)%Q as Hlo.
  { fold iq. set (q := (xp / cwf)%Q) in *. nra. }
  assert (xp / cwf < inject_Z i + 1)%Q as Hhi.
  { fold iq. set (q := (xp / cwf)%Q) in *. nra. }
  assert (Py.int_of_float (xp / cwf) = i) as Hk.
  { rewrite int_of_float_floor by done. by apply floor_unique_succ. }
  (* the remainder and the quotient of the division algorithm *)
  assert (xp / cwf * cwf == xp)%Q as Exp by (field; lra).
  set (rest := (xp - inject_Z i * cwf)%Q).
  assert (0 <= rest)%Q as Hrest.
  { unfold rest. fold iq in Hlo |- *. set (q := (xp / cwf)%Q) in *. nra. }
  assert (within (eps 12) (Binary64.double (Binary64.double (xp - rest) / cwf)) iq) as Hdiv.
  { assert (iq * (Wq / nq) / (Wq / nq) == iq)%Q as E by (field; split; lra).
    apply (within_comp _ _ _ _ E).
    apply (double_eps 11); [lia| |].
    2:{ apply (ratio_normal i 1); [lia|lia|]. rewrite E. fold iq.
        change (inject_Z 1) with 1%Q. field. }
    apply (within_div_eps 6 4); [lia|lia|done|done| |done].
    assert (xp - rest == iq * cwf)%Q as Erest by (unfold rest, iq; ring).
    rewrite (round_comp 53 (-1074) _ _ Erest : Binary64.double _ = Binary64.double _).
    apply (double_eps 5); [lia| |].
    2:{ apply (ratio_normal (i * W) n); [nia|lia|].
        rewrite inject_Z_mult. fold iq Wq nq. field. lra. }
    apply (within_mul_eps 0 4); [lia|lia| |done].
    apply (within_weaken 1); [closed_le|]. by apply within_refl. }
  set (d := Binary64.double (Binary64.double (xp - rest) / cwf)) in *.
  destruct Hdiv as (Hd0 & _ & Hd1 & Hd2).
  assert (eps 12 <= 1 + (1 # 1099511627776))%Q as He12 by closed_le.
  assert (d < iq + (1 # 4))%Q as Hd3 by nra.
  assert (iq - (1 # 4) < d)%Q as Hd4 by nra.
  (* running the source *)
  unfold Binary64.face_column, Binary64.mul_int. rewrite Hfw. cbn [mbind option_bind].
  unfold Binary64.mul. fold xp.
  assert (Py.lt xp 0 = false) as ->.
  { unfold Py.lt. assert (Qle_bool 0 xp = true) as ->; [|done].
    apply Qle_bool_iff. lra. }
  assert (Py.ge xp (inject_Z W) = false) as ->.
  { unfold Py.ge. apply not_true_is_false. intros E.
    apply Qle_bool_iff in E. fold Wq in E. lra. }
  cbn [mbind option_bind]. unfold Binary64.floordiv.
  assert (Qeq_bool cwf 0 = false) as ->.
  { apply not_true_is_false. intros E. apply Qeq_bool_iff in E. lra. }
  rewrite Hk. fold rest. cbv zeta.
  assert (Py.lt cwf 0 = false) as ->.
  { unfold Py.lt. assert (Qle_bool 0 cwf = true) as ->; [|done].
    apply Qle_bool_iff. lra. }
  assert (Py.lt rest 0 = false) as ->.
  { unfold Py.lt. assert (Qle_bool 0 rest = true) as ->; [|done].
    by apply Qle_bool_iff. }
  rewrite andb_false_r. fold d.
  assert (∀ q : Q, Py.int_of_float q = i →
    (Some q ≫= λ q, Some (if decide (Py.int_of_float q < 0) then 0
                          else if decide (Py.int_of_float q >= n) then n - 1
                          else Py.int_of_float q)) = Some i) as Hfinal.
  { intros q Hq. cbn [mbind option_bind]. rewrite Hq.
    rewrite decide_False by lia. rewrite decide_False by lia. done. }
  destruct (Qeq_bool d 0) eqn:Hz.
  { apply Hfinal. apply Qeq_bool_iff in Hz.
    assert (iq < inject_Z 1)%Q as Hi1 by (change (inject_Z 1) with 1%Q; lra).
    unfold iq in Hi1. rewrite <- Zlt_Qlt in Hi1.
    assert (i = 0) as -> by lia. reflexivity. }
  apply Hfinal.
  destruct (Qlt_le_dec d iq) as [Hlt|Hge].
  - assert (inject_Z (i - 1) == iq - 1)%Q as Em.
    { unfold Z.sub. rewrite inject_Z_plus, inject_Z_opp. fold iq.
      change (inject_Z 1) with 1%Q. ring. }
    assert (Qfloor d = i - 1) as ->.
    { apply floor_unique_succ; rewrite Em; lra. }
    assert (Py.lt (1 # 2) (d - inject_Z (i - 1)) = true) as ->.
    { unfold Py.lt. apply negb_true_iff, not_true_is_false. intros E.
      apply Qle_bool_iff in E. rewrite Em in E. lra. }
    rewrite int_of_float_floor by (rewrite Em; lra).
    apply floor_unique_succ; rewrite Em; fold iq; lra.
  - assert (Qfloor d = i) as ->.
    { apply floor_unique_succ; fold iq; lra. }
    assert (Py.lt (1 # 2) (d - inject_Z i) = false) as ->.
    { unfold Py.lt. assert (Qle_bool (d - inject_Z i) (1 # 2) = true) as ->;
        [|done]. apply Qle_bool_iff. fold iq. lra. }
    unfold Py.int_of_float. simpl. apply Z.quot_1_r.
Qed.
End round_trip.

(** ** Round trip of the face classification *)

(** What is kept of a coordinate with a relative error of at most [2^-24]
    is within [sigma] of it. *)
Lemma store_within (store : Q → Q) (x : Q) :
  (0 <= x)%Q →
  (x * (1 - (1 # 16777216)) <= store x)%Q →
  (store x <= x * (1 + (1 # 16777216)))%Q →
  within sigma (store x) x.
Proof. intros Hx Hlo Hhi. unfold within, sigma. repeat split; lra. Qed.

(** Single precision keeps a coordinate of the unit interval with a relative
    error of at most [2^-24]. *)
Lemma single_error (x : Q) :
  (1 # 4194304 <= x)%Q →
  (x * (1 - (1 # 16777216)) <= Binary64.single x)%Q ∧
  (Binary64.single x <= x * (1 + (1 # 16777216)))%Q.
Proof.
  intros Hx.
  assert (Binary64.pow2 (-149 + 24 - 1) <= x)%Q as Hnormal.
  { apply Qle_trans with (1 # 4194304)%Q; [|done].
    apply Qle_bool_iff. vm_compute. reflexivity. }
  destruct (round_error 24 (-149) x ltac:(lia) Hnormal) as [Hlo Hhi].
  assert (Binary64.pow2 (-24) == 1 # 16777216)%Q as E by reflexivity.
  rewrite E in Hlo, Hhi. done.
Qed.

(** C2 (as amended). For an atlas of width [W] with [n] columns, both
    between 1 and [2^20], and a column [i] in [[0, n)]: [remap_uvs], in
    binary64 arithmetic, sets the UVs of a face that used material [i] to
    [(u, 0.5)] with [u] within a relative [2^-48] of the centre
    [(i + 0.5) / n] of column [i]; and when the coordinate is read back
    exactly, or with a relative error of up to [2^-24] as after storage in
    single precision, the column computation of the Unpack operator on that
    face's first loop assigns it [material_index = i]. *)
Theorem remap_unpack_round_trip (store : Q → Q)
    (slots : list (option string)) (mat_index_map : Py.dict Z)
    (W n i : Z) (cw cwf : Q) (f : face) (name : string) :
  1 ≤ W ≤ 2 ^ 20 → 1 ≤ n ≤ 2 ^ 20 → 0 ≤ i < n →
  (∀ x, (1 # 4194304 <= x)%Q → (x <= 1)%Q →
        (x * (1 - (1 # 16777216)) <= store x)%Q ∧
        (store x <= x * (1 + (1 # 16777216)))%Q) →
  Binary64.column_width W n = Some cw →
  Binary64.column_width_float W n = Some cwf →
  material_index f < Z.of_nat (length slots) →
  Py.getitem slots (material_index f) = Some (Some name) →
  Py.get mat_index_map name = Some i →
  loops f ≠ [] →
  ∃ f' f'',
    Binary64.remap_face slots mat_index_map W cw f = Some f' ∧
    (∀ uv, uv ∈ loops f' →
       let centre := ((inject_Z i + (1 # 2)) / inject_Z n)%Q in
       (centre * (1 - (1 # 281474976710656)) <= uv.1)%Q ∧
       (uv.1 <= centre * (1 + (1 # 281474976710656)))%Q ∧
       uv.2 = (1 # 2)%Q) ∧
    Binary64.unpack_face W n cwf (store_face store f') = Some f'' ∧
    material_index f'' = i.
Proof.
  intros HW Hn Hi Hstore Hcw Hcwf Hidx Hslot Hmap Hloops.
  destruct (column_width_spec W n HW Hn) as (cw' & Hcw' & Hwcw).
  rewrite Hcw in Hcw'. injection Hcw' as <-.
  destruct (u_center_spec W n i HW Hn Hi cw Hwcw) as (u & Hu & Hwu).
  set (centre := ((inject_Z i + (1 # 2)) / inject_Z n)%Q) in *.
  pose proof (nq_pos n Hn) as Hnq. pose proof (iq_nonneg n i Hi) as Hiq.
  assert (inject_Z i + 1 <= inject_Z n)%Q as Hin.
  { change 1%Q with (inject_Z 1).
    rewrite <- (inject_Z_plus i 1), <- Zle_Qle. lia. }
  assert (inject_Z n <= 1048576)%Q as Hn20.
  { change 1048576%Q with (inject_Z (2 ^ 20)). rewrite <- Zle_Qle. lia. }
  assert ((1 # 2097152) <= centre)%Q as Hc0
    by (apply Qle_shift_div_l; lra).
  assert (centre <= 1 - (1 # 2097152))%Q as Hc1
    by (apply Qle_shift_div_r; lra).
  assert (eps 10 <= 1 + (1 # 281474976710656))%Q as He
    by (apply Qle_bool_iff; vm_compute; reflexivity).
  assert (1 <= eps 10)%Q as He1 by (apply eps_nonneg; lia).
  destruct Hwu as (Hu0 & _ & Hu1 & Hu2).
  assert (centre * (1 - (1 # 281474976710656)) <= u)%Q as Hlo by nra.
  assert (u <= centre * (1 + (1 # 281474976710656)))%Q as Hhi by nra.
  destruct (Hstore u) as [Hs1 Hs2]; [lra|lra|].
  assert (within kappa (store u) centre) as Hnear.
  { apply (within_trans sigma (eps 10) (store u) u centre);
      [by vm_compute|lra| |].
    - by apply store_within.
    - unfold within. repeat split; [done|lra|done|done]. }
  exists {| material_index := material_index f;
            loops := (λ _, (u, (1 # 2)%Q)) <$> loops f |},
         {| material_index := i;
            loops := (λ uv : Q * Q, (store uv.1, store uv.2))
                       <$> ((λ _, (u, (1 # 2)%Q)) <$> loops f) |}.
  split; [|split; [|split; [|done]]].
  - unfold Binary64.remap_face. rewrite decide_True by done.
    rewrite Hslot. cbn [mbind option_bind]. rewrite Hmap, Hu. done.
  - cbn [loops]. intros uv Huv.
    apply list_elem_of_fmap in Huv as (? & -> & _). done.
  - unfold Binary64.unpack_face, store_face. cbn [loops material_index].
    destruct (loops f) as [|uv0 rest]; [done|]. cbn [fmap list_fmap fst].
    by rewrite (face_column_near W n i HW Hn Hi (store u) cwf Hnear Hcwf).
Qed.

Lemma remap_unpack_round_trip_witness :
  ∃ f' f'',
    Binary64.remap_face
      [Some "A"%string; Some "B"%string; Some "C"%string]
      [("A"%string, 0); ("B"%string, 1); ("C"%string, 2)] 1024
      (Binary64.double (1024 # 3))
      (mkFace 2 [(0, 0)%Q; (1, 0)%Q; (1, 1)%Q]) = Some f' ∧
    Binary64.unpack_face 1024 3 (Binary64.double (1024 # 3))
      (store_face Binary64.single f') = Some f'' ∧
    material_index f'' = 2.
Proof.
  destruct (remap_unpack_round_trip Binary64.single
    [Some "A"%string; Some "B"%string; Some "C"%string]
    [("A"%string, 0); ("B"%string, 1); ("C"%string, 2)] 1024 3 2
    (Binary64.double (1024 # 3)) (Binary64.double (1024 # 3))
    (mkFace 2 [(0, 0)%Q; (1, 0)%Q; (1, 1)%Q]) "C"%string)
    as (f' & f'' & H1 & _ & H2 & H3);
    [lia|lia|lia|intros x Hx0 Hx1; by apply single_error
    |vm_compute; reflexivity|vm_compute; reflexivity
    |simpl; lia|reflexivity|reflexivity|done|].
  exists f', f''. done.
Defined.

(** C2 (as stated) fails for large column counts. In binary64, with
    [2^53] columns on the atlas width 1024, the sum [u_min + u_max] for the
    column [i = 2^52 + 1] needs 54 bits and is rounded up, and the face comes
    back with index [i + 1]. *)
Lemma round_trip_breaks_in_binary64 :
  (cw ← Binary64.column_width 1024 (2 ^ 53);
   cwf ← Binary64.column_width_float 1024 (2 ^ 53);
   f' ← Binary64.remap_face [Some "M"%string]
          [("M"%string, 2 ^ 52 + 1)] 1024 cw (triangle 0);
   f'' ← Binary64.unpack_face 1024 (2 ^ 53) cwf f';
   Some (material_index f'')) = Some (2 ^ 52 + 2).
Proof. vm_compute. reflexivity. Qed.

(** ** Safety of the face reassignment *)

Lemma face_column_range (u : Q) (W n : Z) (cwf : Q) :
  1 ≤ n → 0 < W →
  Py.truediv (inject_Z W) (inject_Z n) = Some cwf →
  ∃ c, face_column u W n cwf = Some c ∧ 0 ≤ c < n.
Proof.
  intros Hn HW Hcw.
  pose proof (inject_Z_pos W HW) as HWq.
  pose proof (inject_Z_pos n ltac:(lia)) as Hnq.
  rewrite truediv_Some in Hcw by lra. injection Hcw as <-.
  assert (¬ (inject_Z W / inject_Z n == 0)%Q) as Hcw0.
  { intros Hz.
    assert (inject_Z W / inject_Z n * inject_Z n == inject_Z W)%Q as Hm
      by (field; lra).
    rewrite Hz in Hm. lra. }
  unfold face_column. rewrite floordiv_Some by exact Hcw0.
  cbn [mbind option_bind]. eexists. split; [done|].
  repeat case_decide; lia.
Qed.

(** ** The loop over the selected objects *)

Section map_for_each.
Context {X Y S : Type} (body : X → S → option (Y * S)).

Lemma map_for_each_Forall2 (R : X → Y → Prop) (xs : list X) (s : S)
    (ys : list Y) (s' : S) :
  (∀ x s y s', body x s = Some (y, s') → R x y) →
  Py.map_for_each body xs s = Some (ys, s') → Forall2 R xs ys.
Proof.
  intros HR. revert s ys. induction xs as [|x xs IH]; intros s ys; simpl.
  - intros [= <- <-]. constructor.
  - destruct (body x s) as [[y s1]|] eqn:Hb; [|done]. simpl.
    destruct (Py.map_for_each body xs s1) as [[ys1 s2]|] eqn:Hrest; [|done].
    simpl. intros [= <- <-]. constructor; eauto.
Qed.

Lemma map_for_each_inv (I : S → Prop) (R : X → Y → Prop) (xs : list X)
    (s : S) :
  I s →
  (∀ x s, x ∈ xs → I s → ∃ y s', body x s = Some (y, s') ∧ I s' ∧ R x y) →
  ∃ ys s', Py.map_for_each body xs s = Some (ys, s') ∧ I s' ∧ Forall2 R xs ys.
Proof.
  revert s. induction xs as [|x xs IH]; intros s HI Hstep; simpl.
  - exists [], s. split; [done|]. split; [done|]. constructor.
  - destruct (Hstep x s) as (y & s1 & -> & HI1 & HR); [left|done|]. simpl.
    destruct (IH s1 HI1) as (ys & s2 & -> & HI2 & HF).
    { intros x' s' Hx'. apply Hstep. by right. }
    simpl. exists (y :: ys), s2. split; [done|]. split; [done|].
    by constructor.
Qed.

Lemma map_for_each_post (I : S → Prop) (R : X → Y → Prop) (xs : list X)
    (s : S) (ys : list Y) (s' : S) :
  I s →
  (∀ x s y s', I s → body x s = Some (y, s') → I s' ∧ R x y) →
  Py.map_for_each body xs s = Some (ys, s') → I s' ∧ Forall2 R xs ys.
Proof.
  intros HI Hstep. revert s ys HI. induction xs as [|x xs IH];
    intros s ys HI; simpl.
  - intros [= <- <-]. done.
  - destruct (body x s) as [[y s1]|] eqn:Hbody; [|done]. simpl.
    destruct (Py.map_for_each body xs s1) as [[ys1 s2]|] eqn:Hrest; [|done].
    simpl. intros [= <- <-].
    destruct (Hstep x s y s1 HI Hbody) as [HI1 HR].
    destruct (IH s1 ys1 HI1 Hrest) as [HI2 Hall]. split; [done|].
    by constructor.
Qed.
End map_for_each.

(** ** The Create Atlas operator *)

Lemma remap_face_fields slots mat_index_map W cw (f f' : face) :
  remap_face slots mat_index_map W cw f = Some f' →
  material_index f' = material_index f ∧ length (loops f') = length (loops f).
Proof.
  unfold remap_face. intros H.
  repeat (case_match; simplify_option_eq); try done.
  simpl. by rewrite length_fmap.
Qed.

Lemma remap_uvs_fields (obj obj' : object) mat_index_map (W H : Z) :
  remap_uvs obj mat_index_map W H = Some obj' →
  obj_name obj' = obj_name obj ∧ obj_type obj' = obj_type obj ∧
  material_slots obj' = material_slots obj.
Proof.
  unfold remap_uvs. intros Hr.
  case_decide; simplify_option_eq; done.
Qed.

Lemma remap_face_succeeds slots mat_index_map (W : Z) (cw : Q) (f : face) :
  0 < W → 0 ≤ material_index f →
  is_Some (remap_face slots mat_index_map W cw f).
Proof.
  intros HW Hidx. unfold remap_face.
  pose proof (inject_Z_pos W HW).
  case_decide as Hlt; [|done].
  rewrite getitem_nonneg by lia.
  destruct (slots !! Z.to_nat (material_index f)) as [mat|] eqn:Hs.
  - cbn [mbind option_bind]. destruct mat as [name|]; [|done].
    destruct (Py.get mat_index_map name) as [i|]; [|done].
    rewrite !truediv_Some by lra. done.
  - apply lookup_ge_None in Hs. lia.
Qed.

Lemma remap_uvs_succeeds (obj : object) mat_index_map (W H : Z) :
  0 < W → Forall (λ f, 0 ≤ material_index f) (faces obj) →
  is_Some (remap_uvs obj mat_index_map W H).
Proof.
  intros HW Hfaces. unfold remap_uvs. case_decide as Hn; [done|].
  rewrite truediv_Some.
  2:{ assert (0 < Z.of_nat (length mat_index_map)) as Hpos by lia.
      apply inject_Z_pos in Hpos. lra. }
  cbn [mbind option_bind].
  destruct (mapM_is_Some_2
    (remap_face (material_slots obj) mat_index_map W
       (inject_Z W / inject_Z (Z.of_nat (length mat_index_map)))%Q)
    (faces obj)) as [faces' ->]; [|done].
  eapply Forall_impl; [exact Hfaces|]. intros f Hf. simpl.
  by apply remap_face_succeeds.
Qed.

Lemma convert_object_spec atlas_mat mat_index_map atlas (obj obj' : object)
    (om om' : Py.dict (list (option string))) :
  convert_object atlas_mat mat_index_map atlas obj om = Some (obj', om') →
  if decide (obj_type obj = "MESH") then
    om' = Py.set om (obj_name obj) (material_slots obj) ∧
    material_slots obj' = [Some atlas_mat] ∧
    obj_name obj' = obj_name obj ∧ obj_type obj' = obj_type obj
  else obj' = obj ∧ om' = om.
Proof.
  unfold convert_object. case_decide as Hmesh.
  - destruct (remap_uvs _ _ _ _) as [obj1|] eqn:Hr; [|done].
    apply remap_uvs_fields in Hr as (Hn & Ht & _).
    cbn [mbind option_bind]. intros [= <- <-]. simpl. done.
  - intros [= <- <-]. done.
Qed.

Lemma keys_length {V} (d : Py.dict V) : length (Py.keys d) = length d.
Proof. unfold Py.keys. apply length_fmap. Qed.

(** What a run that reaches step 6 has computed before its loop. *)
Lemma convert_execute_inv (w w' : world) :
  ConvertToEmissionAtlas_execute w = Some (FINISHED, w') →
  let materials := get_simple_emission_materials (data_materials w) in
  ∃ atlas,
    materials ≠ [] ∧
    create_texture_atlas (data_images w) materials 1024 256
      = Some (Some atlas, data_images w ++ [atlas]) ∧
    data_images w' = data_images w ++ [atlas] ∧
    data_materials w' = (create_atlas_material (data_materials w) atlas).2 ∧
    Py.map_for_each
      (convert_object (create_atlas_material (data_materials w) atlas).1
         (build_index_map materials) atlas)
      (selected_objects w) []
      = Some (selected_objects w', ORIGINAL_MATERIALS w').
Proof.
  intros Hrun materials. unfold ConvertToEmissionAtlas_execute in Hrun.
  fold materials in Hrun. case_decide as Hempty; [done|].
  destruct (create_texture_atlas_returns (data_images w) materials 1024 256)
    as (atlas & Hcreate).
  { rewrite keys_length. destruct materials; [done|]. simpl. lia. }
  rewrite Hcreate in Hrun. cbn [mbind option_bind] in Hrun.
  destruct (create_atlas_material (data_materials w) atlas)
    as [atlas_mat mats] eqn:Hmat.
  destruct (Py.map_for_each _ _ _) as [[objs om]|] eqn:Hloop; [|done].
  cbn [mbind option_bind] in Hrun. injection Hrun as <-.
  exists atlas. rewrite Hmat. simpl. done.
Qed.

(** The run finishes whenever some emission material exists and the faces
    carry valid (non-negative) slot numbers. *)
Lemma convert_finishes (w : world) :
  get_simple_emission_materials (data_materials w) ≠ [] →
  Forall (λ obj, Forall (λ f, 0 ≤ material_index f) (faces obj))
    (selected_objects w) →
  ∃ w', ConvertToEmissionAtlas_execute w = Some (FINISHED, w').
Proof.
  intros Hne Hfaces. unfold ConvertToEmissionAtlas_execute.
  set (materials := get_simple_emission_materials (data_materials w)) in *.
  rewrite decide_False by done.
  destruct (create_texture_atlas_returns (data_images w) materials 1024 256)
    as (atlas & Hcreate).
  { rewrite keys_length. destruct materials; [done|]. simpl. lia. }
  pose proof (create_texture_atlas_name _ _ _ _ _ _ Hcreate)
    as (_ & _ & Hsize).
  rewrite Hcreate.
  cbn [mbind option_bind].
  destruct (create_atlas_material (data_materials w) atlas)
    as [atlas_mat mats] eqn:Hmat.
  destruct (map_for_each_inv
    (convert_object atlas_mat (build_index_map materials) atlas)
    (λ _, True) (λ _ _, True) (selected_objects w) [])
    as (objs & om & -> & _); [done| |].
  - intros obj om Hobj _. unfold convert_object.
    case_decide; [|eauto].
    destruct (remap_uvs_succeeds obj (build_index_map materials)
      (img_size atlas).1 (img_size atlas).2) as [obj1 ->].
    { rewrite Hsize. simpl. lia. }
    { by eapply Forall_forall in Hfaces. }
    cbn [mbind option_bind]. eauto.
  - cbn [mbind option_bind]. eauto.
Qed.

(** The loop of step 6 keeps every object's name and type. *)
Lemma convert_objects_names atlas_mat mat_index_map atlas
    (objs objs' : list object) (om om' : Py.dict (list (option string))) :
  Py.map_for_each (convert_object atlas_mat mat_index_map atlas) objs om
    = Some (objs', om') →
  Forall2 (λ obj obj',
    obj_name obj' = obj_name obj ∧ obj_type obj' = obj_type obj) objs objs'.
Proof.
  apply map_for_each_Forall2.
  intros obj om1 obj' om2 Hstep. apply convert_object_spec in Hstep.
  case_decide; [|by destruct Hstep as [-> _]].
  by destruct Hstep as (_ & _ & ? & ?).
Qed.

(** C6. After a successful run of the Create Atlas operator, every selected
    object of type MESH has exactly one material slot; it holds the atlas
    material created by this run (a name that was not in
    [bpy.data.materials] before, bound to the material whose image texture is
    the new atlas image), the same for all of them; every selected object of
    another type is unchanged. *)
Theorem convert_assigns_atlas (w w' : world) :
  ConvertToEmissionAtlas_execute w = Some (FINISHED, w') →
  ∃ atlas_mat mat atlas,
    (atlas_mat ∉ material_names (data_materials w)) ∧
    find_material (data_materials w') atlas_mat = Some mat ∧
    is_atlas_material (img_name atlas) mat ∧
    (img_name atlas ∉ image_names (data_images w)) ∧
    data_images w' = data_images w ++ [atlas] ∧
    Forall2 (λ obj obj',
      if decide (obj_type obj = "MESH") then
        material_slots obj' = [Some atlas_mat] ∧
        obj_name obj' = obj_name obj ∧ obj_type obj' = obj_type obj
      else obj' = obj) (selected_objects w) (selected_objects w').
Proof.
  intros Hrun.
  destruct (convert_execute_inv w w' Hrun)
    as (atlas & _ & Hcreate & Himgs & Hmats & Hloop).
  apply create_texture_atlas_name in Hcreate as (Hfresh & _).
  set (atlas_mat :=
    unique_name "AtlasMaterial" (material_names (data_materials w))).
  pose proof (unique_name_fresh "AtlasMaterial"
    (material_names (data_materials w))) as Hnew.
  eexists atlas_mat, _, atlas.
  split; [exact Hnew|]. split.
  { rewrite Hmats. unfold create_atlas_material. cbn [snd].
    apply (find_material_app_new (data_materials w)
      (mkMaterial atlas_mat true _ _)). exact Hnew. }
  split; [done|]. split; [exact Hfresh|]. split; [exact Himgs|].
  eapply map_for_each_Forall2; [|exact Hloop].
  intros obj om obj' om' Hstep. apply convert_object_spec in Hstep.
  case_decide; [|tauto]. destruct Hstep as (_ & ? & ? & ?). done.
Qed.

(** ** The revert map *)

Lemma convert_objects_originals atlas_mat mat_index_map atlas
    (objs objs' : list object) (om om' : Py.dict (list (option string))) :
  NoDup (obj_name <$> objs) →
  (∀ o, o ∈ objs → obj_name o ∉ Py.keys om) →
  Py.map_for_each (convert_object atlas_mat mat_index_map atlas) objs om
    = Some (objs', om') →
  om' = om ++ ((λ o, (obj_name o, material_slots o))
                 <$> filter (λ o, obj_type o = "MESH") objs).
Proof.
  revert objs' om. induction objs as [|o objs IH]; intros objs' om Hnd Hkeys.
  - simpl. intros [= <- <-]. by rewrite app_nil_r.
  - simpl. destruct (convert_object _ _ _ o om) as [[o' om1]|] eqn:Hstep;
      [|done]. cbn [mbind option_bind].
    destruct (Py.map_for_each _ objs om1) as [[objs1 om2]|] eqn:Hrest; [|done].
    cbn [mbind option_bind]. intros [= <- <-].
    rewrite fmap_cons in Hnd. apply NoDup_cons in Hnd as [Hhd Hnd].
    apply convert_object_spec in Hstep.
    rewrite filter_cons. case_decide as Hmesh.
    + destruct Hstep as (-> & _).
      rewrite dict_set_new in Hrest by (apply Hkeys; left).
      apply IH in Hrest; [|done|].
      * rewrite Hrest, fmap_cons, <- app_assoc. done.
      * intros o2 Ho2. unfold Py.keys. rewrite fmap_app, elem_of_app.
        intros [Hin|Hin].
        -- eapply Hkeys; [right; exact Ho2|exact Hin].
        -- simpl in Hin. apply list_elem_of_singleton in Hin.
           apply Hhd. rewrite <- Hin. apply list_elem_of_fmap. eauto.
    + destruct Hstep as (_ & ->).
      apply IH in Hrest; [done|done|].
      intros o2 Ho2. apply Hkeys. by right.
Qed.

Lemma restore_slots_filter (materials : list material)
    (mat_list : list (option string)) :
  restore_slots materials mat_list
    = filter (slot_restorable materials) mat_list.
Proof.
  unfold restore_slots.
  enough (∀ acc, foldl (λ slots mat,
    match mat with
    | Some name =>
        if decide (name ∈ material_names materials) then slots ++ [Some name]
        else slots
    | None => slots
    end) acc mat_list = acc ++ filter (slot_restorable materials) mat_list)
    as Hgen by apply (Hgen []).
  induction mat_list as [|mat l IH]; intros acc; simpl.
  - by rewrite app_nil_r.
  - rewrite IH, filter_cons. destruct mat as [name|]; simpl.
    + case_decide; [by rewrite <- app_assoc|done].
    + done.
Qed.

Lemma revert_object_spec (materials : list material)
    (originals : Py.dict (list (option string))) (obj : object) :
  reverted_from materials originals obj
    (revert_object materials originals obj).
Proof.
  unfold reverted_from, revert_object.
  destruct (Py.get originals (obj_name obj)) as [mat_list|]; [|done].
  case_decide; [|done]. simpl. by rewrite restore_slots_filter.
Qed.

Lemma revert_execute_spec (w : world) :
  Forall2 (reverted_from (data_materials w) (ORIGINAL_MATERIALS w))
    (selected_objects w) (selected_objects (RevertEmissionAtlas_execute w).2).
Proof.
  unfold RevertEmissionAtlas_execute. case_decide as Hempty; simpl.
  - apply Forall2_same_length_lookup. split; [done|].
    intros i obj obj' Hobj Hobj'. rewrite Hobj in Hobj'. injection Hobj' as <-.
    unfold reverted_from. by rewrite Hempty.
  - apply Forall2_fmap_r, Forall_Forall2_diag, Forall_forall.
    intros obj _. apply revert_object_spec.
Qed.

Lemma dict_get_elem_of {V} (d : Py.dict V) (k : string) (v : V) :
  NoDup (Py.keys d) → (k, v) ∈ d → Py.get d k = Some v.
Proof.
  unfold Py.keys. induction d as [|[k' v'] d IH]; intros Hnd Hin.
  - by apply elem_of_nil in Hin.
  - rewrite fmap_cons in Hnd. apply NoDup_cons in Hnd as [Hhd Hnd].
    simpl. apply elem_of_cons in Hin as [[= <- <-]|Hin].
    + by rewrite decide_True.
    + rewrite decide_False; [by apply IH|].
      intros ->. apply Hhd. apply list_elem_of_fmap. by exists (k, v).
Qed.

(** *** Selections whose objects share mesh data *)

Lemma selected_meshes_cons (o : linked) (objs : list linked) :
  selected_meshes (o :: objs)
  = if decide (lk_type o = "MESH") then o :: selected_meshes objs
    else selected_meshes objs.
Proof. unfold selected_meshes. by rewrite filter_cons. Qed.

Lemma slots_of_set (meshes : Py.dict mesh) (d : string) (m : mesh)
    (o : linked) :
  slots_of (Py.set meshes d m) o
  = if decide (d = lk_data o) then mesh_materials m else slots_of meshes o.
Proof.
  unfold slots_of. case_decide as Hd.
  - subst d. by rewrite dict_get_set_eq.
  - by rewrite dict_get_set_ne.
Qed.

Lemma convert_linked_spec atlas_mat mat_index_map atlas (o : linked)
    (meshes meshes' : Py.dict mesh)
    (om om' : Py.dict (list (option string))) :
  convert_linked atlas_mat mat_index_map atlas o (meshes, om)
    = Some (meshes', om') →
  if decide (lk_type o = "MESH") then
    ∃ m faces',
      Py.get meshes (lk_data o) = Some m ∧
      om' = Py.set om (lk_name o) (mesh_materials m) ∧
      meshes' = Py.set meshes (lk_data o)
                  {| mesh_materials := [Some atlas_mat];
                     mesh_faces := faces' |}
  else meshes' = meshes ∧ om' = om.
Proof.
  unfold convert_linked, view, write_back. cbn [fst snd].
  case_decide as Hmesh; [|by intros [= <- <-]].
  destruct (Py.get meshes (lk_data o)) as [m|]; [|done].
  cbn [mbind option_bind].
  destruct (convert_object _ _ _ _ om) as [[obj' om1]|] eqn:Hstep; [|done].
  cbn [mbind option_bind]. intros [= <- <-].
  apply convert_object_spec in Hstep. cbn [obj_type obj_name] in Hstep.
  rewrite decide_True in Hstep by done.
  destruct Hstep as (-> & Hslots & _). cbn [material_slots] in *.
  exists m, (faces obj'). by rewrite Hslots.
Qed.

(** The loop of step 6 over a selection in which no two meshes share their
    data and no two objects their name. *)
Lemma convert_linked_loop atlas_mat mat_index_map atlas
    (objs : list linked) (meshes meshes' : Py.dict mesh)
    (om om' : Py.dict (list (option string))) :
  NoDup (lk_name <$> objs) →
  NoDup (lk_data <$> selected_meshes objs) →
  (∀ o, o ∈ objs → lk_name o ∉ Py.keys om) →
  Py.for_each objs (convert_linked atlas_mat mat_index_map atlas)
    (meshes, om) = Some (meshes', om') →
  om' = om ++ ((λ o, (lk_name o, slots_of meshes o))
                 <$> selected_meshes objs) ∧
  (∀ o, o ∈ selected_meshes objs →
     slots_of meshes' o = [Some atlas_mat] ∧
     is_Some (Py.get meshes' (lk_data o))) ∧
  (∀ d, d ∉ lk_data <$> selected_meshes objs →
     Py.get meshes' d = Py.get meshes d).
Proof.
  revert meshes om. induction objs as [|o objs IH];
    intros meshes om Hnames Hdata Hkeys.
  - simpl. intros [= <- <-]. rewrite app_nil_r. split; [done|].
    split; [|done]. intros o Ho. by apply elem_of_nil in Ho.
  - cbn [Py.for_each].
    destruct (convert_linked _ _ _ o (meshes, om)) as [[meshes1 om1]|]
      eqn:Hstep; [|done].
    cbn [mbind option_bind]. intros Hrest.
    apply convert_linked_spec in Hstep.
    rewrite fmap_cons in Hnames. apply NoDup_cons in Hnames as [Hhd Hnames].
    rewrite selected_meshes_cons in *.
    destruct (decide (lk_type o = "MESH")) as [Hmesh|Hmesh].
    + destruct Hstep as (m & faces' & Hm & -> & ->).
      rewrite fmap_cons in Hdata. apply NoDup_cons in Hdata as [Hd Hdata].
      rewrite (dict_set_new om) in Hrest by (apply Hkeys; left).
      apply IH in Hrest as (Hom & Hslots & Hframe); [|done|done|].
      2:{ intros o2 Ho2. unfold Py.keys. rewrite fmap_app, elem_of_app.
          intros [Hin|Hin].
          - eapply Hkeys; [right; exact Ho2|exact Hin].
          - simpl in Hin. apply list_elem_of_singleton in Hin.
            apply Hhd. rewrite <- Hin. apply list_elem_of_fmap. eauto. }
      assert (∀ o2, o2 ∈ selected_meshes objs → lk_data o ≠ lk_data o2)
        as Hother.
      { intros o2 Ho2 Heq. apply Hd. rewrite Heq.
        apply list_elem_of_fmap. eauto. }
      split; [|split].
      * rewrite Hom, fmap_cons, <- app_assoc. cbn [app]. do 2 f_equal.
        { unfold slots_of. by rewrite Hm. }
        apply list_fmap_ext. intros k o2 Ho2. f_equal.
        rewrite slots_of_set, decide_False; [done|].
        apply Hother. by eapply list_elem_of_lookup_2.
      * intros o2 Ho2. apply elem_of_cons in Ho2 as [->|Ho2].
        -- unfold slots_of. rewrite Hframe by done.
           rewrite dict_get_set_eq. split; [done|eauto].
        -- by apply Hslots.
      * intros d Hnot. apply not_elem_of_cons in Hnot as [Hne Hnot].
        rewrite Hframe by done. by rewrite dict_get_set_ne.
    + destruct Hstep as (-> & ->).
      apply IH in Hrest; [done|done|done|].
      intros o2 Ho2. apply Hkeys. by right.
Qed.

Lemma convert_linked_inv (s s' : scene) :
  ConvertToEmissionAtlas_linked s = Some (FINISHED, s') →
  let materials := get_simple_emission_materials (sc_materials s) in
  ∃ atlas,
    sc_materials s' = (create_atlas_material (sc_materials s) atlas).2 ∧
    sc_selected s' = sc_selected s ∧
    Py.for_each (sc_selected s)
      (convert_linked (create_atlas_material (sc_materials s) atlas).1
         (build_index_map materials) atlas)
      (sc_meshes s, []) = Some (sc_meshes s', sc_originals s').
Proof.
  unfold ConvertToEmissionAtlas_linked. case_decide; [done|].
  destruct (create_texture_atlas _ _ _ _) as [[[atlas|] images]|]; [|done..].
  cbn [mbind option_bind].
  destruct (create_atlas_material (sc_materials s) atlas)
    as [atlas_mat mats] eqn:Hmat.
  destruct (Py.for_each _ _ _) as [[meshes om]|] eqn:Hloop; [|done].
  cbn [mbind option_bind]. intros [= <-]. exists atlas.
  rewrite Hmat. done.
Qed.

Lemma remap_uvs_indices (obj obj' : object) mat_index_map (W H : Z) :
  remap_uvs obj mat_index_map W H = Some obj' →
  Forall (λ f, 0 ≤ material_index f) (faces obj) →
  Forall (λ f, 0 ≤ material_index f) (faces obj').
Proof.
  unfold remap_uvs. case_decide; [by intros [= <-]|].
  destruct (Py.truediv _ _) as [cw|]; [|done]. cbn [mbind option_bind].
  destruct (mapM _ (faces obj)) as [faces'|] eqn:Hmap; [|done].
  cbn [mbind option_bind]. intros [= <-]. cbn [faces].
  apply mapM_Some_1 in Hmap. intros Hfaces.
  induction Hmap as [|f f' l l' Hf _ IH]; [done|].
  apply Forall_cons in Hfaces as [Hf0 Hfaces].
  apply remap_face_fields in Hf as [Hidx _].
  constructor; [lia|by apply IH].
Qed.

(** The operator finishes when there is an emission material, every
    selected mesh has its datablock and no face has a negative index. *)
Lemma convert_linked_finishes (s : scene) :
  get_simple_emission_materials (sc_materials s) ≠ [] →
  (∀ o, o ∈ selected_meshes (sc_selected s) →
        is_Some (Py.get (sc_meshes s) (lk_data o))) →
  (∀ d m, Py.get (sc_meshes s) d = Some m →
          Forall (λ f, 0 ≤ material_index f) (mesh_faces m)) →
  ∃ s', ConvertToEmissionAtlas_linked s = Some (FINISHED, s').
Proof.
  intros Hne Hdata Hfaces. unfold ConvertToEmissionAtlas_linked.
  set (materials := get_simple_emission_materials (sc_materials s)) in *.
  rewrite decide_False by done.
  destruct (create_texture_atlas_returns (sc_images s) materials 1024 256)
    as (atlas & Hcreate).
  { rewrite keys_length. destruct materials; [done|]. simpl. lia. }
  pose proof (create_texture_atlas_name _ _ _ _ _ _ Hcreate)
    as (_ & _ & Hsize).
  rewrite Hcreate. cbn [mbind option_bind].
  destruct (create_atlas_material (sc_materials s) atlas)
    as [atlas_mat mats] eqn:Hmat.
  enough (∀ objs meshes om,
    (∀ o, o ∈ selected_meshes objs →
          is_Some (Py.get meshes (lk_data o))) →
    (∀ d m, Py.get meshes d = Some m →
            Forall (λ f, 0 ≤ material_index f) (mesh_faces m)) →
    is_Some (Py.for_each objs
      (convert_linked atlas_mat (build_index_map materials) atlas)
      (meshes, om))) as Hloop.
  { destruct (Hloop (sc_selected s) (sc_meshes s) [] Hdata Hfaces)
      as [[meshes om] Hrun].
    destruct (Py.for_each _ _ _) as [[meshes1 om1]|] eqn:Hgoal.
    - cbn [mbind option_bind]. eauto.
    - first [discriminate Hrun
            |pose proof (eq_trans (eq_sym Hgoal) Hrun) as Hc;
             discriminate Hc]. }
  clear Hdata Hfaces. induction objs as [|o objs IH];
    intros meshes om Hdata Hfaces; [done|].
  cbn [Py.for_each]. rewrite selected_meshes_cons in Hdata.
  assert (∃ meshes1 om1,
    convert_linked atlas_mat (build_index_map materials) atlas o (meshes, om)
      = Some (meshes1, om1) ∧
    (∀ o2, o2 ∈ selected_meshes objs →
           is_Some (Py.get meshes1 (lk_data o2))) ∧
    (∀ d m, Py.get meshes1 d = Some m →
            Forall (λ f, 0 ≤ material_index f) (mesh_faces m)))
    as (meshes1 & om1 & -> & Hdata1 & Hfaces1).
  { unfold convert_linked. cbn [fst snd].
    destruct (decide (lk_type o = "MESH")) as [Hmesh|Hmesh].
    - destruct (Hdata o ltac:(left)) as [m Hm].
      unfold view. rewrite Hm. cbn [mbind option_bind].
      unfold convert_object. cbn [obj_type]. rewrite decide_True by done.
      set (obj := {| obj_name := lk_name o; obj_type := lk_type o;
                     material_slots := mesh_materials m;
                     faces := mesh_faces m |}).
      destruct (remap_uvs_succeeds obj (build_index_map materials)
        (img_size atlas).1 (img_size atlas).2) as [obj1 Hobj1].
      { rewrite Hsize. simpl. lia. }
      { by eapply Hfaces. }
      rewrite Hobj1. cbn [mbind option_bind]. eexists _, _.
      split; [done|]. split.
      + intros o2 Ho2. unfold write_back.
        destruct (decide (lk_data o = lk_data o2)) as [->|Hd].
        * rewrite dict_get_set_eq. eauto.
        * rewrite dict_get_set_ne by done. apply Hdata. by right.
      + intros d m' Hget. unfold write_back in Hget.
        destruct (decide (lk_data o = d)) as [<-|Hd].
        * rewrite dict_get_set_eq in Hget. injection Hget as <-.
          cbn [mesh_faces faces].
          eapply remap_uvs_indices; [exact Hobj1|]. by eapply Hfaces.
        * rewrite dict_get_set_ne in Hget by done. by eapply Hfaces.
    - exists meshes, om. split; [done|]. split; [|done].
      intros o2 Ho2. by apply Hdata. }
  cbn [mbind option_bind]. by apply IH.
Qed.


(** The Revert loop over a selection in which no two meshes share their
    data. *)
Lemma revert_linked_loop (materials : list material)
    (originals : Py.dict (list (option string))) (objs : list linked)
    (meshes : Py.dict mesh) :
  NoDup (lk_data <$> selected_meshes objs) →
  (∀ o, o ∈ selected_meshes objs → is_Some (Py.get meshes (lk_data o))) →
  ∃ meshes',
    Py.for_each objs (revert_linked materials originals) meshes
      = Some meshes' ∧
    (∀ o mat_list,
       o ∈ selected_meshes objs →
       Py.get originals (lk_name o) = Some mat_list →
       slots_of meshes' o = filter (slot_restorable materials) mat_list) ∧
    (∀ d, d ∉ lk_data <$> selected_meshes objs →
       Py.get meshes' d = Py.get meshes d).
Proof.
  revert meshes. induction objs as [|o objs IH]; intros meshes Hdata Hhas.
  - exists meshes. split; [done|]. split; [|done].
    intros o ml Ho. by apply elem_of_nil in Ho.
  - cbn [Py.for_each]. rewrite selected_meshes_cons in *.
    destruct (decide (lk_type o = "MESH")) as [Hmesh|Hmesh].
    + rewrite fmap_cons in Hdata. apply NoDup_cons in Hdata as [Hd Hdata].
      assert (∀ o2, o2 ∈ selected_meshes objs → lk_data o ≠ lk_data o2)
        as Hother.
      { intros o2 Ho2 Heq. apply Hd. rewrite Heq.
        apply list_elem_of_fmap. eauto. }
      destruct (Py.get originals (lk_name o)) as [mat_list|] eqn:Hml.
      * destruct (Hhas o ltac:(left)) as [m Hm].
        set (obj := {| obj_name := lk_name o; obj_type := lk_type o;
                       material_slots := mesh_materials m;
                       faces := mesh_faces m |}).
        set (meshes1 :=
          write_back meshes o (revert_object materials originals obj)).
        assert (revert_linked materials originals o meshes = Some meshes1)
          as ->.
        { unfold revert_linked, view.
          by rewrite Hml, decide_True, Hm by done. }
        cbn [mbind option_bind].
        destruct (IH meshes1 Hdata) as (meshes' & Hrun & Hslots & Hframe).
        { intros o2 Ho2. unfold meshes1, write_back.
          rewrite dict_get_set_ne by (by apply Hother).
          apply Hhas. by right. }
        exists meshes'. split; [done|]. split.
        -- intros o2 ml2 Ho2 Hml2.
           apply elem_of_cons in Ho2 as [->|Ho2]; [|by eapply Hslots].
           unfold slots_of. rewrite Hframe by done.
           unfold meshes1, write_back. rewrite dict_get_set_eq.
           cbn [fmap option_fmap option_map default mesh_materials].
           unfold revert_object, obj. cbn [obj_name obj_type].
           rewrite Hml, decide_True by done. cbn [material_slots].
           rewrite Hml in Hml2. injection Hml2 as <-.
           apply restore_slots_filter.
        -- intros d Hnot. apply not_elem_of_cons in Hnot as [Hne Hnot].
           rewrite Hframe by done. unfold meshes1, write_back.
           by rewrite dict_get_set_ne.
      * assert (revert_linked materials originals o meshes = Some meshes)
          as -> by (unfold revert_linked; by rewrite Hml).
        cbn [mbind option_bind].
        destruct (IH meshes Hdata) as (meshes' & Hrun & Hslots & Hframe).
        { intros o2 Ho2. apply Hhas. by right. }
        exists meshes'. split; [done|]. split.
        -- intros o2 ml2 Ho2 Hml2.
           apply elem_of_cons in Ho2 as [->|Ho2]; [congruence|].
           by eapply Hslots.
        -- intros d Hnot. apply not_elem_of_cons in Hnot as [_ Hnot].
           by apply Hframe.
    + assert (revert_linked materials originals o meshes = Some meshes)
        as ->.
      { unfold revert_linked. destruct (Py.get _ _); [|done].
        by rewrite decide_False. }
      cbn [mbind option_bind]. by apply IH.
Qed.

(** Reverting right after a finished run, on the shared store. *)
Lemma revert_after_convert_linked (s s' : scene) :
  NoDup (lk_name <$> sc_selected s) →
  NoDup (lk_data <$> selected_meshes (sc_selected s)) →
  ConvertToEmissionAtlas_linked s = Some (FINISHED, s') →
  ∃ st s'',
    RevertEmissionAtlas_linked s' = Some (st, s'') ∧
    ∀ o, o ∈ selected_meshes (sc_selected s) →
      slots_of (sc_meshes s'') o
        = filter (slot_restorable (sc_materials s'))
            (slots_of (sc_meshes s) o).
Proof.
  intros Hnames Hdata Hrun.
  destruct (convert_linked_inv s s' Hrun) as (atlas & _ & Hsel & Hloop).
  destruct (convert_linked_loop _ _ _ (sc_selected s) (sc_meshes s)
    (sc_meshes s') [] (sc_originals s') Hnames Hdata
    ltac:(intros; apply not_elem_of_nil) Hloop) as (Hom & Hslots & _).
  cbn [app] in Hom.
  unfold RevertEmissionAtlas_linked. rewrite Hsel.
  destruct (revert_linked_loop (sc_materials s') (sc_originals s')
    (sc_selected s) (sc_meshes s') Hdata)
    as (meshes'' & Hrev & Hrestored & _).
  { intros o Ho. by apply Hslots. }
  assert (∀ o, o ∈ selected_meshes (sc_selected s) →
    Py.get (sc_originals s') (lk_name o) = Some (slots_of (sc_meshes s) o))
    as Hremembered.
  { intros o Ho. apply dict_get_elem_of.
    - rewrite Hom. unfold Py.keys. rewrite <- list_fmap_compose.
      unfold selected_meshes.
      eapply (NoDup_fmap_2_strong _ (filter _ (sc_selected s))).
      + intros o1 o2 Ho1 Ho2 Heq. simpl in Heq.
        apply list_elem_of_filter in Ho1 as [_ Ho1].
        apply list_elem_of_filter in Ho2 as [_ Ho2].
        apply list_elem_of_lookup in Ho1 as [i1 Hi1].
        apply list_elem_of_lookup in Ho2 as [i2 Hi2].
        assert (i1 = i2) as ->.
        { eapply NoDup_lookup; [exact Hnames|..].
          - rewrite list_lookup_fmap, Hi1. done.
          - rewrite list_lookup_fmap, Hi2. simpl. by rewrite Heq. }
        congruence.
      + apply NoDup_filter. eapply NoDup_fmap_1. exact Hnames.
    - rewrite Hom. apply list_elem_of_fmap. by exists o. }
  case_decide as Hempty.
  - exists CANCELLED, s'. split; [done|]. intros o Ho.
    rewrite Hempty in Hom. symmetry in Hom. apply fmap_nil_inv in Hom.
    rewrite Hom in Ho. by apply elem_of_nil in Ho.
  - rewrite Hrev. cbn [mbind option_bind]. eexists _, _. split; [done|].
    cbn [sc_meshes]. intros o Ho. apply Hrestored; [done|].
    by apply Hremembered.
Qed.


Lemma two_color_scene_finishes :
  ∃ w', ConvertToEmissionAtlas_execute two_color_scene = Some (FINISHED, w').
Proof.
  apply convert_finishes.
  - vm_compute. discriminate.
  - repeat constructor; vm_compute; discriminate.
Qed.

Lemma convert_assigns_atlas_witness :
  ∃ w' atlas_mat,
    ConvertToEmissionAtlas_execute two_color_scene = Some (FINISHED, w') ∧
    (material_slots <$> selected_objects w') = [[Some atlas_mat]; []].
Proof.
  destruct two_color_scene_finishes as [w' Hrun].
  destruct (convert_assigns_atlas two_color_scene w' Hrun)
    as (atlas_mat & mat & atlas' & _ & _ & _ & _ & _ & Hobjs).
  exists w', atlas_mat. split; [exact Hrun|].
  simpl in Hobjs.
  apply Forall2_cons_inv_l in Hobjs as (o1 & r1 & H1 & Hobjs & Hw').
  apply Forall2_cons_inv_l in Hobjs as (o2 & r2 & H2 & Hobjs & ->).
  apply Forall2_nil_inv_l in Hobjs as ->.
  rewrite decide_True in H1 by done. rewrite decide_False in H2 by done.
  destruct H1 as (H1 & _). rewrite Hw'. simpl. rewrite H1. subst o2. done.
Defined.

Lemma linked_scene_finishes :
  ∃ s', ConvertToEmissionAtlas_linked linked_scene = Some (FINISHED, s').
Proof.
  apply convert_linked_finishes.
  - vm_compute. discriminate.
  - intros o Ho. vm_compute in Ho.
    apply list_elem_of_singleton in Ho as ->. by eexists.
  - intros d m Hget. cbn in Hget. case_decide; [|done].
    injection Hget as <-. repeat constructor; vm_compute; discriminate.
Qed.



(** ** The Unpack operator: sampling the columns *)

Lemma center_x_eq (i cw : Z) :
  0 ≤ i → 0 ≤ cw → center_x i cw = ((2 * i + 1) * cw) `div` 2.
Proof.
  intros Hi Hcw. unfold center_x, Py.int_of_float. simpl.
  rewrite Z.quot_div_nonneg by nia. f_equal. lia.
Qed.

Lemma center_x_in_column (i cw : Z) :
  0 ≤ i → 0 < cw → i * cw ≤ center_x i cw < (i + 1) * cw.
Proof.
  intros Hi Hcw. rewrite center_x_eq by lia.
  pose proof (Z.div_mod ((2 * i + 1) * cw) 2 ltac:(lia)).
  pose proof (Z.mod_pos_bound ((2 * i + 1) * cw) 2 ltac:(lia)). nia.
Qed.

Lemma center_x_in_image (W n i : Z) :
  0 < W → 1 ≤ n → 0 ≤ i < n → 0 ≤ center_x i (W `div` n) < W.
Proof.
  intros HW Hn Hi.
  pose proof (Z.div_pos W n ltac:(lia) ltac:(lia)) as Hcw.
  pose proof (column_width_fits W n ltac:(lia)) as Hfit.
  unfold column_width in Hfit.
  destruct (decide (W `div` n = 0)) as [->|Hpos].
  - rewrite center_x_eq by lia. rewrite Z.mul_0_r, Z.div_0_l by lia. lia.
  - pose proof (center_x_in_column i (W `div` n) ltac:(lia) ltac:(lia)). nia.
Qed.

Lemma wf_buf_ok (img : image) :
  img_wf img →
  buf_ok (img_size img).1 (img_size img).2
    (λ x y c, default 0%Q
       (img_pixels img !! Z.to_nat (px_index (img_size img).1 0 x y + c)))
    (img_pixels img).
Proof.
  intros (HW & HH & Hlen). split; [done|].
  intros x y c Hx Hy Hc.
  pose proof (px_index_bound _ _ x y c Hx Hy Hc) as Hb.
  destruct (lookup_lt_is_Some_2 (img_pixels img)
    (Z.to_nat (px_index (img_size img).1 0 x y + c))) as [q ->]; [lia|done].
Qed.

Lemma buf_ok_sample_rgb (W H : Z) f buf (x y : Z) :
  buf_ok W H f buf → 0 ≤ x < W → 0 ≤ y < H →
  sample_rgb buf (px_index W 0 x y) = Some (f x y 0, f x y 1, f x y 2).
Proof.
  intros [Hlen Hf] Hx Hy. unfold sample_rgb.
  rewrite !getitem_nonneg by (rewrite Hlen; apply px_index_bound; lia).
  rewrite !Hf by lia. done.
Qed.

Lemma column_sample_is_Some (img : image) (n i : Z) :
  img_wf img → 1 ≤ n → 0 ≤ i < n → is_Some (column_sample img n i).
Proof.
  intros Hwf Hn Hi. pose proof Hwf as (HW & HH & _).
  unfold column_sample.
  erewrite buf_ok_sample_rgb; [done|by apply wf_buf_ok|..].
  - by apply center_x_in_image.
  - split; [apply Z.div_pos; lia|apply Z.div_lt_upper_bound; lia].
Qed.

Lemma unpacked_name_inj (i j : Z) : unpacked_name i = unpacked_name j → i = j.
Proof.
  unfold unpacked_name. intros H.
  apply (inj (String.app "UnpackedAtlasColor_")) in H.
  by apply (inj pretty) in H.
Qed.

Lemma material_names_app (l1 l2 : list material) :
  material_names (l1 ++ l2) = material_names l1 ++ material_names l2.
Proof. unfold material_names. apply fmap_app. Qed.

Lemma regenerate_materials_ok (materials : list material)
    (atlas_image : image) (n : Z) :
  img_wf atlas_image → 1 ≤ n →
  ∃ st, regenerate_materials materials atlas_image n = Some st ∧
    regenerated materials atlas_image n n st.
Proof.
  intros Hwf Hn. unfold regenerate_materials.
  destruct (for_each_inv
    (λ k, regenerated materials atlas_image n (Z.of_nat k))
    (Py.range n)
    (λ i '(new_mats, materials),
       color ← sample_rgb (img_pixels atlas_image)
         (((img_size atlas_image).2 `div` 2 * (img_size atlas_image).1
           + center_x i ((img_size atlas_image).1 `div` n)) * 4);
       if decide (unpacked_name i ∈ material_names materials) then
         Some (new_mats ++ [unpacked_name i], materials)
       else
         let '(new_mat, materials) :=
           create_single_color_emission_material materials
             (unpacked_name i) color in
         Some (new_mats ++ [new_mat], materials))
    ([], materials)) as (st & Hrun & Hpost).
  - split; [done|]. split; [done|]. split; [by left|]. intros j Hj. lia.
  - intros k i [new_mats mats] Hk (Hnames & Hold & Hdom & Hnew).
    apply range_lookup in Hk as [-> Hk]. simpl in Hnames, Hold, Hdom, Hnew.
    destruct (column_sample_is_Some atlas_image n (Z.of_nat k) Hwf Hn)
      as [color Hcolor]; [lia|].
    pose proof Hcolor as Hsample. unfold column_sample, px_index in Hsample.
    rewrite Z.add_0_l in Hsample. rewrite Hsample. cbn [mbind option_bind].
    assert (Py.range (Z.of_nat (S k))
            = Py.range (Z.of_nat k) ++ [Z.of_nat k]) as Hrange.
    { unfold Py.range. rewrite seqZ_S. done. }
    case_decide as Hin.
    + eexists. split; [done|]. split; [|split; [|split]]; simpl.
      * rewrite Hrange, fmap_app, Hnames. done.
      * done.
      * intros name Hname. destruct (Hdom name Hname) as [?|(j & ? & ?)];
          [by left|right; exists j; split; [lia|done]].
      * intros j Hj Hfresh. destruct (decide (j = Z.of_nat k)) as [->|Hne].
        -- destruct (Hdom _ Hin) as [?|(j' & Hj' & Heq)]; [done|].
           apply unpacked_name_inj in Heq. lia.
        -- apply Hnew; [lia|done].
    + unfold create_single_color_emission_material.
      rewrite unique_name_free by done.
      eexists. split; [done|]. split; [|split; [|split]]; simpl.
      * rewrite Hrange, fmap_app, Hnames. done.
      * intros name m Hm. by apply find_material_app_old, Hold.
      * intros name. rewrite material_names_app, elem_of_app.
        intros [Hname|Hname].
        -- destruct (Hdom name Hname) as [?|(j & ? & ?)];
             [by left|right; exists j; split; [lia|done]].
        -- simpl in Hname. apply list_elem_of_singleton in Hname.
           right. exists (Z.of_nat k). split; [lia|done].
      * intros j Hj Hfresh. destruct (decide (j = Z.of_nat k)) as [->|Hne].
        -- eexists _, color. split; [|split; [|exact Hcolor]].
           ++ apply (find_material_app_new mats
                (mkMaterial (unpacked_name (Z.of_nat k)) true _ _)). exact Hin.
           ++ by destruct color as [[r g] b].
        -- destruct (Hnew j) as (m & c & Hm & Hc & Hs); [lia|done|].
           exists m, c. split; [by apply find_material_app_old|done].
  - exists st. split; [exact Hrun|].
    rewrite range_length in Hpost. by rewrite Z2Nat.id in Hpost by lia.
Qed.

Lemma atlas_columns_get (img : image) (n : Z) :
  Py.get (img_props img) "atlas_columns" = Some n → 1 ≤ n →
  atlas_columns img = n.
Proof.
  intros Hget Hn. unfold atlas_columns. rewrite Hget. simpl.
  by rewrite decide_False by lia.
Qed.

Lemma atlas_columns_pos (img : image) : 1 ≤ atlas_columns img.
Proof. unfold atlas_columns. case_decide; lia. Qed.



(** On an atlas narrower than its number of materials the columns are empty:
    nothing is filled, and every regenerated colour is black. *)
Lemma narrow_atlas_unpacks_black :
  ∃ img images new_mats materials',
    create_texture_atlas [] three_colors 2 1 = Some (Some img, images) ∧
    atlas_columns img = 3 ∧
    regenerate_materials [] img 3 = Some (new_mats, materials') ∧
    (emission_color <$> materials')
      = [Some (0, 0, 0)%Q; Some (0, 0, 0)%Q; Some (0, 0, 0)%Q].
Proof.
  eexists _, _, _, _. split; [vm_compute; reflexivity|].
  split; [reflexivity|]. split; [vm_compute; reflexivity|]. reflexivity.
Qed.


(** ** The Unpack operator: reassigning the faces *)

Lemma first_some_Some {A B} (f : A → option B) (l : list A) (b : B) :
  Py.first_some f l = Some b → ∃ a, a ∈ l ∧ f a = Some b.
Proof.
  induction l as [|a l IH]; [done|]. simpl.
  destruct (f a) as [b'|] eqn:Hfa.
  - intros [= <-]. exists a. split; [left|done].
  - intros Hrest. destruct (IH Hrest) as (a' & Ha' & Hfa').
    exists a'. split; [by right|done].
Qed.

Lemma find_image_Some (images : list image) (name : string) (img : image) :
  find_image images name = Some img → img_name img = name ∧ img ∈ images.
Proof.
  unfold find_image. intros Hfind.
  destruct (list_find _ images) as [[i m]|] eqn:E; [|done].
  simpl in Hfind. injection Hfind as ->.
  apply list_find_Some in E as (Hi & Hn & _).
  split; [done|]. by eapply list_elem_of_lookup_2.
Qed.

Lemma find_atlas_image_found materials images slots (img : image) :
  find_atlas_image materials images slots = Some img →
  img ∈ images ∧ find_image images (img_name img) = Some img.
Proof.
  unfold find_atlas_image. intros Hfind.
  apply first_some_Some in Hfind as (slot & _ & Hslot).
  destruct slot as [name|]; [|done]. cbn [mbind option_bind] in Hslot.
  destruct (find_material materials name) as [mat|]; [|done].
  cbn [mbind option_bind] in Hslot.
  destruct (use_nodes mat); [|done].
  apply first_some_Some in Hslot as (nd & _ & Hnd).
  unfold node_atlas_image in Hnd. case_decide; [|done].
  destruct (node_image nd) as [iname|]; [|done].
  cbn [mbind option_bind] in Hnd.
  destruct (find_image images iname) as [img'|] eqn:Himg; [|done].
  cbn [mbind option_bind] in Hnd.
  destruct (Py.mem _ _); [|done]. injection Hnd as ->.
  pose proof (find_image_Some _ _ _ Himg) as [Hname Hin].
  split; [done|]. by rewrite Hname.
Qed.

Lemma dict_mem_get {V} (d : Py.dict V) (k : string) :
  Py.mem d k = true → is_Some (Py.get d k).
Proof.
  unfold Py.mem. intros Hmem. apply bool_decide_eq_true in Hmem.
  destruct (Py.get d k) eqn:Hget; [done|].
  apply dict_get_None in Hget. done.
Qed.

Lemma face_column_clamped (u : Q) (W n : Z) (cwf : Q) (c : Z) :
  1 ≤ n → face_column u W n cwf = Some c → 0 ≤ c < n.
Proof.
  intros Hn. unfold face_column.
  destruct (Py.floordiv _ _) as [q|]; [|done]. cbn [mbind option_bind].
  intros [= <-]. repeat case_decide; lia.
Qed.

Lemma unpack_face_spec (W n : Z) (cwf : Q) (f f' : face) :
  1 ≤ n → unpack_face W n cwf f = Some f' →
  loops f' = loops f ∧ (loops f = [] → f' = f) ∧
  (loops f ≠ [] → 0 ≤ material_index f' < n).
Proof.
  intros Hn. unfold unpack_face. destruct (loops f) as [|uv rest] eqn:Hl.
  - intros [= <-]. done.
  - destruct (face_column _ _ _ _) as [c|] eqn:Hc; [|done].
    cbn [mbind option_bind]. intros [= <-]. simpl.
    split; [done|]. split; [done|]. intros _.
    by eapply face_column_clamped.
Qed.

Lemma unpack_face_succeeds (W n : Z) (cwf : Q) (f : face) :
  1 ≤ n → 0 < W → Py.truediv (inject_Z W) (inject_Z n) = Some cwf →
  is_Some (unpack_face W n cwf f).
Proof.
  intros Hn HW Hcw. unfold unpack_face. destruct (loops f) as [|uv rest]; [done|].
  destruct (face_column_range uv.1 W n cwf Hn HW Hcw) as (c & -> & _). done.
Qed.

Lemma unpack_object_ok (images : list image) (obj : object)
    (materials : list material) (cms : Py.dict (list string)) :
  Forall img_wf images → sets_match_columns images cms →
  ∃ obj' st',
    unpack_object images obj (materials, cms) = Some (obj', st') ∧
    sets_match_columns images st'.2 ∧
    unpacked_from materials images obj obj'.
Proof.
  intros Hwf Hinv. unfold unpack_object, unpacked_from.
  destruct (decide (obj_type obj = "MESH")) as [Hmesh|Hmesh].
  2:{ rewrite decide_True by done. eauto. }
  rewrite decide_False by (intros Hne; by apply Hne).
  destruct (find_atlas_image materials images (material_slots obj))
    as [img|] eqn:Hfind; [|eauto].
  apply find_atlas_image_found in Hfind as [Hin Himg].
  pose proof (proj1 (Forall_forall _ _) Hwf img Hin) as Himgwf.
  pose proof Himgwf as (HW & HH & _).
  pose proof (atlas_columns_pos img) as Hn.
  set (n := atlas_columns img) in *.
  assert (∃ mats' cms' new_materials,
    (if Py.mem cms (img_name img) then Some (materials, cms)
     else '(new_mats, materials) ← regenerate_materials materials img n;
          Some (materials, Py.set cms (img_name img) new_mats))
    = Some (mats', cms') ∧
    sets_match_columns images cms' ∧
    Py.get cms' (img_name img) = Some new_materials ∧
    Z.of_nat (length new_materials) = n) as (mats' & cms' & nm & -> & Hinv' & Hget & Hlen).
  { destruct (Py.mem cms (img_name img)) eqn:Hmem.
    - destruct (dict_mem_get _ _ Hmem) as [nm Hnm].
      exists materials, cms, nm. split; [done|]. split; [done|].
      split; [done|]. by eapply Hinv.
    - destruct (regenerate_materials_ok materials img n Himgwf Hn)
        as ([new_mats mats'] & -> & Hnames & _). simpl in Hnames.
      cbn [mbind option_bind].
      assert (Z.of_nat (length new_mats) = n) as Hlen.
      { rewrite Hnames, length_fmap, range_length. lia. }
      exists mats', (Py.set cms (img_name img) new_mats), new_mats.
      split; [done|]. split; [|split; [apply dict_get_set_eq|done]].
      intros name mats img' Hget Himg'.
      destruct (decide (img_name img = name)) as [<-|Hne].
      + rewrite dict_get_set_eq in Hget. injection Hget as <-.
        rewrite Himg in Himg'. injection Himg' as <-. done.
      + rewrite dict_get_set_ne in Hget by done. by eapply Hinv. }
  cbn [mbind option_bind]. rewrite Hget. cbn [mbind option_bind].
  assert (Py.truediv (inject_Z (img_size img).1) (inject_Z n)
          = Some (inject_Z (img_size img).1 / inject_Z n)%Q) as Hcw.
  { apply truediv_Some. pose proof (inject_Z_pos n ltac:(lia)). lra. }
  rewrite Hcw. cbn [mbind option_bind].
  destruct (mapM_is_Some_2
    (unpack_face (img_size img).1 n (inject_Z (img_size img).1 / inject_Z n)%Q)
    (faces obj)) as [faces' Hfaces].
  { apply Forall_forall. intros f _. simpl. by apply unpack_face_succeeds. }
  rewrite Hfaces. cbn [mbind option_bind].
  eexists _, _. split; [done|]. split; [exact Hinv'|]. simpl.
  split; [done|]. split; [by rewrite length_fmap|].
  apply mapM_Some_1 in Hfaces.
  eapply Forall2_impl; [exact Hfaces|].
  intros f f' Hf. simpl in Hf. exact (unpack_face_spec _ _ _ _ _ Hn Hf).
Qed.

(** On well-formed images the operator finishes. *)
Lemma unpack_finishes (w : world) :
  Forall img_wf (data_images w) →
  ∃ w', UnpackEmissionAtlas_execute w = Some (FINISHED, w').
Proof.
  intros Hwf. unfold UnpackEmissionAtlas_execute.
  destruct (map_for_each_inv (unpack_object (data_images w))
    (λ st, sets_match_columns (data_images w) st.2)
    (λ obj obj', True)
    (selected_objects w) (data_materials w, []))
    as (objs & [mats cms] & -> & _ & Hobjs).
  - intros name mats img Hget. done.
  - intros obj [mats cms] _ Hinv.
    destruct (unpack_object_ok (data_images w) obj mats cms Hwf Hinv)
      as (obj' & st' & Hrun & Hinv' & Hrel).
    exists obj', st'. done.
  - cbn [mbind option_bind]. eauto.
Qed.

(** A material without image texture node, added at the end of
    [bpy.data.materials], does not change which atlas an object has. *)
Lemma find_atlas_image_snoc (materials : list material) (mat : material)
    (images : list image) (slots : list (option string)) :
  Forall (λ nd, node_type nd ≠ "TEX_IMAGE") (nodes mat) →
  find_atlas_image (materials ++ [mat]) images slots
  = find_atlas_image materials images slots.
Proof.
  intros Hnodes. unfold find_atlas_image.
  assert (Py.first_some (node_atlas_image images) (nodes mat) = None)
    as Hnone.
  { induction Hnodes as [|nd l Hnd _ IH]; [done|]. simpl.
    unfold node_atlas_image at 1. by rewrite decide_False. }
  induction slots as [|slot slots IH]; [done|]. simpl. rewrite IH.
  destruct slot as [name|]; [|done]. cbn [mbind option_bind].
  destruct (find_material materials name) as [m|] eqn:Hm.
  - by rewrite (find_material_app_old _ _ _ _ Hm).
  - cbn [mbind option_bind].
    destruct (find_material (materials ++ [mat]) name) as [m'|] eqn:Hm';
      [|done].
    cbn [mbind option_bind].
    assert (m' = mat) as ->.
    { apply find_material_name in Hm' as [Hname Hin].
      apply elem_of_app in Hin as [Hin|Hin].
      - unfold find_material in Hm.
        destruct (list_find _ materials) as [[? ?]|] eqn:E; [done|].
        apply list_find_None in E.
        by apply (proj1 (Forall_forall _ _) E) in Hin.
      - by apply list_elem_of_singleton in Hin. }
    rewrite Hnone. by destruct (use_nodes mat).
Qed.

(** The sampling loop, when it returns, has made one name per column and has
    not changed which atlas an object has. *)
Lemma regenerate_materials_post (materials materials' : list material)
    (atlas_image : image) (n : Z) (new_mats : list string)
    (images : list image) :
  0 ≤ n →
  regenerate_materials materials atlas_image n
    = Some (new_mats, materials') →
  Z.of_nat (length new_mats) = n ∧
  ∀ slots, find_atlas_image materials' images slots
           = find_atlas_image materials images slots.
Proof.
  intros Hn Hrun. unfold regenerate_materials in Hrun.
  apply (for_each_post
    (λ k st, length st.1 = k ∧
             ∀ slots, find_atlas_image st.2 images slots
                      = find_atlas_image materials images slots))
    in Hrun.
  - rewrite range_length in Hrun. destruct Hrun as [Hlen Hsame].
    cbn [fst snd] in *. split; [lia|done].
  - done.
  - intros k i [nm mats] [nm1 mats1] _ [Hlen Hsame]. cbn [fst snd] in *.
    destruct (sample_rgb _ _) as [color|]; [|done].
    cbn [mbind option_bind]. case_decide as Hin.
    + intros [= <- <-]. rewrite length_app. simpl. split; [lia|done].
    + unfold create_single_color_emission_material.
      intros [= <- <-]. rewrite length_app. simpl. split; [lia|].
      intros slots. rewrite find_atlas_image_snoc; [done|].
      cbn [nodes]. repeat constructor; discriminate.
Qed.

(** What the body of the loop over the selected objects has done when it
    returns. *)
Lemma unpack_object_post (images : list image) (obj obj' : object)
    (materials materials' : list material)
    (cms cms' : Py.dict (list string)) :
  sets_match_columns images cms →
  unpack_object images obj (materials, cms) = Some (obj', (materials', cms')) →
  sets_match_columns images cms' ∧
  (∀ slots, find_atlas_image materials' images slots
            = find_atlas_image materials images slots) ∧
  unpacked_from materials images obj obj'.
Proof.
  intros Hinv. unfold unpack_object, unpacked_from.
  destruct (decide (obj_type obj = "MESH")) as [Hmesh|Hmesh].
  2:{ rewrite decide_True by done. by intros [= <- <- <-]. }
  rewrite decide_False by (intros Hne; by apply Hne).
  destruct (find_atlas_image materials images (material_slots obj))
    as [img|] eqn:Hfind; [|by intros [= <- <- <-]].
  apply find_atlas_image_found in Hfind as [Hin Himg].
  pose proof (atlas_columns_pos img) as Hn.
  set (n := atlas_columns img) in *.
  destruct (if Py.mem cms (img_name img) then Some (materials, cms)
            else '(new_mats, materials) ← regenerate_materials materials img n;
                 Some (materials, Py.set cms (img_name img) new_mats))
    as [[mats1 cms1]|] eqn:Hsets; [|done].
  cbn [mbind option_bind].
  destruct (Py.get cms1 (img_name img)) as [new_materials|] eqn:Hget; [|done].
  cbn [mbind option_bind].
  destruct (Py.truediv _ _) as [cwf|]; [|done]. cbn [mbind option_bind].
  destruct (mapM _ (faces obj)) as [faces'|] eqn:Hfaces; [|done].
  cbn [mbind option_bind]. intros [= <- <- <-].
  assert (sets_match_columns images cms1 ∧
          (∀ slots, find_atlas_image mats1 images slots
                    = find_atlas_image materials images slots))
    as [Hinv1 Hsame].
  { destruct (Py.mem cms (img_name img)).
    - by injection Hsets as <- <-.
    - destruct (regenerate_materials materials img n)
        as [[new_mats mats2]|] eqn:Hregen; [|done].
      cbn [mbind option_bind] in Hsets. injection Hsets as <- <-.
      assert (0 ≤ n) as Hn0 by lia.
      destruct (regenerate_materials_post materials mats2 img n new_mats
        images Hn0 Hregen) as [Hlen Hsame].
      split; [|done].
      intros name mats img' Hget' Himg'.
      destruct (decide (img_name img = name)) as [<-|Hne].
      + rewrite dict_get_set_eq in Hget'. injection Hget' as <-.
        rewrite Himg in Himg'. by injection Himg' as <-.
      + rewrite dict_get_set_ne in Hget' by done. by eapply Hinv. }
  split; [done|]. split; [done|]. cbn [material_slots faces].
  split; [done|]. split.
  - cbn [app]. rewrite length_fmap. by eapply Hinv1.
  - apply mapM_Some_1 in Hfaces.
    eapply Forall2_impl; [exact Hfaces|].
    intros f f' Hf. simpl in Hf. exact (unpack_face_spec _ _ _ _ _ Hn Hf).
Qed.

Lemma face_column_binary64_clamped (u : Q) (W n : Z) (cwf : Q) (c : Z) :
  1 ≤ n → Binary64.face_column u W n cwf = Some c → 0 ≤ c < n.
Proof.
  intros Hn. unfold Binary64.face_column.
  destruct (Binary64.mul_int W u) as [x|]; [|done]. cbn [mbind option_bind].
  destruct (if Py.lt x 0 then _ else _) as [x'|]; [|done].
  cbn [mbind option_bind].
  destruct (Binary64.floordiv _ _) as [q|]; [|done]. cbn [mbind option_bind].
  intros [= <-]. repeat case_decide; lia.
Qed.

Lemma face_column_float_clamped (u : Binary64.float) (W n : Z) (cwf : Q)
    (c : Z) :
  1 ≤ n → Binary64.face_column_float u W n cwf = Some c → 0 ≤ c < n.
Proof.
  intros Hn. destruct u as [x|negative|]; cbn [Binary64.face_column_float].
  - by apply face_column_binary64_clamped.
  - destruct (Binary64.float_of_int W) as [fw|]; [|done].
    cbn [mbind option_bind]. destruct (Qeq_bool fw 0); [done|].
    destruct (if xorb negative (Py.lt fw 0) then _ else _) as [x'|]; [|done].
    cbn [mbind option_bind].
    destruct (Binary64.floordiv _ _) as [q|]; [|done].
    cbn [mbind option_bind]. intros [= <-]. repeat case_decide; lia.
  - done.
Qed.

(** C10. The Unpack operator never assigns a face a material index outside
    the slots it created. Whatever the UV (also outside [[0, 1]], and in
    binary64 also an infinity or NaN, on which the face loop raises), the
    width and the column width, a column index computed for [n >= 1]
    columns lies in [[0, n)], in exact and in binary64 arithmetic; and when
    the operator has run, every selected mesh in which it found an atlas
    image has exactly [n] material slots, [n] the column count of that
    image, and each of its faces with a loop has its index in [[0, n)],
    while the other objects and the faces without loops are as they
    were. *)
Theorem unpack_indices_in_slots (w w' : world) :
  UnpackEmissionAtlas_execute w = Some (FINISHED, w') →
  (∀ u W n cwf c, 1 ≤ n → face_column u W n cwf = Some c → 0 ≤ c < n) ∧
  (∀ u W n cwf c,
     1 ≤ n → Binary64.face_column_float u W n cwf = Some c → 0 ≤ c < n) ∧
  Forall2 (unpacked_from (data_materials w) (data_images w))
    (selected_objects w) (selected_objects w').
Proof.
  intros Hrun.
  split; [intros; by eapply face_column_clamped|].
  split; [intros; by eapply face_column_float_clamped|].
  unfold UnpackEmissionAtlas_execute in Hrun.
  destruct (Py.map_for_each _ _ _) as [[objs [mats cms]]|] eqn:Hloop;
    [|done].
  cbn [mbind option_bind] in Hrun. injection Hrun as <-.
  cbn [selected_objects].
  apply (map_for_each_post (unpack_object (data_images w))
    (λ st, sets_match_columns (data_images w) st.2 ∧
           ∀ slots, find_atlas_image st.1 (data_images w) slots
                    = find_atlas_image (data_materials w) (data_images w)
                        slots)
    (unpacked_from (data_materials w) (data_images w))) in Hloop.
  - by destruct Hloop.
  - split; [|done]. intros name mats' img Hget. done.
  - intros obj [mats1 cms1] obj' [mats2 cms2] [Hinv Hsame] Hstep.
    cbn [fst snd] in *.
    destruct (unpack_object_post _ _ _ _ _ _ _ Hinv Hstep)
      as (Hinv' & Hsame' & Hrel).
    split; [split; [done|]|].
    + intros slots. by rewrite Hsame', Hsame.
    + unfold unpacked_from in *. by rewrite <- Hsame.
Qed.

Lemma unpack_indices_in_slots_witness :
  ∃ w' obj',
    UnpackEmissionAtlas_execute stale_unpack_scene = Some (FINISHED, w') ∧
    selected_objects w' = [obj'] ∧
    length (material_slots obj') = 2%nat ∧
    Forall (λ f, 0 ≤ material_index f < 2) (faces obj').
Proof.
  destruct (unpack_finishes stale_unpack_scene) as [w' Hrun].
  { repeat constructor; vm_compute; congruence. }
  destruct (unpack_indices_in_slots stale_unpack_scene w' Hrun)
    as (_ & _ & Hobjs).
  cbn [selected_objects stale_unpack_scene] in Hobjs.
  apply Forall2_cons_inv_l in Hobjs as (obj' & rest & Hobj & Hrest & Hsel).
  apply Forall2_nil_inv_l in Hrest as ->.
  exists w', obj'. split; [exact Hrun|]. split; [exact Hsel|].
  unfold unpacked_from in Hobj.
  destruct (decide _) as [_|Hne]; [|by destruct Hne].
  destruct (find_atlas_image _ _ _) as [img|] eqn:Himg;
    [|by vm_compute in Himg].
  assert (atlas_columns img = 2) as Hcols
    by (vm_compute in Himg; by simplify_eq).
  cbv zeta in Hobj. rewrite Hcols in Hobj.
  destruct Hobj as (_ & Hlen & Hfaces). split; [lia|].
  cbn [faces] in Hfaces.
  apply Forall2_cons_inv_l in Hfaces as (f' & rest' & Hf & Hrest' & ->).
  apply Forall2_nil_inv_l in Hrest' as ->.
  destruct Hf as (_ & _ & Hidx). constructor; [|done]. by apply Hidx.
Defined.

(** ** Where the two operators disagree on the column width *)

Lemma convert_object_mesh atlas_mat mat_index_map (atlas : image) (W H : Z)
    (obj obj1 : object) (om : Py.dict (list (option string))) :
  obj_type obj = "MESH" → img_size atlas = (W, H) →
  remap_uvs obj mat_index_map W H = Some obj1 →
  convert_object atlas_mat mat_index_map atlas obj om
    = Some ({| obj_name := obj_name obj1; obj_type := obj_type obj1;
               material_slots := [Some atlas_mat]; faces := faces obj1 |},
            Py.set om (obj_name obj) (material_slots obj)).
Proof.
  intros Hmesh Hsize Hremap. unfold convert_object.
  rewrite decide_True by done. rewrite Hsize. simpl. rewrite Hremap. done.
Qed.

(** The pixel addressed by the centre of column [i] lies in the filled
    region of column [i] exactly when
    [(2 i + 1) * (W mod n) < n * (W // n)]; in particular whenever [n]
    divides the atlas width. *)
Lemma center_pixel_in_column_iff (W n i : Z) (u : Q) :
  0 < W → 1 ≤ n → 0 ≤ i < n →
  (u == (inject_Z i + (1 # 2)) / inject_Z n)%Q →
  i * column_width W n ≤ Qfloor (u * inject_Z W) < (i + 1) * column_width W n
  ↔ (2 * i + 1) * (W `mod` n) < n * column_width W n.
Proof.
  intros HW Hn Hi Hu. unfold column_width.
  pose proof (inject_Z_pos W HW) as HWq.
  pose proof (inject_Z_pos n ltac:(lia)) as Hnq.
  pose proof (inject_Z_nonneg i ltac:(lia)) as Hiq.
  set (x := Qfloor (u * inject_Z W)).
  pose proof (Qfloor_le (u * inject_Z W)) as Hlo.
  pose proof (Qlt_floor (u * inject_Z W)) as Hhi.
  fold x in Hlo, Hhi. rewrite inject_Z_succ in Hhi.
  assert (u * inject_Z n == inject_Z i + (1 # 2))%Q as Hun
    by (rewrite Hu; field; lra).
  assert (2 * n * x ≤ (2 * i + 1) * W) as Hlo'.
  { rewrite Zle_Qle, !inject_Z_mult, inject_Z_plus, !inject_Z_mult.
    change (inject_Z 2) with 2%Q. change (inject_Z 1) with 1%Q. nra. }
  assert ((2 * i + 1) * W < 2 * n * (x + 1)) as Hhi'.
  { rewrite Zlt_Qlt, !inject_Z_mult, !inject_Z_plus, !inject_Z_mult.
    change (inject_Z 2) with 2%Q. change (inject_Z 1) with 1%Q. nra. }
  pose proof (Z.div_mod W n ltac:(lia)) as Hdm.
  pose proof (Z.mod_pos_bound W n ltac:(lia)) as Hr.
  pose proof (Z.div_pos W n ltac:(lia) ltac:(lia)) as Hq.
  split; intros H; nia.
Qed.

(** C1. With 25 emission materials the face that used material 21 does not
    sample its own column. After the Create Atlas operator its loop UVs are
    the centre of column 21, [(43/50, 1/2)]; on the 1024 x 256 atlas this is
    pixel [(880, 128)], which lies outside the region
    [[21 * 40, 22 * 40)] that [create_texture_atlas] filled with the colour
    of material 21, and holds the colour of material 22. *)
Theorem atlas_center_misses_column :
  ∃ w' atlas obj' f',
    ConvertToEmissionAtlas_execute shades_scene = Some (FINISHED, w') ∧
    data_images w' = [atlas] ∧
    selected_objects w' = [obj'] ∧ faces obj' = [f'] ∧
    length (loops f') = 3%nat ∧
    Forall (λ uv, (uv.1 == 43 # 50)%Q ∧ uv.2 = (1 # 2)%Q ∧
                  uv_pixel uv 1024 256 = (880, 128)) (loops f') ∧
    nth_color (get_simple_emission_materials (data_materials shades_scene)) 21
      = Some (shade 21) ∧
    column_width 1024 25 = 40 ∧
    ¬ (21 * column_width 1024 25 ≤ 880 < 22 * column_width 1024 25) ∧
    pixel_at (img_pixels atlas) 1024 880 128 = Some (shade 22, 1%Q) ∧
    shade 22 ≠ shade 21.
Proof.
  destruct (convert_finishes shades_scene) as [w' Hrun].
  { vm_compute. discriminate. }
  { repeat constructor; vm_compute; discriminate. }
  destruct (convert_execute_inv _ _ Hrun)
    as (atlas & _ & Hcreate & Himgs & _ & Hloop).
  pose proof (create_texture_atlas_name _ _ _ _ _ _ Hcreate) as (_ & _ & Hsize).
  destruct (remap_uvs (mkObject "Strip" "MESH"
      ((λ k, Some (shade_name k)) <$> seqZ 0 25) [triangle 21])
    (build_index_map
       (get_simple_emission_materials (data_materials shades_scene)))
    1024 256) as [obj1|] eqn:Hremap; [|vm_compute in Hremap; discriminate].
  change (selected_objects shades_scene)
    with [mkObject "Strip" "MESH"
            ((λ k, Some (shade_name k)) <$> seqZ 0 25) [triangle 21]] in Hloop.
  cbn [Py.map_for_each] in Hloop.
  erewrite convert_object_mesh in Hloop; [|reflexivity|exact Hsize|exact Hremap].
  cbn [mbind option_bind] in Hloop. injection Hloop as Hobjs _.
  vm_compute in Hremap. injection Hremap as <-.
  eexists w', atlas, _, _.
  split; [exact Hrun|]. split; [exact Himgs|]. split; [symmetry; exact Hobjs|].
  split; [reflexivity|]. split; [reflexivity|]. split.
  { repeat constructor; vm_compute; reflexivity. }
  split; [vm_compute; reflexivity|]. split; [reflexivity|].
  split; [vm_compute; intros [? ?]; congruence|]. split.
  - apply (atlas_pixel_in_column _ _ _ _ _ _ 22 (shade_name 22) (shade 22)
             880 128 Hcreate);
      [lia|vm_compute; reflexivity|vm_compute; reflexivity| |lia].
    vm_compute. split; congruence.
  - vm_compute. discriminate.
Qed.

(** C3. A material that no selected object uses still gets a column: in a
    file with the emission materials [Red] and [Spare], where the only
    selected mesh has [Red] alone in its slots, the Create Atlas operator
    builds an atlas of two columns, and the second one is filled with the
    colour of [Spare]. *)
Theorem unassigned_material_gets_column :
  ∃ w' atlas,
    ConvertToEmissionAtlas_execute spare_material_scene = Some (FINISHED, w') ∧
    data_images w' = [atlas] ∧
    Py.keys (get_simple_emission_materials
               (data_materials spare_material_scene))
      = ["Red"%string; "Spare"%string] ∧
    Py.get (img_props atlas) "atlas_columns" = Some 2 ∧
    pixel_at (img_pixels atlas) 1024 512 0 = Some (0, 0, 1, 1)%Q ∧
    Forall (λ obj, Some "Spare"%string ∉ material_slots obj)
      (selected_objects spare_material_scene).
Proof.
  destruct (convert_finishes spare_material_scene) as [w' Hrun].
  { vm_compute. discriminate. }
  { repeat constructor; vm_compute; discriminate. }
  destruct (convert_execute_inv _ _ Hrun)
    as (atlas & _ & Hcreate & Himgs & _ & _).
  pose proof (create_texture_atlas_name _ _ _ _ _ _ Hcreate)
    as (_ & Hcols & _).
  exists w', atlas. split; [exact Hrun|]. split; [exact Himgs|].
  split; [reflexivity|]. split; [exact Hcols|]. split.
  - apply (atlas_pixel_in_column _ _ _ _ _ _ 1 "Spare"%string (0, 0, 1)%Q
             512 0 Hcreate); [lia|reflexivity|reflexivity| |lia].
    vm_compute. split; congruence.
  - repeat constructor. simpl. intros Hslot.
    apply list_elem_of_singleton in Hslot. discriminate.
Qed.

(** ** The packaging script *)

Module ReleaseFacts.
Import Release.

Lemma dict_mem_true {V} (d : Py.dict V) (k : string) :
  Py.mem d k = true ↔ is_Some (Py.get d k).
Proof.
  split; [apply dict_mem_get|]. intros [v Hv]. unfold Py.mem.
  apply bool_decide_eq_true. destruct (decide (k ∈ Py.keys d)) as [|Hn]; [done|].
  apply dict_get_None in Hn. congruence.
Qed.

Lemma dict_mem_false {V} (d : Py.dict V) (k : string) :
  Py.mem d k = false ↔ Py.get d k = None.
Proof.
  rewrite dict_get_None. unfold Py.mem. apply bool_decide_eq_false.
Qed.

Lemma dict_get_remove_eq {V} (d : Py.dict V) (k : string) :
  Py.get (Py.remove d k) k = None.
Proof.
  apply dict_get_None. unfold Py.remove, Py.keys. intros Hin.
  apply list_elem_of_fmap in Hin as ([k' v] & -> & Hin).
  apply list_elem_of_filter in Hin as [Hne _]. done.
Qed.

Lemma dict_get_remove_ne {V} (d : Py.dict V) (k k' : string) :
  k ≠ k' → Py.get (Py.remove d k) k' = Py.get d k'.
Proof.
  intros Hne. unfold Py.remove. induction d as [|[k0 v0] d IH]; [done|].
  rewrite filter_cons. destruct (decide (k0 = k)) as [->|Hk0].
  - rewrite decide_False by (intros Hk; by apply Hk). simpl.
    by rewrite decide_False.
  - rewrite decide_True by done. simpl. case_decide; [done|exact IH].
Qed.

Lemma walk_files_flat (children : list (string * entry)) :
  Forall (λ kv, is_dir kv.2 = false) children →
  omap (λ '(name, e'),
          if is_dir e' then None else Some (join_path "" name, e'))
       children = children.
Proof.
  induction children as [|[name e] l IH]; intros Hflat; [done|].
  apply Forall_cons in Hflat as [He Hl]. simpl in He.
  simpl. rewrite He. simpl. f_equal. by apply IH.
Qed.

Lemma walk_subfolders_flat (children : list (string * entry)) :
  Forall (λ kv, is_dir kv.2 = false) children →
  (fix subfolders (l : list (string * entry)) : list (string * entry) :=
     match l with
     | [] => []
     | (name, e') :: l' =>
         match e' with
         | Dir _ => walk (join_path "" name) e'
         | _ => []
         end ++ subfolders l'
     end) children = [].
Proof.
  induction children as [|[name e] l IH]; intros Hflat; [done|].
  apply Forall_cons in Hflat as [He Hl]. simpl in He.
  rewrite IH by done. by destruct e.
Qed.

Lemma walk_flat (children : list (string * entry)) :
  Forall (λ kv, is_dir kv.2 = false) children →
  walk "" (Dir children) = children.
Proof.
  intros Hflat. cbn [walk].
  rewrite walk_files_flat, walk_subfolders_flat by done. apply app_nil_r.
Qed.

Lemma file_at_flat (fs : Py.dict entry) (name : string) :
  Forall (λ kv, is_dir kv.2 = false) (file_at fs name).
Proof.
  unfold file_at. destruct (Py.get fs name) as [e|]; [|constructor].
  destruct (is_dir e) eqn:He; repeat constructor. done.
Qed.

Lemma file_at_keys (fs : Py.dict entry) (name k : string) :
  k ≠ name → Py.get (file_at fs name) k = None.
Proof.
  intros Hne. unfold file_at. destruct (Py.get fs name) as [e|]; [|done].
  destruct (is_dir e); [done|]. simpl. by rewrite decide_False.
Qed.

Lemma copy_into (fs : Py.dict entry) (src dst : string) (e : entry)
    (children : list (string * entry)) :
  Py.get fs src = Some e → is_dir e = false →
  Py.get fs dst = Some (Dir children) → Py.get children src = None →
  copy fs src dst = Some (Py.set fs dst (Dir (children ++ [(src, e)]))).
Proof.
  intros Hsrc He Hdst Hfree. unfold copy. rewrite Hsrc.
  cbn [mbind option_bind]. rewrite He, Hdst, Hfree.
  do 3 f_equal. by apply dict_set_new, dict_get_None.
Qed.

(** Copying the optional file [name] into the staging folder. *)
Lemma copy_optional (fs0 fs : Py.dict entry) (name : string)
    (children : list (string * entry)) :
  name ≠ OUTPUT_FOLDER →
  file_or_absent fs0 name →
  same_but [OUTPUT_FOLDER] fs0 fs →
  Py.get fs OUTPUT_FOLDER = Some (Dir children) →
  Py.get children name = None →
  ∃ fs',
    (if exists_ fs name then copy fs name OUTPUT_FOLDER else Some fs)
      = Some fs' ∧
    same_but [OUTPUT_FOLDER] fs0 fs' ∧
    Py.get fs' OUTPUT_FOLDER = Some (Dir (children ++ file_at fs0 name)).
Proof.
  intros Hne Hfile Hsame Hout Hfree.
  assert (Py.get fs name = Py.get fs0 name) as Hget.
  { apply Hsame. intros Hin. apply list_elem_of_singleton in Hin. done. }
  unfold file_or_absent in Hfile. unfold file_at, exists_.
  destruct (Py.get fs0 name) as [e|] eqn:He.
  - assert (Py.mem fs name = true) as -> by (apply dict_mem_true; eauto).
    unfold copy. rewrite Hget. cbn [mbind option_bind]. rewrite Hfile, Hout, Hfree.
    eexists. split; [done|]. split.
    + intros k Hk. rewrite dict_get_set_ne; [by apply Hsame|].
      intros <-. apply Hk. left.
    + rewrite dict_get_set_eq. do 2 f_equal. by apply dict_set_new, dict_get_None.
  - assert (Py.mem fs name = false) as -> by (by apply dict_mem_false).
    exists fs. split; [done|]. split; [done|]. by rewrite app_nil_r.
Qed.

Lemma stage_spec (fs : Py.dict entry) (script : entry) :
  Py.get fs SCRIPT_FILE = Some script → is_dir script = false →
  folder_or_absent fs OUTPUT_FOLDER →
  file_or_absent fs "LICENSE" → file_or_absent fs "README.md" →
  ∃ fs',
    stage fs = Some fs' ∧
    same_but [OUTPUT_FOLDER] fs fs' ∧
    Py.get fs' OUTPUT_FOLDER
      = Some (Dir ([(SCRIPT_FILE, script)] ++ file_at fs "LICENSE"
                   ++ file_at fs "README.md")).
Proof.
  intros Hscript Hfile Hout Hlic Hreadme. unfold stage.
  assert (∃ fs1,
    (if exists_ fs OUTPUT_FOLDER then rmtree fs OUTPUT_FOLDER else Some fs)
      = Some fs1 ∧
    same_but [OUTPUT_FOLDER] fs fs1 ∧ Py.get fs1 OUTPUT_FOLDER = None)
    as (fs1 & -> & Hsame1 & Hout1).
  { unfold folder_or_absent in Hout. unfold exists_, rmtree.
    destruct (Py.get fs OUTPUT_FOLDER) as [e|] eqn:He.
    - assert (Py.mem fs OUTPUT_FOLDER = true) as -> by (apply dict_mem_true; eauto).
      destruct e; try done. eexists. split; [done|].
      split; [|apply dict_get_remove_eq].
      intros k Hk. apply dict_get_remove_ne. intros <-. apply Hk. left.
    - assert (Py.mem fs OUTPUT_FOLDER = false) as -> by (by apply dict_mem_false).
      exists fs. done. }
  cbn [mbind option_bind]. unfold mkdir.
  assert (exists_ fs1 OUTPUT_FOLDER = false) as ->
    by (by apply dict_mem_false).
  cbn [mbind option_bind].
  set (fs2 := Py.set fs1 OUTPUT_FOLDER (Dir [])).
  assert (same_but [OUTPUT_FOLDER] fs fs2) as Hsame2.
  { intros k Hk. unfold fs2. rewrite dict_get_set_ne; [by apply Hsame1|].
    intros <-. apply Hk. left. }
  assert (Py.get fs2 OUTPUT_FOLDER = Some (Dir [])) as Hout2
    by apply dict_get_set_eq.
  assert (Py.get fs2 SCRIPT_FILE = Some script) as Hscript2.
  { rewrite Hsame2; [done|]. intros Hin.
    apply list_elem_of_singleton in Hin. discriminate. }
  rewrite (copy_into fs2 SCRIPT_FILE OUTPUT_FOLDER script [])
    by done. cbn [mbind option_bind app].
  set (fs3 := Py.set fs2 OUTPUT_FOLDER (Dir [(SCRIPT_FILE, script)])).
  assert (same_but [OUTPUT_FOLDER] fs fs3) as Hsame3.
  { intros k Hk. unfold fs3. rewrite dict_get_set_ne; [by apply Hsame2|].
    intros <-. apply Hk. left. }
  assert (Py.get fs3 OUTPUT_FOLDER = Some (Dir [(SCRIPT_FILE, script)]))
    as Hout3 by apply dict_get_set_eq.
  destruct (copy_optional fs fs3 "LICENSE" _ ltac:(discriminate) Hlic Hsame3
    Hout3 ltac:(reflexivity)) as (fs4 & -> & Hsame4 & Hout4).
  cbn [mbind option_bind].
  destruct (copy_optional fs fs4 "README.md" _ ltac:(discriminate) Hreadme
    Hsame4 Hout4) as (fs5 & -> & Hsame5 & Hout5).
  { rewrite dict_get_app_r; [apply file_at_keys; discriminate|].
    intros Hin. apply list_elem_of_singleton in Hin. discriminate. }
  exists fs5. split; [done|]. split; [done|]. by rewrite <- app_assoc in Hout5.
Qed.

Lemma parse_args_as_zip (argv : list string)
    (st st' : bool * option string * option string) :
  Py.for_each argv (λ arg '(as_zip, target_blender, version),
    if decide (arg = "--as-zip") then Some (true, target_blender, version)
    else if startswith arg "--target-blender=" then
      v ← Py.getitem (split "=" arg) 1; Some (as_zip, Some v, version)
    else if startswith arg "--version=" then
      v ← Py.getitem (split "=" arg) 1; Some (as_zip, target_blender, Some v)
    else Some (as_zip, target_blender, version)) st = Some st' →
  st.1.1 = true ∨ "--as-zip" ∈ argv → st'.1.1 = true.
Proof.
  revert st. induction argv as [|arg argv IH]; intros [[a t] v]; simpl.
  - intros [= <-] [?|Hin]; [done|]. by apply elem_of_nil in Hin.
  - case_decide as Harg.
    + simpl. intros Hrest _. eapply IH; [exact Hrest|by left].
    + intros Hrun Hzip.
      assert (a = true ∨ "--as-zip" ∈ argv) as Hzip'.
      { destruct Hzip as [?|Hin]; [by left|].
        apply elem_of_cons in Hin as [?|?]; [done|by right]. }
      destruct (startswith arg "--target-blender=").
      { destruct (Py.getitem _ _); [|done]. simpl in Hrun.
        eapply IH; [exact Hrun|done]. }
      destruct (startswith arg "--version=").
      { destruct (Py.getitem _ _); [|done]. simpl in Hrun.
        eapply IH; [exact Hrun|done]. }
      eapply IH; [exact Hrun|done].
Qed.

Lemma zip_file_name_not_folder (version target : string) :
  zip_file_name version target ≠ OUTPUT_FOLDER.
Proof. unfold zip_file_name, OUTPUT_FOLDER. simpl. discriminate. Qed.

End ReleaseFacts.

Section packaging.
Import Release ReleaseFacts.

(** C8 (as amended). When the packaging script is invoked with [--as-zip]
    and lines 66 to 83 settle on a target and a version without raising (the
    target is the value of [--target-blender=] or else the ['blender'] entry
    of [bl_info] in the add-on script; the version is the value of
    [--version=] or else what [increment_version] makes of the ['version']
    entry, which raises when the last component is not an integer, as for
    ['version': ()]), in a working directory where the add-on script is a
    file, [LICENSE] and [README.md] are files when present, the staging name
    is free or a folder and the archive name is a free or file name in the
    working directory, [main] finishes, the archive
    [emission_atlas_{version}_blender_{target_blender}.zip] holds exactly the
    files copied into the staging folder (the add-on script, then [LICENSE]
    and [README.md] when present), the staging folder is gone, and nothing
    else in the working directory has changed. *)
Theorem main_builds_archive
    (literal_eval : string → evaluation)
    (py_int : string → option Z) (argv : list string)
    (fs : Py.dict entry) (version target : string)
    (script : entry) :
  "--as-zip" ∈ argv →
  settled literal_eval py_int argv fs = Some (version, target) →
  Py.get fs SCRIPT_FILE = Some script →
  is_dir script = false →
  folder_or_absent fs OUTPUT_FOLDER →
  file_or_absent fs "LICENSE" →
  file_or_absent fs "README.md" →
  plain_name (zip_file_name version target) →
  file_or_absent fs (zip_file_name version target) →
  ∃ fs' out,
    main literal_eval py_int argv fs = Some (fs', out) ∧
    Py.get fs' (zip_file_name version target)
      = Some (Archive
                ([(SCRIPT_FILE, script)]
                 ++ file_at fs "LICENSE"
                 ++ file_at fs "README.md")) ∧
    Py.get fs' OUTPUT_FOLDER = None ∧
    same_but
      [zip_file_name version target; OUTPUT_FOLDER] fs fs'.
Proof.
  intros Hzip Hsettled Hscript Hfile Hout Hlic Hreadme Hsplit Hname.
  unfold settled in Hsettled. unfold main.
  destruct (parse_args argv) as [[[a t] v]|] eqn:Hparse; [|done].
  apply parse_args_as_zip in Hparse; [|by right]. simpl in Hparse. subst a.
  cbn [mbind option_bind] in *.
  destruct (match t with
            | Some t0 => Some (Some t0)
            | None => get_blender_version literal_eval fs SCRIPT_FILE
            end) as [[tb|]|]; [|done..].
  cbn [mbind option_bind] in *.
  destruct (match v with
            | Some v0 => Some v0
            | None => _
            end) as [ver|]; [|done].
  cbn [mbind option_bind] in *. injection Hsettled as -> ->.
  destruct (stage_spec fs script Hscript Hfile Hout Hlic Hreadme)
    as (fs1 & -> & Hsame1 & Hout1).
  cbn [mbind option_bind].
  pose proof (zip_file_name_not_folder version target) as Hne.
  set (name := zip_file_name version target) in *.
  assert (Py.get fs1 name = Py.get fs name) as Hname1.
  { apply Hsame1. intros Hin. apply list_elem_of_singleton in Hin. done. }
  unfold write_zip. rewrite Hout1. cbn [mbind option_bind].
  rewrite walk_flat.
  2:{ repeat (apply Forall_app; split); try apply file_at_flat.
      by repeat constructor. }
  rewrite Hsplit. cbn [write_at]. rewrite Hname1.
  set (archive := Archive _).
  assert (match Py.get fs name with
          | Some (Dir _) => None
          | _ => Some (Py.set fs1 name archive)
          end = Some (Py.set fs1 name archive)) as ->.
  { unfold file_or_absent in Hname.
    destruct (Py.get fs name) as [[]|]; done. }
  cbn [mbind option_bind]. unfold rmtree.
  rewrite dict_get_set_ne by done. rewrite Hout1.
  eexists _, _. split; [done|]. split; [|split].
  - rewrite dict_get_remove_ne by done. apply dict_get_set_eq.
  - apply dict_get_remove_eq.
  - intros k Hk.
    assert (k ≠ name ∧ k ≠ OUTPUT_FOLDER) as [Hk1 Hk2].
    { split; intros ->; apply Hk; [left|right; left]. }
    rewrite dict_get_remove_ne by done.
    rewrite dict_get_set_ne by done.
    apply Hsame1. intros Hin. apply list_elem_of_singleton in Hin. done.
Qed.

End packaging.

Lemma main_builds_archive_witness :
  ∃ fs' out,
    Release.main Release.addon_literal Release.int_of_digits
      ["--as-zip"%string] Release.project = Some (fs', out) ∧
    Py.get fs' "emission_atlas_1.4_blender_4.1.1.zip"
      = Some (Release.Archive
                [("emission_atlas.py"%string, Release.File Release.addon_text);
                 ("LICENSE"%string, Release.File "MIT")]) ∧
    Py.get fs' "emission_atlas" = None.
Proof.
  destruct (main_builds_archive Release.addon_literal Release.int_of_digits
    ["--as-zip"%string] Release.project "1.4" "4.1.1"
    (Release.File Release.addon_text))
    as (fs' & out & Hrun & Hzip & Hgone & _);
    [by left|reflexivity|reflexivity|reflexivity|reflexivity|reflexivity
    |exact I|reflexivity|exact I|].
  exists fs', out. split; [exact Hrun|]. split; [exact Hzip|exact Hgone].
Defined.

(** C8 (as stated) fails when the target Blender version is neither given
    nor readable: on a script without [bl_info], [main --as-zip] prints the
    error line and returns, and no archive is built. *)
Lemma main_without_target_builds_nothing :
  Release.main Release.no_literal Release.int_of_digits ["--as-zip"%string]
    [("emission_atlas.py"%string, Release.File "import bpy")]
  = Some ([("emission_atlas.py"%string, Release.File "import bpy")],
          ["Error: Could not determine target Blender version from emission_atlas.py"%string]).
Proof. reflexivity. Qed.

(** * Further properties of the add-on *)

(** ** The dictionary of emission materials *)

Lemma dict_keys_set {V} (d : Py.dict V) (k : string) (v : V) :
  Py.keys (Py.set d k v)
    = if decide (k ∈ Py.keys d) then Py.keys d else Py.keys d ++ [k].
Proof.
  unfold Py.keys. induction d as [|[k' v'] d IH].
  - rewrite decide_False; [done|]. apply not_elem_of_nil.
  - cbn [Py.set]. rewrite (fmap_cons fst (k', v') d). cbn [fst].
    destruct (decide (k' = k)) as [->|Hne].
    + rewrite decide_True by left. done.
    + rewrite fmap_cons, IH. cbn [fst].
      destruct (decide (k ∈ d.*1)) as [Hin|Hout].
      * rewrite decide_True by (by right). done.
      * rewrite decide_False; [done|].
        rewrite not_elem_of_cons. split; [congruence|done].
Qed.

Lemma dict_set_NoDup {V} (d : Py.dict V) (k : string) (v : V) :
  NoDup (Py.keys d) → NoDup (Py.keys (Py.set d k v)).
Proof.
  intros Hnd. rewrite dict_keys_set. case_decide as Hin; [done|].
  apply NoDup_app. split; [done|]. split; [|apply NoDup_singleton].
  intros x Hx Hx'. apply list_elem_of_singleton in Hx'. by subst.
Qed.

Lemma emission_entry_Some (mat : material) :
  is_Some (emission_entry mat) ↔ has_emission mat.
Proof.
  unfold emission_entry, has_emission, emission_color.
  destruct (use_nodes mat); [|split; [by intros [? ?]|by intros [? ?]]].
  rewrite !fmap_is_Some. split; [by intros ?|by intros [_ ?]].
Qed.

(** One step of the loop over [bpy.data.materials]. *)
Lemma emission_step (acc : Py.dict rgb) (mat : material) :
  (if use_nodes mat then
     match first_emission_node mat with
     | Some nd => Py.set acc (mat_name mat) (rgb_of (node_color nd))
     | None => acc
     end
   else acc)
  = match emission_entry mat with
    | Some (name, color) => Py.set acc name color
    | None => acc
    end.
Proof.
  unfold emission_entry, emission_color.
  destruct (use_nodes mat); [|done].
  by destruct (first_emission_node mat).
Qed.

Lemma emission_fold_keys (materials : list material) (acc : Py.dict rgb)
    (name : string) :
  name ∈ Py.keys (foldl (λ emission_materials mat,
    if use_nodes mat then
      match first_emission_node mat with
      | Some nd =>
          Py.set emission_materials (mat_name mat) (rgb_of (node_color nd))
      | None => emission_materials
      end
    else emission_materials) acc materials)
  ↔ name ∈ Py.keys acc ∨
    ∃ mat, mat ∈ materials ∧ mat_name mat = name ∧ has_emission mat.
Proof.
  revert acc. induction materials as [|mat l IH]; intros acc; simpl.
  - split; [by left|]. intros [?|(? & Hin & _)]; [done|].
    by apply elem_of_nil in Hin.
  - rewrite IH, emission_step.
    destruct (emission_entry mat) as [[k c]|] eqn:Hentry.
    + assert (has_emission mat) as Hmat by (apply emission_entry_Some; eauto).
      assert (k = mat_name mat) as ->.
      { unfold emission_entry in Hentry. destruct (use_nodes mat); [|done].
        destruct (emission_color mat); simplify_eq/=. done. }
      rewrite dict_keys_set. split.
      * intros [Hin|(m & Hm & Hname & Hem)].
        -- case_decide; [by left|].
           apply elem_of_app in Hin as [?|Hin]; [by left|].
           apply list_elem_of_singleton in Hin. right. exists mat.
           split; [left|done].
        -- right. exists m. split; [by right|done].
      * intros [Hin|(m & Hm & Hname & Hem)].
        -- left. case_decide; [done|]. apply elem_of_app. by left.
        -- apply elem_of_cons in Hm as [->|Hm].
           ++ left. case_decide; [by subst|].
              apply elem_of_app. right. subst. by apply list_elem_of_singleton.
           ++ right. eauto.
    + assert (¬ has_emission mat) as Hmat.
      { intros Hem. apply emission_entry_Some in Hem as [? Hem].
        congruence. }
      split.
      * intros [?|(m & Hm & ? & ?)]; [by left|].
        right. exists m. split; [by right|done].
      * intros [?|(m & Hm & ? & ?)]; [by left|].
        apply elem_of_cons in Hm as [->|Hm]; [done|]. right. eauto.
Qed.

Lemma emission_fold_NoDup (materials : list material) (acc : Py.dict rgb) :
  NoDup (Py.keys acc) →
  NoDup (Py.keys (foldl (λ emission_materials mat,
    if use_nodes mat then
      match first_emission_node mat with
      | Some nd =>
          Py.set emission_materials (mat_name mat) (rgb_of (node_color nd))
      | None => emission_materials
      end
    else emission_materials) acc materials)).
Proof.
  revert acc. induction materials as [|mat l IH]; intros acc Hnd; [done|].
  simpl. apply IH. rewrite emission_step.
  destruct (emission_entry mat) as [[k c]|]; [|done].
  by apply dict_set_NoDup.
Qed.

(** X1. The dictionary built by [get_simple_emission_materials] has one key
    per name, and a name is a key exactly when some material of the file with
    that name uses nodes and has a node of type ['EMISSION'], whatever else
    the node tree holds and whether or not any object uses the material. *)
Theorem emission_materials_keys (materials : list material) :
  NoDup (Py.keys (get_simple_emission_materials materials)) ∧
  ∀ name,
    name ∈ Py.keys (get_simple_emission_materials materials)
    ↔ ∃ mat, mat ∈ materials ∧ mat_name mat = name ∧ has_emission mat.
Proof.
  split.
  - apply emission_fold_NoDup. constructor.
  - intros name. unfold get_simple_emission_materials.
    rewrite emission_fold_keys. split; [|by right].
    intros [Hin|?]; [|done]. by apply elem_of_nil in Hin.
Qed.

Lemma emission_fold_closed (materials : list material) (acc : Py.dict rgb) :
  NoDup (material_names materials) →
  (∀ mat, mat ∈ materials → mat_name mat ∉ Py.keys acc) →
  foldl (λ emission_materials mat,
    if use_nodes mat then
      match first_emission_node mat with
      | Some nd =>
          Py.set emission_materials (mat_name mat) (rgb_of (node_color nd))
      | None => emission_materials
      end
    else emission_materials) acc materials
  = acc ++ omap emission_entry materials.
Proof.
  revert acc. induction materials as [|mat l IH]; intros acc Hnd Hfresh.
  - simpl. by rewrite app_nil_r.
  - unfold material_names in Hnd. rewrite fmap_cons in Hnd.
    apply NoDup_cons in Hnd as [Hhd Hnd].
    cbn [foldl]. rewrite emission_step. cbn [omap list_omap].
    destruct (emission_entry mat) as [[k c]|] eqn:Hentry.
    + assert (k = mat_name mat) as ->.
      { unfold emission_entry in Hentry. destruct (use_nodes mat); [|done].
        destruct (emission_color mat); simplify_eq/=. done. }
      rewrite dict_set_new by (apply Hfresh; left).
      rewrite IH; [by rewrite <- app_assoc|done|].
      intros m Hm. unfold Py.keys. rewrite fmap_app, elem_of_app.
      intros [Hin|Hin].
      * eapply Hfresh; [right; exact Hm|exact Hin].
      * simpl in Hin. apply list_elem_of_singleton in Hin.
        apply Hhd. rewrite <- Hin. apply list_elem_of_fmap. eauto.
    + apply IH; [done|]. intros m Hm. apply Hfresh. by right.
Qed.

(** X2. When the material names of the file are distinct, as the host keeps
    them, the dictionary lists the materials that use nodes and have an
    emission node in the order of [bpy.data.materials], each with the RGB of
    the ["Color"] input of its first emission node: this is the order of the
    atlas columns. *)
Theorem emission_materials_in_file_order (materials : list material) :
  NoDup (material_names materials) →
  get_simple_emission_materials materials = omap emission_entry materials.
Proof.
  intros Hnd. unfold get_simple_emission_materials.
  rewrite emission_fold_closed; [done|done|].
  intros mat _. apply not_elem_of_nil.
Qed.

Lemma emission_materials_in_file_order_witness :
  get_simple_emission_materials (data_materials spare_material_scene)
  = [("Red"%string, (1, 0, 0)%Q); ("Spare"%string, (0, 0, 1)%Q)].
Proof.
  rewrite emission_materials_in_file_order; [reflexivity|].
  apply (bool_decide_unpack _). vm_compute. exact I.
Defined.

(** ** The Create Atlas operator: when it cancels *)

(** X3. The Create Atlas operator returns [CANCELLED] exactly when no
    material of the file uses nodes with an emission node, and then it leaves
    everything as it was, the revert map included. The second cancellation
    of the source, after [create_texture_atlas], is never taken. *)
Theorem convert_cancelled_iff (w w' : world) :
  ConvertToEmissionAtlas_execute w = Some (CANCELLED, w')
  ↔ (∀ mat, mat ∈ data_materials w → ¬ has_emission mat) ∧ w' = w.
Proof.
  assert (∀ name,
    name ∈ Py.keys (get_simple_emission_materials (data_materials w))
    ↔ ∃ mat, mat ∈ data_materials w ∧ mat_name mat = name ∧ has_emission mat)
    as Hkeys.
  { intros name. unfold get_simple_emission_materials.
    rewrite emission_fold_keys. split; [|by right].
    intros [Hin|?]; [|done]. by apply elem_of_nil in Hin. }
  unfold ConvertToEmissionAtlas_execute.
  set (materials := get_simple_emission_materials (data_materials w)) in *.
  split.
  - case_decide as Hempty.
    + intros [= <-]. split; [|done]. intros mat Hmat Hem.
      assert (mat_name mat ∈ Py.keys materials) as Hin
        by (apply Hkeys; eauto).
      rewrite Hempty in Hin. by apply elem_of_nil in Hin.
    + destruct (create_texture_atlas_returns (data_images w) materials
        1024 256) as [atlas ->].
      { rewrite keys_length. destruct materials; [done|]. simpl. lia. }
      cbn [mbind option_bind].
      destruct (create_atlas_material _ _) as [atlas_mat mats].
      destruct (Py.map_for_each _ _ _) as [[objs om]|]; [|done].
      cbn [mbind option_bind]. done.
  - intros [Hnone ->]. rewrite decide_True; [done|].
    destruct materials as [|[name color] rest] eqn:Hm; [done|].
    destruct (proj1 (Hkeys name)) as (mat & Hmat & _ & Hem); [left|].
    by destruct (Hnone mat Hmat).
Qed.

(** ** The atlas image *)

Lemma create_texture_atlas_blank images material_colors (W H : Z)
    (atlas : image) (images' : list image) :
  create_texture_atlas images material_colors W H = Some (Some atlas, images') →
  column_width W (Z.of_nat (length (Py.keys material_colors))) ≤ 0 ∨ H ≤ 0 →
  img_pixels atlas = Py.repeat 0%Q (W * H * 4).
Proof.
  unfold create_texture_atlas. intros Hcreate Hnoop.
  case_decide; [done|]. rewrite atlas_pixels_noop in Hcreate by done.
  cbn [mbind option_bind] in Hcreate. by injection Hcreate as <- _.
Qed.

Lemma blank_buf_ok (W H : Z) :
  0 ≤ W → 0 ≤ H → buf_ok W H (λ _ _ _, 0%Q) (Py.repeat 0%Q (W * H * 4)).
Proof.
  intros HW HH. split.
  - unfold Py.repeat. rewrite length_replicate. nia.
  - intros x y c Hx Hy Hc. unfold Py.repeat. apply lookup_replicate_2.
    pose proof (px_index_bound W H x y c Hx Hy Hc). lia.
Qed.

(** X4. Right of the last column the atlas stays empty: every pixel with
    [n * (atlas_width // n) <= x < atlas_width] keeps the initial value
    [(0, 0, 0, 0)]. For 25 materials on 1024 pixels this is a strip of 24
    columns, and with more materials than pixels it is the whole image. *)
Theorem atlas_right_strip_blank (images images' : list image)
    (material_colors : Py.dict rgb) (W H : Z) (atlas : image) (x y : Z) :
  let n := Z.of_nat (length (Py.keys material_colors)) in
  0 < W →
  create_texture_atlas images material_colors W H
    = Some (Some atlas, images') →
  n * (W `div` n) ≤ x < W → 0 ≤ y < H →
  pixel_at (img_pixels atlas) W x y = Some (0, 0, 0, 0)%Q.
Proof.
  intros n HW0 Hcreate Hx Hy. fold (column_width W n) in Hx.
  assert (0 < n) as Hn.
  { unfold create_texture_atlas in Hcreate. case_decide; [done|]. lia. }
  destruct (decide (0 < column_width W n)) as [Hcw|Hcw].
  - apply create_texture_atlas_pixels in Hcreate; [|exact Hcw|lia].
    assert (0 ≤ x) as Hx0 by nia.
    rewrite (buf_ok_pixel_at W H _ _ x y Hcreate) by lia.
    unfold atlas_layout. fold n. by rewrite !decide_False by lia.
  - assert (0 ≤ W) as HW by lia.
    assert (column_width W n = 0) as Hzero.
    { pose proof (Z.div_pos W n HW Hn). unfold column_width in *. lia. }
    rewrite (create_texture_atlas_blank _ _ _ _ _ _ Hcreate)
      by (left; fold n; lia).
    rewrite (buf_ok_pixel_at W H _ _ x y (blank_buf_ok W H HW ltac:(lia)));
      [done|lia|lia].
Qed.

Lemma atlas_right_strip_blank_witness :
  ∃ atlas,
    create_texture_atlas [] three_colors 5 2 = Some (Some atlas, [atlas]) ∧
    pixel_at (img_pixels atlas) 5 3 1 = Some (0, 0, 0, 0)%Q ∧
    pixel_at (img_pixels atlas) 5 4 0 = Some (0, 0, 0, 0)%Q.
Proof.
  destruct (create_texture_atlas_returns [] three_colors 5 2) as [atlas Hrun];
    [simpl; lia|].
  exists atlas. split; [exact Hrun|]. split.
  - apply (atlas_right_strip_blank [] ([] ++ [atlas]) three_colors 5 2 atlas 3 1);
      [lia|exact Hrun|vm_compute; split; congruence|lia].
  - apply (atlas_right_strip_blank [] ([] ++ [atlas]) three_colors 5 2 atlas 4 0);
      [lia|exact Hrun|vm_compute; split; congruence|lia].
Defined.



(** ** The index of each material *)

Lemma index_fold_closed (ps : list (Z * string)) (acc : Py.dict Z) :
  NoDup (ps.*2) →
  (∀ p, p ∈ ps → p.2 ∉ Py.keys acc) →
  foldl (λ mat_index_map '(idx, mat_name), Py.set mat_index_map mat_name idx)
    acc ps
  = acc ++ ((λ p, (p.2, p.1)) <$> ps).
Proof.
  revert acc. induction ps as [|[i k] ps IH]; intros acc Hnd Hfresh.
  - simpl. by rewrite app_nil_r.
  - rewrite fmap_cons in Hnd. apply NoDup_cons in Hnd as [Hhd Hnd].
    cbn [foldl]. rewrite dict_set_new by (apply (Hfresh (i, k)); left).
    rewrite IH; [by rewrite fmap_cons, <- app_assoc|done|].
    intros p Hp. unfold Py.keys. rewrite fmap_app, elem_of_app.
    intros [Hin|Hin].
    + eapply Hfresh; [right; exact Hp|exact Hin].
    + simpl in Hin. apply list_elem_of_singleton in Hin.
      apply Hhd. simpl. rewrite <- Hin. apply list_elem_of_fmap. eauto.
Qed.

Lemma enumerate_snd {A} (l : list A) : (Py.enumerate l).*2 = l.
Proof.
  unfold Py.enumerate. apply snd_zip. rewrite length_seqZ. lia.
Qed.

(** X6. Step 2 of the Create Atlas operator numbers the materials by their
    column: the material whose name is the [i]-th key of the dictionary gets
    index [i], the column that [create_texture_atlas] fills with its colour,
    and the map has exactly one entry per column. *)
Theorem index_map_is_column (materials : list material) (i : nat)
    (name : string) :
  let colors := get_simple_emission_materials materials in
  Py.keys colors !! i = Some name →
  Py.get (build_index_map colors) name = Some (Z.of_nat i) ∧
  Py.keys (build_index_map colors) = Py.keys colors.
Proof.
  intros colors Hname.
  assert (NoDup (Py.keys colors)) as Hnd
    by (apply emission_fold_NoDup; constructor).
  assert (build_index_map colors
          = (λ p, (p.2, p.1)) <$> Py.enumerate (Py.keys colors)) as Hmap.
  { unfold build_index_map. rewrite index_fold_closed; [done| |].
    - by rewrite enumerate_snd.
    - intros p _. apply not_elem_of_nil. }
  assert (Py.keys (build_index_map colors) = Py.keys colors) as Hkeys.
  { rewrite Hmap. unfold Py.keys at 1. rewrite <- list_fmap_compose.
    rewrite <- (enumerate_snd (Py.keys colors)) at 2. done. }
  split; [|exact Hkeys].
  apply dict_get_elem_of; [by rewrite Hkeys|].
  rewrite Hmap. apply list_elem_of_fmap. exists (Z.of_nat i, name).
  split; [done|]. apply list_elem_of_lookup. exists i.
  unfold Py.enumerate. rewrite lookup_zip_with, Hname.
  rewrite lookup_seqZ_lt by (apply lookup_lt_Some in Hname; lia).
  simpl. repeat f_equal; lia.
Qed.

Lemma index_map_is_column_witness :
  Py.get (build_index_map
            (get_simple_emission_materials
               (data_materials spare_material_scene))) "Spare"
    = Some 1.
Proof.
  apply (index_map_is_column (data_materials spare_material_scene) 1 "Spare").
  reflexivity.
Defined.

(** ** What [remap_uvs] leaves alone *)

Lemma remap_face_untouched slots mat_index_map (W : Z) (cw : Q) (f f' : face) :
  remap_face slots mat_index_map W cw f = Some f' →
  (∀ name, Py.getitem slots (material_index f) = Some (Some name) →
           Py.get mat_index_map name = None) →
  f' = f.
Proof.
  unfold remap_face. intros Hrun Hnone.
  case_decide; [|by injection Hrun].
  destruct (Py.getitem slots (material_index f)) as [[name|]|]; [| |done].
  - cbn [mbind option_bind] in Hrun. rewrite (Hnone name eq_refl) in Hrun.
    by injection Hrun.
  - cbn [mbind option_bind] in Hrun. by injection Hrun.
Qed.

(** X7. [remap_uvs] changes UV coordinates and nothing else: the object
    keeps its name, type and material slots, every face keeps its material
    index and its number of loops, and a face whose slot is out of range,
    empty, or holds a material that is not in the index map is left exactly
    as it was. *)
Theorem remap_uvs_only_moves_uvs (obj obj' : object)
    (mat_index_map : Py.dict Z) (W H : Z) :
  remap_uvs obj mat_index_map W H = Some obj' →
  obj_name obj' = obj_name obj ∧ obj_type obj' = obj_type obj ∧
  material_slots obj' = material_slots obj ∧
  Forall2 (λ f f',
    material_index f' = material_index f ∧
    length (loops f') = length (loops f) ∧
    ((∀ name,
        Py.getitem (material_slots obj) (material_index f) = Some (Some name) →
        Py.get mat_index_map name = None) → f' = f))
    (faces obj) (faces obj').
Proof.
  intros Hrun. pose proof (remap_uvs_fields _ _ _ _ _ Hrun) as (Hn & Ht & Hs).
  split; [exact Hn|]. split; [exact Ht|]. split; [exact Hs|].
  unfold remap_uvs in Hrun. case_decide as Hempty.
  - injection Hrun as <-. apply Forall_Forall2_diag, Forall_forall.
    intros f _. done.
  - destruct (Py.truediv _ _) as [cw|]; [|done].
    cbn [mbind option_bind] in Hrun.
    destruct (mapM _ (faces obj)) as [faces'|] eqn:Hfaces; [|done].
    cbn [mbind option_bind] in Hrun. injection Hrun as <-. simpl.
    apply mapM_Some_1 in Hfaces.
    eapply Forall2_impl; [exact Hfaces|]. intros f f' Hf. simpl in Hf.
    pose proof (remap_face_fields _ _ _ _ _ _ Hf) as [Hidx Hlen].
    split; [exact Hidx|]. split; [exact Hlen|].
    intros Hnone. exact (remap_face_untouched _ _ _ _ _ _ Hf Hnone).
Qed.

Lemma remap_uvs_only_moves_uvs_witness :
  ∃ obj',
    remap_uvs (mkObject "Cube" "MESH" [Some "Red"%string; Some "Wood"%string]
                 [triangle 0; triangle 1])
      [("Red"%string, 0)] 1024 256 = Some obj' ∧
    (faces obj') !! 1%nat = Some (triangle 1).
Proof.
  destruct (remap_uvs (mkObject "Cube" "MESH"
      [Some "Red"%string; Some "Wood"%string] [triangle 0; triangle 1])
    [("Red"%string, 0)] 1024 256) as [obj'|] eqn:Hrun;
    [|vm_compute in Hrun; discriminate].
  exists obj'. split; [done|].
  destruct (remap_uvs_only_moves_uvs _ _ _ _ _ Hrun) as (_ & _ & _ & Hfaces).
  simpl in Hfaces.
  destruct (Forall2_lookup_l _ _ _ 1%nat (triangle 1) Hfaces eq_refl)
    as (f' & Hf' & _ & _ & Hsame).
  rewrite Hf'. f_equal. apply Hsame.
  intros name Hname. vm_compute in Hname. injection Hname as <-. reflexivity.
Defined.

(** ** The Revert operator *)

Lemma revert_object_fields materials originals (obj : object) :
  obj_name (revert_object materials originals obj) = obj_name obj ∧
  obj_type (revert_object materials originals obj) = obj_type obj ∧
  faces (revert_object materials originals obj) = faces obj.
Proof.
  unfold revert_object. destruct (Py.get originals (obj_name obj)); [|done].
  by case_decide.
Qed.

Lemma revert_object_idempotent materials originals (obj : object) :
  revert_object materials originals (revert_object materials originals obj)
  = revert_object materials originals obj.
Proof.
  pose proof (revert_object_fields materials originals obj) as (Hn & Ht & Hf).
  unfold revert_object at 1. rewrite Hn, Ht, Hf.
  unfold revert_object.
  destruct (Py.get originals (obj_name obj)) as [mat_list|]; [|done].
  by case_decide.
Qed.

(** X8. The Revert operator is idempotent and reads without writing: it
    never changes [bpy.data.materials], [bpy.data.images] or the revert map,
    it never touches the faces (so the UVs remapped by Create Atlas stay as
    they are), and running it a second time changes nothing more. *)
Theorem revert_idempotent (w : world) :
  let w1 := (RevertEmissionAtlas_execute w).2 in
  RevertEmissionAtlas_execute w1 = RevertEmissionAtlas_execute w ∧
  data_materials w1 = data_materials w ∧
  data_images w1 = data_images w ∧
  ORIGINAL_MATERIALS w1 = ORIGINAL_MATERIALS w ∧
  (faces <$> selected_objects w1) = (faces <$> selected_objects w).
Proof.
  unfold RevertEmissionAtlas_execute.
  destruct (decide (ORIGINAL_MATERIALS w = [])) as [Hempty|Hempty];
    cbn [snd ORIGINAL_MATERIALS selected_objects data_materials data_images].
  - rewrite decide_True by done. done.
  - rewrite decide_False by done.
    cbn [snd ORIGINAL_MATERIALS selected_objects data_materials data_images].
    split; [|split; [done|split; [done|split; [done|]]]].
    + do 2 f_equal. rewrite <- list_fmap_compose.
      apply list_fmap_ext. intros i obj _. simpl.
      apply revert_object_idempotent.
    + rewrite <- list_fmap_compose. apply list_fmap_ext.
      intros i obj _. simpl. apply revert_object_fields.
Qed.

Lemma filter_all {A} (P : A → Prop) `{!∀ x, Decision (P x)} (l : list A) :
  Forall P l → filter P l = l.
Proof.
  induction 1 as [|x l Hx _ IH]; [done|].
  rewrite filter_cons, decide_True by done. by rewrite IH.
Qed.

(** X9. Create Atlas followed by Revert is a round trip on the material
    slots, for a selection whose objects have distinct names and in which no
    two meshes share their mesh data: when every slot of a selected mesh
    holds a material of the file (no empty slot), Revert, run right after a
    finished Create Atlas, finishes, and every selected mesh then has exactly
    the material slots it started with. *)
Theorem convert_then_revert_restores_slots (s s' : scene) :
  NoDup (lk_name <$> sc_selected s) →
  NoDup (lk_data <$> selected_meshes (sc_selected s)) →
  (∀ o, o ∈ selected_meshes (sc_selected s) →
     Forall (slot_restorable (sc_materials s)) (slots_of (sc_meshes s) o)) →
  ConvertToEmissionAtlas_linked s = Some (FINISHED, s') →
  ∃ st s'',
    RevertEmissionAtlas_linked s' = Some (st, s'') ∧
    (selected_meshes (sc_selected s) ≠ [] → st = FINISHED) ∧
    ∀ o, o ∈ selected_meshes (sc_selected s) →
      slots_of (sc_meshes s'') o = slots_of (sc_meshes s) o.
Proof.
  intros Hnames Hdata Hvalid Hrun.
  destruct (revert_after_convert_linked s s' Hnames Hdata Hrun)
    as (st & s'' & Hrev & Hslots).
  destruct (convert_linked_inv s s' Hrun) as (atlas & Hmats & _ & Hloop).
  destruct (convert_linked_loop _ _ _ (sc_selected s) (sc_meshes s)
    (sc_meshes s') [] (sc_originals s') Hnames Hdata
    ltac:(intros; apply not_elem_of_nil) Hloop) as (Hom & _ & _).
  cbn [app] in Hom.
  exists st, s''. split; [exact Hrev|]. split.
  - intros Hsome. revert Hrev. unfold RevertEmissionAtlas_linked.
    case_decide as Hempty.
    + rewrite Hempty in Hom. symmetry in Hom. apply fmap_nil_inv in Hom.
      by destruct Hsome.
    + destruct (Py.for_each (sc_selected s') _ _); [|done].
      cbn [mbind option_bind]. intros Heq. by simplify_eq.
  - intros o Ho. rewrite (Hslots o Ho).
    apply filter_all, Forall_forall. intros slot Hslot.
    pose proof (proj1 (Forall_forall _ _) (Hvalid o Ho) slot Hslot) as Hok.
    destruct slot as [name|]; [|done]. simpl in *.
    rewrite Hmats. unfold create_atlas_material. simpl.
    rewrite material_names_app. apply elem_of_app. by left.
Qed.

Lemma convert_then_revert_restores_slots_witness :
  ∃ s' st s'',
    ConvertToEmissionAtlas_linked linked_scene = Some (FINISHED, s') ∧
    RevertEmissionAtlas_linked s' = Some (st, s'') ∧
    slots_of (sc_meshes s'') (mkLinked "Cube" "MESH" "Cube")
      = [Some "Red"%string; Some "Green"%string].
Proof.
  destruct linked_scene_finishes as [s' Hrun].
  destruct (convert_then_revert_restores_slots linked_scene s')
    as (st & s'' & Hrev & _ & Hslots); [| | |exact Hrun|].
  - apply (bool_decide_unpack _). vm_compute. exact I.
  - apply (bool_decide_unpack _). vm_compute. exact I.
  - intros o Ho. vm_compute in Ho.
    apply list_elem_of_singleton in Ho as ->.
    repeat constructor; apply (bool_decide_unpack _); vm_compute; exact I.
  - exists s', st, s''. split; [exact Hrun|]. split; [exact Hrev|].
    rewrite Hslots; [reflexivity|]. vm_compute. by left.
Defined.

(** ** Running Create Atlas again *)

Lemma emission_materials_snoc (materials : list material) (mat : material) :
  get_simple_emission_materials (materials ++ [mat])
  = match emission_entry mat with
    | Some (name, color) =>
        Py.set (get_simple_emission_materials materials) name color
    | None => get_simple_emission_materials materials
    end.
Proof.
  unfold get_simple_emission_materials. rewrite foldl_app. cbn [foldl].
  apply emission_step.
Qed.

(** X10. The atlas material itself counts as a simple emission material:
    after a finished run the dictionary of emission materials of the file is
    the one before the run followed by one new entry, the atlas material
    with the default colour of its emission node. A second run of Create
    Atlas therefore builds an atlas with one more column than the first. *)
Theorem atlas_material_counts_as_emission (w w' : world) :
  ConvertToEmissionAtlas_execute w = Some (FINISHED, w') →
  ∃ atlas_mat,
    (atlas_mat ∉ material_names (data_materials w)) ∧
    get_simple_emission_materials (data_materials w')
    = get_simple_emission_materials (data_materials w)
      ++ [(atlas_mat, rgb_of (node_color (new_node "EMISSION")))].
Proof.
  intros Hrun.
  destruct (convert_execute_inv w w' Hrun) as (atlas & _ & _ & _ & Hmats & _).
  pose proof (unique_name_fresh "AtlasMaterial"
    (material_names (data_materials w))) as Hnew.
  exists (unique_name "AtlasMaterial" (material_names (data_materials w))).
  split; [exact Hnew|].
  rewrite Hmats. unfold create_atlas_material. cbn [snd].
  rewrite emission_materials_snoc.
  change (emission_entry _) with
    (Some (unique_name "AtlasMaterial" (material_names (data_materials w)),
           rgb_of (node_color (new_node "EMISSION")))).
  apply dict_set_new. intros Hin.
  apply (emission_fold_keys (data_materials w) []) in Hin
    as [Hin|(mat & Hmat & Hname & _)]; [by apply elem_of_nil in Hin|].
  apply Hnew. rewrite <- Hname. apply list_elem_of_fmap. eauto.
Qed.

Lemma atlas_material_counts_as_emission_witness :
  ∃ w' atlas_mat,
    ConvertToEmissionAtlas_execute two_color_scene = Some (FINISHED, w') ∧
    Py.keys (get_simple_emission_materials (data_materials w'))
    = ["Red"%string; "Green"%string; atlas_mat].
Proof.
  destruct two_color_scene_finishes as [w' Hrun].
  destruct (atlas_material_counts_as_emission two_color_scene w' Hrun)
    as (atlas_mat & _ & Hkeys).
  exists w', atlas_mat. split; [exact Hrun|]. by rewrite Hkeys.
Defined.

(** ** From Create Atlas to Unpack *)

Lemma find_image_app_new (images : list image) (img : image) :
  img_name img ∉ image_names images →
  find_image (images ++ [img]) (img_name img) = Some img.
Proof.
  intros Hfresh. unfold find_image. rewrite list_find_app_r.
  - simpl. by rewrite decide_True.
  - apply list_find_None, Forall_forall. intros m Hm Heq. apply Hfresh.
    unfold image_names. apply list_elem_of_fmap. eauto.
Qed.

(** X11. The Unpack operator finds the atlas that Create Atlas has just
    made: after a finished run, the search of step 1 of Unpack, on every
    selected mesh, returns the image the run created, and that image records
    as many columns as the run found emission materials. *)
Theorem unpack_finds_created_atlas (w w' : world) :
  ConvertToEmissionAtlas_execute w = Some (FINISHED, w') →
  ∃ atlas,
    data_images w' = data_images w ++ [atlas] ∧
    atlas_columns atlas
      = Z.of_nat (length (get_simple_emission_materials (data_materials w))) ∧
    Forall2 (λ obj obj',
      obj_type obj = "MESH" →
      find_atlas_image (data_materials w') (data_images w')
        (material_slots obj') = Some atlas)
      (selected_objects w) (selected_objects w').
Proof.
  intros Hrun.
  destruct (convert_execute_inv w w' Hrun)
    as (atlas & Hne & Hcreate & Himgs & Hmats & Hloop).
  pose proof (create_texture_atlas_name _ _ _ _ _ _ Hcreate)
    as (Hfresh & Hcols & _).
  rewrite keys_length in Hcols.
  exists atlas. split; [exact Himgs|]. split.
  { apply atlas_columns_get; [exact Hcols|].
    destruct (get_simple_emission_materials _); [done|]. simpl. lia. }
  eapply map_for_each_Forall2; [|exact Hloop].
  intros obj om obj' om' Hstep Hmesh. apply convert_object_spec in Hstep.
  rewrite decide_True in Hstep by done. destruct Hstep as (_ & -> & _).
  pose proof (unique_name_fresh "AtlasMaterial"
    (material_names (data_materials w))) as Hnew.
  unfold find_atlas_image. cbn [Py.first_some mbind option_bind].
  rewrite Hmats. unfold create_atlas_material. cbn [fst snd].
  rewrite (find_material_app_new (data_materials w)
    (mkMaterial (unique_name "AtlasMaterial"
                   (material_names (data_materials w))) true _ _)) by exact Hnew.
  cbn [mbind option_bind use_nodes nodes Py.first_some].
  unfold node_atlas_image at 1. cbn [node_type node_image].
  rewrite decide_True by done. cbn [mbind option_bind].
  rewrite Himgs, find_image_app_new by exact Hfresh.
  cbn [mbind option_bind].
  assert (Py.mem (img_props atlas) "atlas_columns" = true) as ->; [|done].
  apply ReleaseFacts.dict_mem_true. eauto.
Qed.

Lemma unpack_finds_created_atlas_witness :
  ∃ w' atlas,
    ConvertToEmissionAtlas_execute two_color_scene = Some (FINISHED, w') ∧
    data_images w' = [atlas] ∧ atlas_columns atlas = 2.
Proof.
  destruct two_color_scene_finishes as [w' Hrun].
  destruct (unpack_finds_created_atlas two_color_scene w' Hrun)
    as (atlas & Himgs & Hcols & _).
  exists w', atlas. split; [exact Hrun|]. split; [exact Himgs|exact Hcols].
Defined.

(** ** The column of a UV coordinate *)

(** X12. The borders between the columns are decided by the rounding of
    the floats, not by the exact slices: on the atlas of width 1024 with 10
    columns the column width 102.4 is not a binary64 number and is stored
    slightly too large, so a face whose first UV is 0.5, exactly on the left
    border of column 5, is classified as column 4 by the Unpack operator,
    where exact arithmetic gives 5. *)
Theorem face_column_border_rounds_down :
  ∃ cwf,
    Binary64.column_width_float 1024 10 = Some cwf ∧
    (1024 / 10 < cwf)%Q ∧
    Binary64.face_column (1 # 2) 1024 10 cwf = Some 4 ∧
    face_column (1 # 2) 1024 10 (1024 / 10) = Some 5.
Proof.
  eexists. split; [vm_compute; reflexivity|].
  split; [vm_compute; reflexivity|].
  split; vm_compute; reflexivity.
Qed.



(** ** The Unpack operator: what it skips and what it reuses *)

Lemma unpack_objects_skipped (images : list image) (materials : list material)
    (cms : Py.dict (list string)) (objs : list object) :
  Forall (λ obj,
    obj_type obj ≠ "MESH" ∨
    find_atlas_image materials images (material_slots obj) = None) objs →
  Py.map_for_each (unpack_object images) objs (materials, cms)
  = Some (objs, (materials, cms)).
Proof.
  induction 1 as [|obj objs Hobj _ IH]; [done|].
  cbn [Py.map_for_each].
  assert (unpack_object images obj (materials, cms)
          = Some (obj, (materials, cms))) as ->.
  { unfold unpack_object. destruct Hobj as [Hmesh|Hnone].
    - by rewrite decide_True.
    - case_decide; [done|]. by rewrite Hnone. }
  cbn [mbind option_bind]. rewrite IH. done.
Qed.

(** X14. The Unpack operator does nothing to a selection without atlas: when
    every selected object is either not a mesh or has no slot whose material
    holds an image texture node with an ["atlas_columns"] image, the
    operator finishes and leaves the objects, the materials and everything
    else exactly as they were; no material is created. *)
Theorem unpack_without_atlas_is_noop (w : world) :
  Forall (λ obj,
    obj_type obj ≠ "MESH" ∨
    find_atlas_image (data_materials w) (data_images w) (material_slots obj)
      = None) (selected_objects w) →
  UnpackEmissionAtlas_execute w = Some (FINISHED, w).
Proof.
  intros Hskip. unfold UnpackEmissionAtlas_execute.
  rewrite unpack_objects_skipped by done. cbn [mbind option_bind].
  by destruct w.
Qed.

Lemma unpack_without_atlas_is_noop_witness :
  UnpackEmissionAtlas_execute two_color_scene = Some (FINISHED, two_color_scene).
Proof.
  apply unpack_without_atlas_is_noop.
  apply Forall_cons_2; [right; vm_compute; reflexivity|].
  apply Forall_cons_2; [left; vm_compute; discriminate|]. apply Forall_nil_2.
Defined.




(** * Further properties of the packaging script *)

Import Release ReleaseFacts.

(** ** Splitting and joining *)

Lemma split_nonempty (sep : ascii) (s : string) : split sep s ≠ [].
Proof.
  destruct s as [|c s]; [done|]. cbn [split]. case_decide; [done|].
  by destruct (split sep s).
Qed.

Lemma split_part (sep : ascii) (c : ascii) (s : string) :
  split sep (String c s) = [String c s] → c ≠ sep ∧ split sep s = [s].
Proof.
  cbn [split]. case_decide as Hc.
  - intros Hs. injection Hs as Hs _. discriminate.
  - destruct (split sep s) as [|part parts] eqn:Hs.
    + by destruct (split_nonempty sep s).
    + intros [= -> ->]. done.
Qed.

Lemma split_app_sep (sep : ascii) (x rest : string) :
  split sep x = [x] →
  split sep (x +:+ String sep rest) = x :: split sep rest.
Proof.
  induction x as [|c x IH]; intros Hx.
  - change ("" +:+ String sep rest) with (String sep rest).
    cbn [split]. by destruct (decide (sep = sep)).
  - apply split_part in Hx as [Hc Hx].
    change (String c x +:+ String sep rest)
      with (String c (x +:+ String sep rest)).
    cbn [split]. destruct (decide (c = sep)); [done|].
    by rewrite IH.
Qed.

Lemma split_concat_cons (sep : ascii) (ps : list string) (p : string) :
  Forall (λ part, split sep part = [part]) (p :: ps) →
  split sep (String.concat (String sep "") (p :: ps)) = p :: ps.
Proof.
  revert p. induction ps as [|q qs IH]; intros p Hfree.
  - apply Forall_cons in Hfree as [Hp _]. exact Hp.
  - apply Forall_cons in Hfree as [Hp Hfree].
    change (String.concat (String sep "") (p :: q :: qs))
      with (p +:+ String sep (String.concat (String sep "") (q :: qs))).
    rewrite split_app_sep by done. f_equal. by apply IH.
Qed.

Lemma split_concat (sep : ascii) (parts : list string) (last : string) :
  Forall (λ part, split sep part = [part]) (parts ++ [last]) →
  split sep (String.concat (String sep "") (parts ++ [last]))
  = parts ++ [last].
Proof.
  destruct (parts ++ [last]) as [|p ps] eqn:Hps.
  { by destruct parts. }
  apply split_concat_cons.
Qed.

Lemma norm_index_last (n : nat) :
  Py.norm_index (Z.of_nat (n + 1)) (-1) = Some n.
Proof.
  unfold Py.norm_index.
  destruct (decide (0 ≤ -1 < Z.of_nat (n + 1))); [lia|].
  destruct (decide (- Z.of_nat (n + 1) ≤ -1 < 0)); [|lia].
  f_equal. lia.
Qed.

Lemma getitem_last {A} (l : list A) (x : A) :
  Py.getitem (l ++ [x]) (-1) = Some x.
Proof.
  unfold Py.getitem. rewrite length_app. cbn [length].
  rewrite norm_index_last. cbn [mbind option_bind].
  by rewrite lookup_app_r, Nat.sub_diag.
Qed.

Lemma setitem_last {A} (l : list A) (x v : A) :
  Py.setitem (l ++ [x]) (-1) v = Some (l ++ [v]).
Proof.
  unfold Py.setitem. rewrite length_app. cbn [length].
  rewrite norm_index_last. cbn [mbind option_bind].
  f_equal. rewrite insert_app_r_alt, Nat.sub_diag by lia. done.
Qed.

(** X16. [increment_version] adds one to the last dot-separated component
    and leaves the others as they are, however many components there are
    (["1.3"] becomes ["1.4"], ["2.0.9"] becomes ["2.0.10"]); it raises when
    the last component is not an integer for [int], and it answers
    ["0.0.1"] when no version could be read. *)
Theorem increment_version_last (py_int : string → option Z)
    (parts : list string) (last : string) :
  Forall (λ part, split "." part = [part]) (parts ++ [last]) →
  increment_version py_int (Some (String.concat "." (parts ++ [last])))
  = (n ← py_int last;
     Some (String.concat "." (parts ++ [pretty (n + 1)]))) ∧
  increment_version py_int None = Some "0.0.1"%string.
Proof.
  intros Hfree. split; [|done]. unfold increment_version.
  rewrite split_concat by done. rewrite getitem_last.
  cbn [mbind option_bind]. destruct (py_int last) as [n|]; [|done].
  cbn [mbind option_bind]. by rewrite setitem_last.
Qed.

Lemma increment_version_last_witness :
  increment_version int_of_digits (Some "2.0.9"%string)
  = Some "2.0.10"%string.
Proof.
  destruct (increment_version_last int_of_digits
    ["2"%string; "0"%string] "9") as [Hinc _].
  { repeat constructor. }
  exact Hinc.
Defined.
(** ** The command line *)

Lemma strip_prefix_app (p s r : string) :
  strip_prefix p s = Some r → s = p +:+ r.
Proof.
  revert s. induction p as [|a p IH]; intros s; cbn [strip_prefix].
  - by intros [= ->].
  - destruct s as [|b s]; [done|]. case_decide as Hab; [|done].
    intros Hrest. subst b. apply IH in Hrest. by subst s.
Qed.

Lemma strip_prefix_here (p r : string) : strip_prefix p (p +:+ r) = Some r.
Proof.
  induction p as [|a p IH]; [done|].
  change (String a p +:+ r) with (String a (p +:+ r)).
  cbn [strip_prefix]. by rewrite decide_True.
Qed.

(** An argument that starts with [--target-blender=] or [--version=] has a
    second part when split at the equals sign. *)
Lemma flag_value (arg : string) :
  startswith arg "--target-blender=" = true ∨
  startswith arg "--version=" = true →
  is_Some (Py.getitem (split "=" arg) 1).
Proof.
  unfold startswith. intros [Hflag|Hflag].
  - destruct (strip_prefix _ arg) as [rest|] eqn:Hrest; [|done].
    apply strip_prefix_app in Hrest as ->.
    destruct (split "=" rest) as [|q qs] eqn:Hsplit.
    { by destruct (split_nonempty "=" rest). }
    exists q. simpl. change ("" +:+ rest) with rest. rewrite Hsplit.
    by rewrite getitem_nonneg by (cbn [length]; lia).
  - destruct (strip_prefix _ arg) as [rest|] eqn:Hrest; [|done].
    apply strip_prefix_app in Hrest as ->.
    destruct (split "=" rest) as [|q qs] eqn:Hsplit.
    { by destruct (split_nonempty "=" rest). }
    exists q. simpl. change ("" +:+ rest) with rest. rewrite Hsplit.
    by rewrite getitem_nonneg by (cbn [length]; lia).
Qed.

(** The loop of [main] over the arguments, from any start. *)
Lemma parse_args_loop (argv : list string)
    (st : bool * option string * option string) :
  ∃ st',
    Py.for_each argv (λ arg '(as_zip, target_blender, version),
      if decide (arg = "--as-zip") then Some (true, target_blender, version)
      else if startswith arg "--target-blender=" then
        v ← Py.getitem (split "=" arg) 1; Some (as_zip, Some v, version)
      else if startswith arg "--version=" then
        v ← Py.getitem (split "=" arg) 1;
        Some (as_zip, target_blender, Some v)
      else Some (as_zip, target_blender, version)) st = Some st' ∧
    (st'.1.1 = true ↔ st.1.1 = true ∨ "--as-zip" ∈ argv) ∧
    (is_Some st'.1.2 ↔
       is_Some st.1.2 ∨
       ∃ arg, arg ∈ argv ∧ startswith arg "--target-blender=" = true) ∧
    (is_Some st'.2 ↔
       is_Some st.2 ∨
       ∃ arg, arg ∈ argv ∧ startswith arg "--version=" = true).
Proof.
  revert st. induction argv as [|arg argv IH]; intros [[a t] v].
  - exists (a, t, v). split; [done|]. cbn [fst snd].
    split; [|split]; (split; [by left|]);
      (intros [?|Hin]; [done|]);
      [by apply elem_of_nil in Hin
      |destruct Hin as (? & Hin & _); by apply elem_of_nil in Hin..].
  - cbn [Py.for_each]. destruct (decide (arg = "--as-zip")) as [->|Harg].
    { cbn [mbind option_bind].
      destruct (IH (true, t, v)) as (st' & -> & Hzip & Ht & Hv).
      exists st'. split; [done|]. cbn [fst snd] in *.
      split; [|split].
      - split; [intros _; right; left|]. intros _. apply Hzip. by left.
      - rewrite Ht. split; (intros [?|(x & Hin & Hx)]; [by left|right]).
        + exists x. split; [by right|done].
        + apply elem_of_cons in Hin as [->|Hin]; [done|]. eauto.
      - rewrite Hv. split; (intros [?|(x & Hin & Hx)]; [by left|right]).
        + exists x. split; [by right|done].
        + apply elem_of_cons in Hin as [->|Hin]; [done|]. eauto. }
    destruct (startswith arg "--target-blender=") eqn:Htarget.
    { destruct (flag_value arg) as [x ->]; [by left|].
      assert (startswith arg "--version=" = false) as Hversion.
      { unfold startswith in *.
        destruct (strip_prefix "--target-blender=" arg) as [rest|] eqn:Hrest;
          [|done].
        by apply strip_prefix_app in Hrest as ->. }
      cbn [mbind option_bind].
      destruct (IH (a, Some x, v)) as (st' & -> & Hzip & Ht & Hv).
      exists st'. split; [done|]. cbn [fst snd] in *.
      split; [|split].
      - rewrite Hzip. split; (intros [?|Hin]; [by left|right]).
        + by right.
        + apply elem_of_cons in Hin as [Heq|Hin]; [by symmetry in Heq|done].
      - split; [intros _; right; exists arg; split; [left|done]|].
        intros _. apply Ht. by left.
      - rewrite Hv. split; (intros [?|(y & Hin & Hy)]; [by left|right]).
        + exists y. split; [by right|done].
        + apply elem_of_cons in Hin as [->|Hin]; [congruence|]. eauto. }
    destruct (startswith arg "--version=") eqn:Hversion.
    { destruct (flag_value arg) as [x ->]; [by right|].
      cbn [mbind option_bind].
      destruct (IH (a, t, Some x)) as (st' & -> & Hzip & Ht & Hv).
      exists st'. split; [done|]. cbn [fst snd] in *.
      split; [|split].
      - rewrite Hzip. split; (intros [?|Hin]; [by left|right]).
        + by right.
        + apply elem_of_cons in Hin as [Heq|Hin]; [by symmetry in Heq|done].
      - rewrite Ht. split; (intros [?|(y & Hin & Hy)]; [by left|right]).
        + exists y. split; [by right|done].
        + apply elem_of_cons in Hin as [->|Hin]; [congruence|]. eauto.
      - split; [intros _; right; exists arg; split; [left|done]|].
        intros _. apply Hv. by left. }
    cbn [mbind option_bind].
    destruct (IH (a, t, v)) as (st' & -> & Hzip & Ht & Hv).
    exists st'. split; [done|]. cbn [fst snd] in *.
    split; [|split].
    + rewrite Hzip. split; (intros [?|Hin]; [by left|right]).
      * by right.
      * apply elem_of_cons in Hin as [Heq|Hin]; [by symmetry in Heq|done].
    + rewrite Ht. split; (intros [?|(y & Hin & Hy)]; [by left|right]).
      * exists y. split; [by right|done].
      * apply elem_of_cons in Hin as [->|Hin]; [congruence|]. eauto.
    + rewrite Hv. split; (intros [?|(y & Hin & Hy)]; [by left|right]).
      * exists y. split; [by right|done].
      * apply elem_of_cons in Hin as [->|Hin]; [congruence|]. eauto.
Qed.

(** X17. Reading the command line never raises, whatever the arguments:
    an argument that starts with [--target-blender=] or [--version=] always
    has a part after the equals sign, possibly empty. The archive flag is
    set exactly when [--as-zip] is an argument, and a target or a version is
    taken from the command line exactly when an argument starts with the
    corresponding prefix; unknown arguments are ignored. *)
Theorem parse_args_never_raises (argv : list string) :
  ∃ as_zip target_blender version,
    parse_args argv = Some (as_zip, target_blender, version) ∧
    (as_zip = true ↔ "--as-zip"%string ∈ argv) ∧
    (is_Some target_blender ↔
       ∃ arg, arg ∈ argv ∧ startswith arg "--target-blender=" = true) ∧
    (is_Some version ↔
       ∃ arg, arg ∈ argv ∧ startswith arg "--version=" = true).
Proof.
  unfold parse_args.
  destruct (parse_args_loop argv (false, None, None))
    as ([[a t] v] & -> & Hzip & Ht & Hv).
  exists a, t, v. split; [done|]. cbn [fst snd] in *.
  split; [|split].
  - rewrite Hzip. split; [by intros [?|?]|by right].
  - rewrite Ht. split; [|by right].
    intros [Hnone|?]; [|done]. by destruct Hnone.
  - rewrite Hv. split; [|by right].
    intros [Hnone|?]; [|done]. by destruct Hnone.
Qed.

(** ** Runs of [main] *)

Section runs.
Variable literal_eval : string → evaluation.
Variable py_int : string → option Z.

(** X18. Without [--as-zip], a run that settles on a version and a target
    finishes with the staging folder [emission_atlas] holding exactly the
    add-on script, then [LICENSE] and [README.md] when they are files of the
    working directory: whatever an earlier build left in the folder is gone,
    no archive is written, and nothing else in the working directory
    changes. *)
Theorem main_builds_folder (argv : list string) (fs : Py.dict entry)
    (version target : string) (script : entry) :
  "--as-zip"%string ∉ argv →
  settled literal_eval py_int argv fs = Some (version, target) →
  Py.get fs SCRIPT_FILE = Some script →
  is_dir script = false →
  folder_or_absent fs OUTPUT_FOLDER →
  file_or_absent fs "LICENSE" →
  file_or_absent fs "README.md" →
  ∃ fs',
    main literal_eval py_int argv fs
      = Some (fs', ["✅ Build complete: Folder 'emission_atlas' created"%string]) ∧
    Py.get fs' OUTPUT_FOLDER
      = Some (Dir ([(SCRIPT_FILE, script)]
                   ++ file_at fs "LICENSE"
                   ++ file_at fs "README.md")) ∧
    same_but [OUTPUT_FOLDER] fs fs'.
Proof.
  intros Hzip Hsettled Hscript Hfile Hout Hlic Hreadme.
  unfold settled in Hsettled. unfold main.
  destruct (parse_args_loop argv (false, None, None))
    as ([[a t] v] & Hparse & Ha & _).
  fold (parse_args argv) in Hparse. rewrite Hparse in *.
  cbn [fst snd] in Ha.
  assert (a = false) as ->.
  { destruct a; [|done]. destruct Ha as [[?|?] _]; done. }
  cbn [mbind option_bind] in *.
  destruct (match t with
            | Some t0 => Some (Some t0)
            | None => get_blender_version literal_eval fs SCRIPT_FILE
            end) as [[tb|]|]; [|done..].
  cbn [mbind option_bind] in *.
  destruct (match v with
            | Some v0 => Some v0
            | None => _
            end) as [ver|]; [|done].
  cbn [mbind option_bind] in *.
  destruct (stage_spec fs script Hscript Hfile Hout Hlic Hreadme)
    as (fs1 & -> & Hsame1 & Hout1).
  cbn [mbind option_bind]. by exists fs1.
Qed.

End runs.

Lemma main_builds_folder_witness :
  ∃ fs',
    main addon_literal int_of_digits [] project
      = Some (fs', ["✅ Build complete: Folder 'emission_atlas' created"%string]) ∧
    Py.get fs' "emission_atlas"
      = Some (Dir [("emission_atlas.py"%string, File addon_text);
                   ("LICENSE"%string, File "MIT")]).
Proof.
  destruct (main_builds_folder addon_literal int_of_digits [] project
    "1.4" "4.1.1" (File addon_text))
    as (fs' & Hrun & Hfolder & _);
    [apply not_elem_of_nil|reflexivity|reflexivity|reflexivity|reflexivity
    |reflexivity|exact I|].
  exists fs'. split; [exact Hrun|exact Hfolder].
Defined.

Section failures.
Variable literal_eval : string → evaluation.
Variable py_int : string → option Z.

(** X19. When no argument gives the target Blender version and the add-on
    script, which can be read, has no [bl_info] display that the search
    finds, or has one on which [ast.literal_eval] raises [SyntaxError] or
    [ValueError], [main] prints the error line and returns with the working
    directory exactly as it was: no folder is made or removed and no archive
    written, with or without [--as-zip] and [--version=]. *)
Theorem main_without_target (argv : list string) (fs : Py.dict entry)
    (content : string) :
  (∀ arg, arg ∈ argv → startswith arg "--target-blender=" = false) →
  read fs SCRIPT_FILE = Some content →
  (∀ group, bl_info_search content = Some group →
            literal_eval ("{" +:+ group +:+ "}") = Caught) →
  main literal_eval py_int argv fs
  = Some (fs, ["Error: Could not determine target Blender version from emission_atlas.py"%string]).
Proof.
  intros Hargs Hread Hinfo. unfold main.
  destruct (parse_args_loop argv (false, None, None))
    as ([[a t] v] & Hparse & _ & Ht & _).
  fold (parse_args argv) in Hparse. rewrite Hparse.
  cbn [fst snd] in Ht. destruct t as [t|].
  { destruct Ht as [[Hnone|(arg & Hin & Harg)] _]; [done|by destruct Hnone|].
    rewrite Hargs in Harg by done. done. }
  cbn [mbind option_bind].
  unfold get_blender_version, get_bl_info. rewrite Hread.
  cbn [mbind option_bind].
  destruct (bl_info_search content) as [group|]; [|done].
  by rewrite Hinfo.
Qed.

(** X20. When [emission_atlas.py] is missing from the working directory, or
    is a directory, [main] raises whatever the arguments are: there is no
    run that ends with a build or with the error line. When the target or
    the version has to be read it is [open] that raises, and otherwise the
    staging steps, [shutil.copy] at the latest. *)
Theorem main_without_script (argv : list string) (fs : Py.dict entry) :
  folder_or_absent fs SCRIPT_FILE →
  main literal_eval py_int argv fs = None.
Proof.
  intros Hscript. unfold folder_or_absent in Hscript.
  assert (read fs SCRIPT_FILE = None) as Hread.
  { unfold read. by destruct (Py.get fs SCRIPT_FILE) as [[]|]. }
  assert (stage fs = None) as Hstage.
  { unfold stage.
    assert (∀ fs1 (rest : Py.dict entry → option (Py.dict entry)),
              Py.get fs1 SCRIPT_FILE = Py.get fs SCRIPT_FILE →
              (fs2 ← mkdir fs1 OUTPUT_FOLDER;
               fs3 ← copy fs2 SCRIPT_FILE OUTPUT_FOLDER; rest fs3) = None)
      as Hcopy.
    { intros fs1 rest Hsame. unfold mkdir.
      destruct (exists_ fs1 OUTPUT_FOLDER); [done|].
      cbn [mbind option_bind]. unfold copy.
      rewrite (dict_get_set_ne _ OUTPUT_FOLDER SCRIPT_FILE) by discriminate.
      rewrite Hsame.
      destruct (Py.get fs SCRIPT_FILE) as [e|]; [|done].
      cbn [mbind option_bind]. by rewrite Hscript. }
    destruct (exists_ fs OUTPUT_FOLDER).
    - unfold rmtree. destruct (Py.get fs OUTPUT_FOLDER) as [[]|]; try done.
      cbn [mbind option_bind].
      apply Hcopy. apply dict_get_remove_ne. discriminate.
    - cbn [mbind option_bind]. by apply Hcopy. }
  unfold main.
  destruct (parse_args argv) as [[[a t] v]|]; [|done].
  cbn [mbind option_bind].
  unfold get_blender_version, get_version, get_bl_info. rewrite Hread.
  destruct t as [t|]; [|done]. cbn [mbind option_bind].
  destruct v as [v|]; [|done]. cbn [mbind option_bind].
  by rewrite Hstage.
Qed.

End failures.

Lemma main_without_target_witness :
  main no_literal int_of_digits ["--as-zip"%string; "--version=2.0"%string]
    broken_project
  = Some (broken_project, ["Error: Could not determine target Blender version from emission_atlas.py"%string]).
Proof.
  apply (main_without_target no_literal int_of_digits
           ["--as-zip"%string; "--version=2.0"%string] broken_project
           "bl_info = { 'blender': }").
  - intros arg Hin. apply elem_of_cons in Hin as [->|Hin]; [reflexivity|].
    apply elem_of_cons in Hin as [->|Hin]; [reflexivity|].
    by apply elem_of_nil in Hin.
  - reflexivity.
  - reflexivity.
Defined.

Lemma main_without_script_witness :
  main addon_literal int_of_digits
    ["--target-blender=4.2"%string; "--version=2.0"%string]
    [("LICENSE"%string, File "MIT")] = None.
Proof.
  apply (main_without_script addon_literal int_of_digits). exact I.
Defined.

(** ** The search for [bl_info] *)

Lemma skip_spaces_stop (c : ascii) (s : string) :
  is_space c = false →
  c ≠ "194"%char → c ≠ "225"%char → c ≠ "226"%char → c ≠ "227"%char →
  skip_spaces (String c s) = String c s.
Proof.
  intros Hc H194 H225 H226 H227.
  assert (∀ c2, is_space2 c c2 = false) as H2.
  { intros c2. apply bool_decide_eq_false_2. by intros [? _]. }
  assert (∀ c2 c3, is_space3 c c2 c3 = false) as H3.
  { intros c2 c3. apply bool_decide_eq_false_2.
    intros [(? & _)|[(? & _)|[(? & _)|(? & _)]]]; done. }
  destruct s as [|c2 [|c3 s]]; cbn [skip_spaces]; by rewrite Hc, ?H2, ?H3.
Qed.

(** The leading white space of a text, and what [skip_spaces] leaves. *)
Lemma skip_spaces_spec (s : string) :
  ∃ ws, s = ws +:+ skip_spaces s ∧ white_space ws.
Proof.
  unfold white_space.
  remember (String.length s) as n eqn:Hn.
  revert s Hn. induction (lt_wf n) as [n _ IH]. intros s ->.
  destruct s as [|c1 s1]; [by exists ""%string|].
  cbn [skip_spaces]. destruct (is_space c1) eqn:H1.
  { destruct (IH (String.length s1) ltac:(cbn; lia) s1 eq_refl)
      as (ws & Hs & Hws).
    exists (String c1 ws). split.
    - change (String c1 ws +:+ skip_spaces s1)
        with (String c1 (ws +:+ skip_spaces s1)).
      by rewrite <- Hs.
    - cbn [skip_spaces]. by rewrite H1. }
  destruct s1 as [|c2 s2]; [by exists ""%string|].
  destruct (is_space2 c1 c2) eqn:H2.
  { destruct (IH (String.length s2) ltac:(cbn; lia) s2 eq_refl)
      as (ws & Hs & Hws).
    exists (String c1 (String c2 ws)). split.
    - change (String c1 (String c2 ws) +:+ skip_spaces s2)
        with (String c1 (String c2 (ws +:+ skip_spaces s2))).
      by rewrite <- Hs.
    - cbn [skip_spaces]. by rewrite H1, H2. }
  destruct s2 as [|c3 s3]; [by exists ""%string|].
  destruct (is_space3 c1 c2 c3) eqn:H3; [|by exists ""%string].
  destruct (IH (String.length s3) ltac:(cbn; lia) s3 eq_refl)
    as (ws & Hs & Hws).
  exists (String c1 (String c2 (String c3 ws))). split.
  - change (String c1 (String c2 (String c3 ws)) +:+ skip_spaces s3)
      with (String c1 (String c2 (String c3 (ws +:+ skip_spaces s3)))).
    by rewrite <- Hs.
  - cbn [skip_spaces]. by rewrite H1, H2, H3.
Qed.

Lemma skip_spaces_app (ws s : string) :
  white_space ws → skip_spaces (ws +:+ s) = skip_spaces s.
Proof.
  unfold white_space.
  remember (String.length ws) as n eqn:Hn.
  revert ws Hn. induction (lt_wf n) as [n _ IH]. intros ws -> Hws.
  destruct ws as [|c1 w1]; [done|].
  change (String c1 w1 +:+ s) with (String c1 (w1 +:+ s)).
  cbn [skip_spaces] in *. destruct (is_space c1) eqn:H1.
  { by apply (IH (String.length w1) ltac:(cbn; lia)). }
  destruct w1 as [|c2 w2]; [done|].
  change (String c2 w2 +:+ s) with (String c2 (w2 +:+ s)).
  cbn [skip_spaces] in *. destruct (is_space2 c1 c2) eqn:H2.
  { by apply (IH (String.length w2) ltac:(cbn; lia)). }
  destruct w2 as [|c3 w3]; [done|].
  change (String c3 w3 +:+ s) with (String c3 (w3 +:+ s)).
  cbn [skip_spaces] in *. destruct (is_space3 c1 c2 c3) eqn:H3; [|done].
  by apply (IH (String.length w3) ltac:(cbn; lia)).
Qed.

Lemma until_brace_spec (s group : string) :
  until_brace s = Some group →
  ∃ rest, s = group +:+ String "}" rest ∧
          all_chars (λ c, bool_decide (c ≠ "}"%char)) group = true.
Proof.
  revert group. induction s as [|c s IH]; intros group; [done|].
  cbn [until_brace]. destruct (decide (c = "}"%char)) as [->|Hc].
  - intros [= <-]. by exists s.
  - destruct (until_brace s) as [g|]; [|done]. intros [= <-].
    destruct (IH g eq_refl) as (rest & -> & Hg). exists rest.
    split; [done|]. cbn [all_chars]. rewrite Hg.
    by rewrite bool_decide_eq_true_2.
Qed.

Lemma until_brace_app (group rest : string) :
  all_chars (λ c, bool_decide (c ≠ "}"%char)) group = true →
  until_brace (group +:+ String "}" rest) = Some group.
Proof.
  induction group as [|c g IH]; [done|]. cbn [all_chars].
  intros [Hc Hg]%andb_prop. apply bool_decide_eq_true_1 in Hc.
  change (String c g +:+ String "}" rest)
    with (String c (g +:+ String "}" rest)).
  cbn [until_brace]. destruct (decide (c = "}"%char)); [done|].
  by rewrite IH.
Qed.

Lemma search_here (s group : string) :
  match_here s = Some group → bl_info_search s = Some group.
Proof. intros Hm. destruct s; cbn [bl_info_search]; by rewrite Hm. Qed.

(** X21. What the search returns is really there: the text has the word
    [bl_info], white space, an equals sign, white space and an opening
    brace, then the returned group, then a closing brace, where white space
    is any run of the characters that [\s] matches in a [str] pattern, the
    Unicode ones included; and the group has no closing brace in it, so a
    display with a nested dict or set is cut at its first closing brace. *)
Theorem bl_info_search_sound (content group : string) :
  bl_info_search content = Some group →
  all_chars (λ c, bool_decide (c ≠ "}"%char)) group = true ∧
  ∃ before ws1 ws2 rest,
    content = before +:+ "bl_info" +:+ ws1 +:+ "=" +:+ ws2 +:+ "{"
              +:+ group +:+ "}" +:+ rest ∧
    white_space ws1 ∧ white_space ws2.
Proof.
  induction content as [|c s IH].
  - cbn. done.
  - cbn [bl_info_search].
    destruct (match_here (String c s)) as [g|] eqn:Hm.
    + intros [= ->]. unfold match_here in Hm.
      destruct (strip_prefix "bl_info" (String c s)) as [s1|] eqn:H1;
        [|done].
      apply strip_prefix_app in H1. cbn [mbind option_bind] in Hm.
      destruct (skip_spaces_spec s1) as (ws1 & Hs1 & Hws1).
      destruct (strip_prefix "=" (skip_spaces s1)) as [s2|] eqn:H2; [|done].
      apply strip_prefix_app in H2. cbn [mbind option_bind] in Hm.
      destruct (skip_spaces_spec s2) as (ws2 & Hs2 & Hws2).
      destruct (strip_prefix "{" (skip_spaces s2)) as [s3|] eqn:H3; [|done].
      apply strip_prefix_app in H3. cbn [mbind option_bind] in Hm.
      apply until_brace_spec in Hm as (rest & Hs3 & Hgroup).
      split; [done|]. exists ""%string, ws1, ws2, rest.
      split; [|done].
      rewrite H1, Hs1, H2, Hs2, H3, Hs3. done.
    + intros Hs. destruct (IH Hs)
        as (Hgroup & before & ws1 & ws2 & rest & -> & Hws1 & Hws2).
      split; [done|]. by exists (String c before), ws1, ws2, rest.
Qed.

Lemma bl_info_search_sound_witness :
  all_chars (λ c, bool_decide (c ≠ "}"%char))
    " 'blender': (4, 1, 1), 'version': (1, 3), " = true.
Proof.
  destruct (bl_info_search_sound addon_text
    " 'blender': (4, 1, 1), 'version': (1, 3), " eq_refl) as [Hgroup _].
  exact Hgroup.
Defined.

(** X22. A [bl_info] display is found when it is there: for a text that has,
    after a part without the letter [b], the word [bl_info], white space
    (ASCII or Unicode), an equals sign, white space and a brace group
    without closing brace inside, the search returns that group, whatever
    follows the closing brace. *)
Theorem bl_info_search_finds (before ws1 ws2 group rest : string) :
  all_chars (λ c, bool_decide (c ≠ "b"%char)) before = true →
  white_space ws1 →
  white_space ws2 →
  all_chars (λ c, bool_decide (c ≠ "}"%char)) group = true →
  bl_info_search (before +:+ "bl_info" +:+ ws1 +:+ "=" +:+ ws2 +:+ "{"
                  +:+ group +:+ "}" +:+ rest)
  = Some group.
Proof.
  intros Hbefore Hws1 Hws2 Hgroup.
  induction before as [|c before IH].
  - apply search_here. unfold match_here.
    change ("" +:+ "bl_info" +:+ ?s) with ("bl_info" +:+ s).
    rewrite strip_prefix_here. cbn [mbind option_bind].
    rewrite skip_spaces_app by done.
    change ("=" +:+ ?s) with (String "=" s).
    rewrite skip_spaces_stop by done.
    change (String "=" ?s) with ("=" +:+ s).
    rewrite strip_prefix_here. cbn [mbind option_bind].
    rewrite skip_spaces_app by done.
    change ("{" +:+ ?s) with (String "{" s).
    rewrite skip_spaces_stop by done.
    change (String "{" ?s) with ("{" +:+ s).
    rewrite strip_prefix_here. cbn [mbind option_bind].
    by apply until_brace_app.
  - cbn [all_chars] in Hbefore. apply andb_prop in Hbefore as [Hc Hbefore].
    apply bool_decide_eq_true_1 in Hc.
    change (String c before +:+ ?s) with (String c (before +:+ s)).
    cbn [bl_info_search].
    assert (match_here (String c (before +:+ "bl_info" +:+ ws1 +:+ "="
              +:+ ws2 +:+ "{" +:+ group +:+ "}" +:+ rest)) = None) as ->.
    { unfold match_here. cbn [strip_prefix].
      destruct (decide ("b"%char = c)) as [<-|]; done. }
    by apply IH.
Qed.

Lemma bl_info_search_finds_witness :
  bl_info_search addon_text
  = Some " 'blender': (4, 1, 1), 'version': (1, 3), "%string.
Proof.
  apply (bl_info_search_finds "" " " " "
           " 'blender': (4, 1, 1), 'version': (1, 3), " ""); reflexivity.
Defined.

(** ** The version a build settles on *)

Section defaults.
Variable literal_eval : string → evaluation.
Variable py_int : string → option Z.

(** X23. A build without [--version=] whose add-on script gives no version
    (no [bl_info] display is found, or [ast.literal_eval] raises
    [SyntaxError] or [ValueError] on it, or the dict has no ['version']
    entry) is version [0.0.1], whenever the run gets as far as a version.
    With a dict that lacks the entry this is the default [(0, 0, 0)]
    incremented, so it needs [int('0')] to be [0]. *)
Theorem version_defaults_to_first (argv : list string) (fs : Py.dict entry)
    (content version target : string) :
  (∀ arg, arg ∈ argv → startswith arg "--version=" = false) →
  read fs SCRIPT_FILE = Some content →
  (∀ group bl_info_dict,
     bl_info_search content = Some group →
     literal_eval ("{" +:+ group +:+ "}") = Value (Dict bl_info_dict) →
     Py.get bl_info_dict "version" = None) →
  py_int "0" = Some 0 →
  settled literal_eval py_int argv fs = Some (version, target) →
  version = "0.0.1"%string.
Proof.
  intros Hargs Hread Hinfo Hint. unfold settled.
  destruct (parse_args_loop argv (false, None, None))
    as ([[a t] v] & Hparse & _ & _ & Hv).
  fold (parse_args argv) in Hparse. rewrite Hparse.
  cbn [fst snd] in Hv. destruct v as [v|].
  { destruct Hv as [[Hnone|(arg & Hin & Harg)] _]; [done|by destruct Hnone|].
    rewrite Hargs in Harg by done. done. }
  cbn [mbind option_bind].
  destruct (match t with
            | Some t0 => Some (Some t0)
            | None => get_blender_version literal_eval fs SCRIPT_FILE
            end) as [[tb|]|]; [|done..].
  cbn [mbind option_bind].
  unfold get_version, get_bl_info. rewrite Hread. cbn [mbind option_bind].
  assert (∀ found : option string,
    found = None ∨ found = Some "0.0.0"%string →
    (ver ← increment_version py_int found; Some (ver, tb))
      = Some (version, target) →
    version = "0.0.1"%string) as Hdefault.
  { intros found [->| ->].
    - by intros [= <- _].
    - unfold increment_version. cbv zeta.
      change (split "." "0.0.0") with (["0"; "0"] ++ ["0"%string]).
      rewrite getitem_last. cbn [mbind option_bind]. rewrite Hint.
      cbn [mbind option_bind]. rewrite setitem_last.
      cbn [mbind option_bind]. by intros [= <- _]. }
  destruct (bl_info_search content) as [group|] eqn:Hsearch.
  2:{ cbn [mbind option_bind]. apply Hdefault. by left. }
  destruct (literal_eval ("{" +:+ group +:+ "}")) as [| |[d|]] eqn:Hlit.
  - cbn [mbind option_bind]. apply Hdefault. by left.
  - done.
  - rewrite (Hinfo group d) by done. cbn [default mbind option_bind].
    apply Hdefault. by right.
  - done.
Qed.

End defaults.

Lemma version_defaults_to_first_witness :
  settled bare_literal int_of_digits [] bare_project
  = Some ("0.0.1"%string, "4.1.1"%string).
Proof.
  assert ("0.0.1"%string = "0.0.1"%string) as Hversion.
  { apply (version_defaults_to_first bare_literal int_of_digits
      [] bare_project bare_text "0.0.1" "4.1.1").
    - intros arg Hin. by apply elem_of_nil in Hin.
    - reflexivity.
    - intros group bl_info_dict Hgroup Hlit.
      injection Hgroup as <-. injection Hlit as <-. reflexivity.
    - reflexivity.
    - reflexivity. }
  reflexivity.
Defined.

Section versions.
Variable literal_eval : string → evaluation.
Variable py_int : string → option Z.

(** X24. An empty version tuple stops the build: when no argument starts
    with [--version=] and the [bl_info] dict of the add-on script has the
    entry ['version': ()], the version read is the empty string, [int('')]
    raises in [increment_version], and [main] raises before it touches the
    working directory, whether or not a target is given. *)
Theorem main_raises_on_empty_version (argv : list string)
    (fs : Py.dict entry) (content group : string)
    (bl_info_dict : Py.dict (option (list string))) :
  (∀ arg, arg ∈ argv → startswith arg "--version=" = false) →
  read fs SCRIPT_FILE = Some content →
  bl_info_search content = Some group →
  literal_eval ("{" +:+ group +:+ "}") = Value (Dict bl_info_dict) →
  Py.get bl_info_dict "version" = Some (Some []) →
  py_int "" = None →
  main literal_eval py_int argv fs = None.
Proof.
  intros Hargs Hread Hsearch Hlit Hversion Hint. unfold main.
  destruct (parse_args_loop argv (false, None, None))
    as ([[a t] v] & Hparse & _ & _ & Hv).
  fold (parse_args argv) in Hparse. rewrite Hparse.
  cbn [fst snd] in Hv. destruct v as [v|].
  { destruct Hv as [[Hnone|(arg & Hin & Harg)] _]; [done|by destruct Hnone|].
    rewrite Hargs in Harg by done. done. }
  cbn [mbind option_bind].
  assert (get_version literal_eval fs SCRIPT_FILE = Some (Some ""%string))
    as Hget.
  { unfold get_version, get_bl_info. rewrite Hread. cbn [mbind option_bind].
    by rewrite Hsearch, Hlit, Hversion. }
  assert (get_blender_version literal_eval fs SCRIPT_FILE ≠ Some None)
    as Htarget.
  { unfold get_blender_version, get_bl_info. rewrite Hread.
    cbn [mbind option_bind]. rewrite Hsearch, Hlit.
    by destruct (default _ (Py.get bl_info_dict "blender")). }
  assert (increment_version py_int (Some ""%string) = None) as Hinc.
  { unfold increment_version. cbv zeta.
    change (split "." "") with ([] ++ [""%string]).
    rewrite getitem_last. cbn [mbind option_bind]. by rewrite Hint. }
  destruct (match t with
            | Some t0 => Some (Some t0)
            | None => get_blender_version literal_eval fs SCRIPT_FILE
            end) as [[tb|]|] eqn:Ht; [| |done].
  - cbn [mbind option_bind]. rewrite Hget. cbn [mbind option_bind].
    by rewrite Hinc.
  - destruct t; [done|]. by destruct Htarget.
Qed.

End versions.

Lemma main_raises_on_empty_version_witness :
  main bare_literal int_of_digits ["--as-zip"%string] empty_version_project
  = None.
Proof.
  apply (main_raises_on_empty_version bare_literal int_of_digits
           ["--as-zip"%string] empty_version_project empty_version_text
           " 'blender': (4, 1, 1), 'version': (), "
           [("blender"%string, Some ["4"; "1"; "1"]%string);
            ("version"%string, Some [])]).
  - intros arg Hin. apply elem_of_cons in Hin as [->|Hin]; [reflexivity|].
    by apply elem_of_nil in Hin.
  - reflexivity.
  - reflexivity.
  - reflexivity.
  - reflexivity.
  - reflexivity.
Defined.
